(** * maps4fs: the Background component

    A shallow embedding of [maps4fs/generator/background.py] (class
    [Background]) and the properties of its raster arithmetic, grid
    triangulation and processing sequence.

    Conventions of the embedding:
    - a numpy array is its dtype, its shape and its row-major data;
      unsigned arithmetic wraps modulo [2 ^ bits];
    - floating-point coordinates and factors are idealised as rationals;
    - the file system, the logger and the component's attributes are
      threaded through a state-and-exception monad;
    - OpenCV's interpolation, trimesh's decimation, the DEM provider and
      the texture classifier are parameters of the development. *)

From Stdlib Require Import ZArith List Lia QArith Qround Ascii String Bool Arith.
From stdpp Require Import base gmap strings list.

Local Open Scope string_scope.
Local Open Scope list_scope.
Local Open Scope Z_scope.

(** ** numpy arrays *)

Inductive dtype := uint8 | uint16.

Definition bits (t : dtype) : Z :=
  match t with uint8 => 8 | uint16 => 16 end.

Definition modulus (t : dtype) : Z := 2 ^ bits t.

(** The value stored in an unsigned array of dtype [t]. *)
Definition wrap (t : dtype) (v : Z) : Z := v mod modulus t.

Record ndarray := mk_ndarray {
  ndtype : dtype;
  nrows : nat;
  ncols : nat;
  data : list Z
}.

(** Shape and contents agree, every sample fits the dtype. *)
Definition wf (a : ndarray) : Prop :=
  length (data a) = (nrows a * ncols a)%nat.

Definition in_range (a : ndarray) : Prop :=
  Forall (fun v => 0 <= v < modulus (ndtype a)) (data a).

(** [a[i, j]] for an index inside the shape. *)
Definition get (a : ndarray) (i j : nat) : Z :=
  nth (i * ncols a + j)%nat (data a) 0.

(** An array given sample by sample. *)
Definition tabulate (t : dtype) (R C : nat) (f : nat -> nat -> Z) : ndarray :=
  mk_ndarray t R C
    (map (fun k => f (k / C)%nat (k mod C)%nat) (seq 0 (R * C))).

(** Element-wise operation on one array. *)
Definition map_array (f : Z -> Z) (a : ndarray) : ndarray :=
  mk_ndarray (ndtype a) (nrows a) (ncols a) (map f (data a)).

Definition same_shape (a b : ndarray) : bool :=
  (nrows a =? nrows b)%nat && (ncols a =? ncols b)%nat.

(** [a.max()], [a.min()]: a [ValueError] on an empty array. *)
Definition np_max (a : ndarray) : option Z :=
  match data a with
  | [] => None
  | v :: l => Some (fold_left Z.max l v)
  end.

Definition np_min (a : ndarray) : option Z :=
  match data a with
  | [] => None
  | v :: l => Some (fold_left Z.min l v)
  end.

(** ** Grid triangulation ([plane_from_np], lines 258-301) *)

Definition vertex := (Q * Q * Q)%type.
Definition face := (nat * nat * nat)%type.

(** [dem_data = dem_data.max() - dem_data] *)
Definition invert_heights (dem_data : ndarray) : option ndarray :=
  match np_max dem_data with
  | None => None
  | Some m => Some (map_array (fun v => wrap (ndtype dem_data) (m - v)) dem_data)
  end.

(** [np.column_stack([x.ravel(), y.ravel(), z.ravel()])] with [x, y] the
    meshgrid of the column and row indices. *)
Definition grid_vertices (z : ndarray) : list vertex :=
  map (fun k => (inject_Z (Z.of_nat (k mod ncols z)),
                 inject_Z (Z.of_nat (k / ncols z)),
                 inject_Z (nth k (data z) 0)))
      (seq 0 (nrows z * ncols z)).

(** [ground in [z[i, j], z[i, j + 1], z[i + 1, j], z[i + 1, j + 1]]] *)
Definition touches_ground (z : ndarray) (ground : Z) (i j : nat) : bool :=
  (ground =? get z i j) || (ground =? get z i (j + 1))
  || (ground =? get z (i + 1) j) || (ground =? get z (i + 1) (j + 1)).

(** One pass of the inner loop body: the state is [(faces, skipped)]. *)
Definition mesh_cell (z : ndarray) (ground : Z) (include_zeros : bool)
    (i j : nat) (st : list face * nat) : list face * nat :=
  let cols := ncols z in
  let top_left := (i * cols + j)%nat in
  let top_right := (top_left + 1)%nat in
  let bottom_left := (top_left + cols)%nat in
  let bottom_right := (bottom_left + 1)%nat in
  if touches_ground z ground i j && negb include_zeros
  then (fst st, S (snd st))
  else (fst st ++ [(top_left, bottom_left, bottom_right);
                   (top_left, bottom_right, top_right)], snd st).

Definition mesh_row (z : ndarray) (ground : Z) (include_zeros : bool)
    (i : nat) (st : list face * nat) : list face * nat :=
  fold_left (fun st j => mesh_cell z ground include_zeros i j st)
            (seq 0 (ncols z - 1)) st.

Definition mesh_loops (z : ndarray) (ground : Z) (include_zeros : bool)
    : list face * nat :=
  fold_left (fun st i => mesh_row z ground include_zeros i st)
            (seq 0 (nrows z - 1)) ([], 0%nat).

(** The faces one grid cell contributes to the list. *)
Definition cell_faces (z : ndarray) (ground : Z) (include_zeros : bool)
    (i j : nat) : list face :=
  fst (mesh_cell z ground include_zeros i j ([], 0%nat)).

(** The faces one grid row contributes to the list. *)
Definition row_faces (z : ndarray) (ground : Z) (include_zeros : bool)
    (i : nat) : list face :=
  flat_map (cell_faces z ground include_zeros i) (seq 0 (ncols z - 1)).

(** The vertex indices of a face. *)
Definition corners (f : face) : list nat :=
  let '(a, b, c) := f in [a; b; c].

(** The height of vertex [k]. *)
Definition vertex_z (vs : list vertex) (k : nat) : Q :=
  snd (nth k vs (0%Q, 0%Q, 0%Q)).

(** The arrays handed to [trimesh.Trimesh]. *)
Record grid_mesh := mk_grid_mesh {
  gm_vertices : list vertex;
  gm_faces : list face;
  gm_ground : Z;
  gm_skipped : nat
}.

(** Lines 258-301: inversion, ground level, vertices and faces. *)
Definition triangulate (dem_data : ndarray) (include_zeros : bool)
    : option grid_mesh :=
  match invert_heights dem_data with
  | None => None
  | Some z =>
    match np_max z with
    | None => None
    | Some ground =>
      let '(faces, skipped) := mesh_loops z ground include_zeros in
      Some (mk_grid_mesh (grid_vertices z) faces ground skipped)
    end
  end.

(** ** Raster operations of OpenCV and numpy used by the component *)

(** A sample at a signed position, [None] outside the image. *)
Definition zget (a : ndarray) (i j : Z) : option Z :=
  if (0 <=? i) && (i <? Z.of_nat (nrows a))
     && (0 <=? j) && (j <? Z.of_nat (ncols a))
  then Some (get a (Z.to_nat i) (Z.to_nat j))
  else None.

(** Offsets [-r .. r] of a full square kernel of side [2 * r + 1]. *)
Definition offsets (r : nat) : list Z :=
  map (fun k => Z.of_nat k - Z.of_nat r) (seq 0 (2 * r + 1)).

(** The samples under the kernel anchored at [(i, j)].  With the default
    border of [cv2.erode] and [cv2.dilate] the positions outside the image
    do not take part in the minimum or maximum. *)
Definition window (a : ndarray) (r : nat) (i j : nat) : list Z :=
  flat_map (fun di =>
    flat_map (fun dj =>
      match zget a (Z.of_nat i + di) (Z.of_nat j + dj) with
      | Some v => [v]
      | None => []
      end) (offsets r)) (offsets r).

Definition erode_once (r : nat) (a : ndarray) : ndarray :=
  tabulate (ndtype a) (nrows a) (ncols a)
    (fun i j => fold_left Z.min (window a r i j) (get a i j)).

Definition dilate_once (r : nat) (a : ndarray) : ndarray :=
  tabulate (ndtype a) (nrows a) (ncols a)
    (fun i j => fold_left Z.max (window a r i j) (get a i j)).

(** [cv2.erode(src, np.ones((ksize, ksize)), iterations=n)] *)
Definition cv2_erode (src : ndarray) (ksize : nat) (iterations : nat) : ndarray :=
  Nat.iter iterations (erode_once (ksize / 2)) src.

(** [cv2.dilate(src, np.ones((ksize, ksize)), iterations=n)] *)
Definition cv2_dilate (src : ndarray) (ksize : nat) (iterations : nat) : ndarray :=
  Nat.iter iterations (dilate_once (ksize / 2)) src.

(** [saturate_cast<uchar>]: the 8-bit saturating sum of [cv2.add]. *)
Definition saturate_u8 (v : Z) : Z := Z.max 0 (Z.min 255 v).

(** [cv2.add(a, b)] on two 8-bit images; OpenCV rejects operands of
    different sizes. *)
Definition cv2_add (a b : ndarray) : option ndarray :=
  if same_shape a b
  then Some (tabulate uint8 (nrows a) (ncols a)
               (fun i j => saturate_u8 (get a i j + get b i j)))
  else None.

(** [np.zeros((n, n), dtype=np.uint8)] *)
Definition np_zeros_u8 (n : nat) : ndarray :=
  tabulate uint8 n n (fun _ _ => 0).

(** [image == v] as an array of 0 and 1. *)
Definition np_eq_scalar (a : ndarray) (v : Z) : ndarray :=
  tabulate uint8 (nrows a) (ncols a)
    (fun i j => if get a i j =? v then 1 else 0).

(** [mask.astype(bool)] read at one position. *)
Definition truthy (mask : ndarray) (i j : nat) : bool :=
  negb (get mask i j =? 0).

(** [mask = cv2.erode((water == 255).astype(np.uint8), np.ones((3, 3)),
    iterations=1).astype(bool)] *)
Definition water_mask (water_resources_image : ndarray) : ndarray :=
  cv2_erode (np_eq_scalar water_resources_image 255) 3 1.

(** [dem_image[mask] = dem_image[mask] - water_depth]: numpy computes the
    difference in the dtype of the image, which wraps; a mask of another
    shape is an [IndexError]. *)
Definition subtract_depth (dem_image mask : ndarray) (water_depth : Z)
    : option ndarray :=
  if same_shape dem_image mask
  then Some (tabulate (ndtype dem_image) (nrows dem_image) (ncols dem_image)
               (fun i j =>
                  if truthy mask i j
                  then wrap (ndtype dem_image) (get dem_image i j - water_depth)
                  else get dem_image i j))
  else None.

(** [background_dem[plane_water == 0] = 0] *)
Definition zero_where_no_water (background_dem plane_water : ndarray)
    : option ndarray :=
  if same_shape background_dem plane_water
  then Some (tabulate (ndtype background_dem) (nrows background_dem)
               (ncols background_dem)
               (fun i j => if get plane_water i j =? 0 then 0
                           else get background_dem i j))
  else None.

(** [np.where(mask, x, y)] with [mask = x > 0]. *)
Definition np_where_positive (x y : ndarray) : ndarray :=
  tabulate (ndtype x) (nrows x) (ncols x)
    (fun i j => if 0 <? get x i j then get x i j else get y i j).

(** Lines 557-570 of [generate_water_resources_obj]: the raster of the
    elevated water mesh. *)
Definition elevated_water_raster (background_dem plane_water : ndarray)
    : option ndarray :=
  match zero_where_no_water background_dem plane_water with
  | None => None
  | Some zeroed =>
    let elevated_water := cv2_dilate zeroed 3 10 in
    Some (np_where_positive zeroed elevated_water)
  end.

(** Modelled from the spec: [ImageComponent.cut_out_np] is not part of the
    sources at hand.  Section 4.1: the centre pixel of the raster is
    computed and a square of side [2 * half_size] centred there is
    extracted ([return_cutout]) or overwritten with 0 ([set_zeros]); the
    call fails when [half_size] exceeds the raster bounds after centring. *)
Inductive cut_mode := return_cutout | set_zeros.

Definition cut_out_np (image : ndarray) (half_size : nat) (mode : cut_mode)
    : option ndarray :=
  let cx := (nrows image / 2)%nat in
  let cy := (ncols image / 2)%nat in
  if (half_size <=? cx)%nat && (cx + half_size <=? nrows image)%nat
     && (half_size <=? cy)%nat && (cy + half_size <=? ncols image)%nat
  then
    let x1 := (cx - half_size)%nat in
    let x2 := (cx + half_size)%nat in
    let y1 := (cy - half_size)%nat in
    let y2 := (cy + half_size)%nat in
    match mode with
    | return_cutout =>
      Some (tabulate (ndtype image) (2 * half_size) (2 * half_size)
              (fun i j => get image (x1 + i) (y1 + j)))
    | set_zeros =>
      Some (tabulate (ndtype image) (nrows image) (ncols image)
              (fun i j =>
                 if (x1 <=? i)%nat && (i <? x2)%nat
                    && (y1 <=? j)%nat && (j <? y2)%nat
                 then 0 else get image i j))
    end
  else None.

(** ** Paths ([os.path] on POSIX) *)

Definition slash : ascii := "/"%char.
Definition dot : ascii := "."%char.

Definition starts_with_slash (p : string) : bool :=
  match p with
  | String c _ => Ascii.eqb c slash
  | EmptyString => false
  end.

Fixpoint ends_with_slash (p : string) : bool :=
  match p with
  | EmptyString => false
  | String c EmptyString => Ascii.eqb c slash
  | String _ q => ends_with_slash q
  end.

(** [os.path.join(a, b)] *)
Definition path_join (a b : string) : string :=
  if starts_with_slash b then b
  else if String.eqb a "" || ends_with_slash a then a ++ b
  else a ++ "/" ++ b.

(** Splits a reversed path at its first [sep]: the characters before it
    and the rest, separator included. *)
Fixpoint break_at (sep : ascii) (l : list ascii) : list ascii * list ascii :=
  match l with
  | [] => ([], [])
  | c :: q =>
    if Ascii.eqb c sep then ([], l)
    else let '(a, b) := break_at sep q in (c :: a, b)
  end.

Fixpoint drop_slashes (l : list ascii) : list ascii :=
  match l with
  | c :: q => if Ascii.eqb c slash then drop_slashes q else l
  | [] => []
  end.

(** [os.path.basename(p)] *)
Definition basename (p : string) : string :=
  string_of_list_ascii
    (rev (fst (break_at slash (rev (list_ascii_of_string p))))).

(** [os.path.dirname(p)] *)
Definition dirname (p : string) : string :=
  let head := snd (break_at slash (rev (list_ascii_of_string p))) in
  match drop_slashes head with
  | [] => string_of_list_ascii (rev head)
  | stripped => string_of_list_ascii (rev stripped)
  end.

(** [os.path.splitext(p)[0]]: the extension starts at the last dot of the
    last component, leading dots of that component apart. *)
Fixpoint all_dots (l : list ascii) : bool :=
  match l with
  | [] => true
  | c :: q => Ascii.eqb c dot && all_dots q
  end.

Definition splitext_root (p : string) : string :=
  let r := rev (list_ascii_of_string p) in
  let '(ext_rev, rest) := break_at dot r in
  match rest with
  | [] => p
  | _ :: before =>
    let '(name_rev, _) := break_at slash before in
    if existsb (fun c => Ascii.eqb c slash) ext_rev || all_dots name_rev
    then p
    else string_of_list_ascii (rev before)
  end.

(** ** Meshes ([trimesh.Trimesh]) *)

Record mesh := mk_mesh {
  vertices : list vertex;
  faces : list face
}.

Definition Trimesh (g : grid_mesh) : mesh :=
  mk_mesh (gm_vertices g) (gm_faces g).

Definition map_vertices (f : vertex -> vertex) (m : mesh) : mesh :=
  mk_mesh (map f (vertices m)) (faces m).

(** Rotation by [pi] around the Y axis, then around the Z axis. *)
Definition rotation_y_pi (v : vertex) : vertex :=
  let '(x, y, z) := v in ((- x)%Q, y, (- z)%Q).

Definition rotation_z_pi (v : vertex) : vertex :=
  let '(x, y, z) := v in ((- x)%Q, (- y)%Q, z).

(** [mesh.apply_scale([sx, sy, sz])] *)
Definition apply_scale (sx sy sz : Q) (m : mesh) : mesh :=
  map_vertices (fun '(x, y, z) => ((x * sx)%Q, (y * sy)%Q, (z * sz)%Q)) m.

(** Arguments of [mesh.simplify_quadric_decimation]. *)
Inductive decimation :=
  | by_percent (percent : Q) (aggression : Z)
  | by_face_count (face_count : nat).

(** ** Files, journal and component state *)

(** An entry of the texture schema, as far as the component reads it. *)
Record layer := mk_layer {
  layer_name : string;
  layer_background : bool;
  layer_count : Z
}.

Inductive file :=
  | image_file (a : ndarray)
  | mesh_file (m : mesh)
  | json_file (layers : list layer)
  | other_file.

Inductive level := DEBUG | INFO | WARNING.

Inductive logarg :=
  | a_str (s : string)
  | a_int (z : Z)
  | a_num (q : Q)
  | a_shape (r c : nat).

(** What a run leaves behind, in order: log records and file operations. *)
Inductive event :=
  | Log (lv : level) (msg : string) (args : list logarg)
  | Copyfile (src dst : string)
  | Imwrite (path : string)
  | Remove (path : string)
  | Export (path : string)
  | External (name : string).

Inductive exn :=
  | FileNotFoundError (path : string)
  | SameFileError
  | ValueError
  | IndexError
  | ZeroDivisionError
  | TypeError
  | JSONDecodeError
  | cv2_error
  | ExternalError (name : string).

(** The files under the map directory, the journal and the attributes the
    component assigns while it runs. *)
Record state := mk_state {
  fs : gmap string file;
  journal : list event;
  water_resources_path : option string;
  stl_preview_path : option string
}.

Inductive result (A : Type) :=
  | Ok (a : A)
  | Raise (e : exn).
Arguments Ok {A} a.
Arguments Raise {A} e.

(** Computations keep the state they reached when they raise. *)
Definition M (A : Type) : Type := state -> result A * state.

Definition ret {A} (a : A) : M A := fun s => (Ok a, s).

Definition raise {A} (e : exn) : M A := fun s => (Raise e, s).

Definition bind {A B} (m : M A) (k : A -> M B) : M B :=
  fun s =>
    match m s with
    | (Ok a, s') => k a s'
    | (Raise e, s') => (Raise e, s')
    end.

Notation "x <- m ;; k" := (bind m (fun x => k))
  (at level 100, m at next level, right associativity).
Notation "m ;;; k" := (bind m (fun _ => k))
  (at level 100, right associativity).

Definition emit (e : event) : M unit :=
  fun s => (Ok tt, mk_state (fs s) (journal s ++ [e])
                     (water_resources_path s) (stl_preview_path s)).

Definition logger (lv : level) (msg : string) (args : list logarg) : M unit :=
  emit (Log lv msg args).

Definition get_fs : M (gmap string file) := fun s => (Ok (fs s), s).

Definition put_fs (f : gmap string file) : M unit :=
  fun s => (Ok tt, mk_state f (journal s)
                     (water_resources_path s) (stl_preview_path s)).

Definition get_water_resources_path : M (option string) :=
  fun s => (Ok (water_resources_path s), s).

Definition set_water_resources_path (p : option string) : M unit :=
  fun s => (Ok tt, mk_state (fs s) (journal s) p (stl_preview_path s)).

Definition set_stl_preview_path (p : option string) : M unit :=
  fun s => (Ok tt, mk_state (fs s) (journal s) (water_resources_path s) p).

(** A value that Python would have as [None] where an array is needed. *)
Definition require {A} (e : exn) (o : option A) : M A :=
  match o with
  | Some a => ret a
  | None => raise e
  end.

(** [os.path.isfile(p)] *)
Definition isfile (p : string) : M bool :=
  f <- get_fs ;; ret (bool_decide (is_Some (f !! p))).

(** [cv2.imread(p, cv2.IMREAD_UNCHANGED)]: [None] when the file is absent
    or not an image. *)
Definition imread (p : string) : M (option ndarray) :=
  f <- get_fs ;;
  ret (match f !! p with
       | Some (image_file a) => Some a
       | _ => None
       end).

(** [cv2.imread(p, cv2.IMREAD_GRAYSCALE)]: 16-bit samples are reduced to
    their high byte. *)
Definition to_grayscale (a : ndarray) : ndarray :=
  match ndtype a with
  | uint8 => a
  | uint16 => mk_ndarray uint8 (nrows a) (ncols a)
                (map (fun v => v / 256) (data a))
  end.

Definition imread_grayscale (p : string) : M (option ndarray) :=
  a <- imread p ;; ret (option_map to_grayscale a).

Definition is_empty (a : ndarray) : bool :=
  (nrows a =? 0)%nat || (ncols a =? 0)%nat.

(** [cv2.imwrite(p, img)]; OpenCV refuses an empty image. *)
Definition imwrite (p : string) (img : ndarray) : M unit :=
  if is_empty img then raise cv2_error
  else
    f <- get_fs ;;
    put_fs (<[p := image_file img]> f) ;;;
    emit (Imwrite p).

(** [shutil.copyfile(src, dst)] *)
Definition copyfile (src dst : string) : M unit :=
  f <- get_fs ;;
  match f !! src with
  | None => raise (FileNotFoundError src)
  | Some content =>
    if String.eqb src dst then raise SameFileError
    else put_fs (<[dst := content]> f) ;;; emit (Copyfile src dst)
  end.

(** [try: os.remove(p) except FileNotFoundError: pass] *)
Definition remove_if_present (p : string) : M unit :=
  f <- get_fs ;;
  match f !! p with
  | None => ret tt
  | Some _ => put_fs (delete p f) ;;; emit (Remove p)
  end.

(** [mesh.export(p)] *)
Definition export (p : string) (m : mesh) : M unit :=
  f <- get_fs ;;
  put_fs (<[p := mesh_file m]> f) ;;;
  emit (Export p).

(** ** Configuration of a component instance *)

Record config := mk_config {
  map_size : nat;
  map_directory : string;
  previews_directory : string;
  rotation : Z;
  custom_background_path : option string;
  (* map.dem_settings *)
  water_depth : Z;
  (* map.background_settings *)
  generate_background : bool;
  generate_water : bool;
  remove_center : bool;
  resize_factor : Z;
  apply_decimation : bool;
  decimation_percent : Z;
  decimation_agression : Z;
  (* game *)
  texture_schema : string;
  dem_file_path : string;
  weights_dir_path : string;
  additional_dem_name : option string;
  (* MeshComponent.get_z_scaling_factor() *)
  z_scaling_factor : Q;
  (* Parameters *)
  FULL : string;
  BACKGROUND_DISTANCE : nat
}.

(** The attributes [preprocess] derives from the configuration. *)
Definition background_size (self : config) : nat :=
  (map_size self + BACKGROUND_DISTANCE self * 2)%nat.

Definition rotated_size (self : config) : nat :=
  if rotation self =? 0 then background_size self
  else (background_size self * 3 / 2)%nat.

Definition background_directory (self : config) : string :=
  path_join (map_directory self) "background".

Definition water_directory (self : config) : string :=
  path_join (map_directory self) "water".

Definition output_path (self : config) : string :=
  path_join (background_directory self) (FULL self ++ ".png").

Definition not_substracted_path (self : config) : string :=
  path_join (background_directory self) "not_substracted.png".

Definition not_resized_path (self : config) : string :=
  path_join (background_directory self) "not_resized.png".

(** [self.dem.set_dem_path(self.output_path)] *)
Definition dem_path (self : config) : string := output_path self.

Definition nat_arg (n : nat) : logarg := a_int (Z.of_nat n).

(** The log records that mark the three raster saves of a run. *)
Definition msg_not_resized : string := "Not resized DEM saved: %s".
Definition msg_cutout_saved : string := "DEM cutout saved: %s".
Definition msg_subtracted : string := "Water depth subtracted from DEM data: %s".
Definition msg_no_water : string := "Water resources texture not found.".

(** ** A small concrete map

    A map of size 2 with a margin of 1, so that the background rasters are
    4 x 4, with stand-ins for the external collaborators: resizing by a
    factor keeps the raster, resizing to a size samples the nearest pixel,
    decimation keeps the mesh, the provider writes a flat raster and the
    classifier one full water layer. *)

Definition demo_config : config :=
  mk_config 2 "map" "map/previews" 0 None 50 false false false 1 false 50 3
    "schema.json" "map/data/dem.png" "map/weights" None 1 "FULL" 1.

Definition demo_dem : ndarray := tabulate uint16 4 4 (fun _ _ => 1000).

Definition demo_low_dem : ndarray := tabulate uint16 4 4 (fun _ _ => 10).

Definition demo_water : ndarray := tabulate uint8 4 4 (fun _ _ => 255).

Definition demo_resize (factor : Q) (src : ndarray) : ndarray := src.

Definition demo_linear (src : ndarray) (rows cols i j : nat) : Z :=
  get src (i * nrows src / rows) (j * ncols src / cols).

Definition demo_simplify (d : decimation) (m : mesh) : mesh := m.

Definition demo_dem_process (f : gmap string file) : result (gmap string file) :=
  Ok (<["map/background/FULL.png" := image_file demo_dem]> f).

Definition demo_texture (layers : list layer) (f : gmap string file)
    : result (gmap string file * list string) :=
  Ok (<["map/weights/water_background.png" := image_file demo_water]> f,
      ["map/weights/water_background.png"]).

Definition demo_state : state :=
  mk_state {["schema.json" := json_file [mk_layer "water" true 2]]} [] None None.

(** A state in which the mask is known and the raster is lower than the
    configured depth. *)
Definition demo_low_state : state :=
  mk_state
    (<["map/water/water_resources.png" := image_file demo_water]>
       {["map/background/FULL.png" := image_file demo_low_dem]})
    [] (Some "map/water/water_resources.png") None.

(** A raster with one zero sample, two layers marked on different pixels,
    a mask marked on its centre only, and the mesh of the flat raster. *)
Definition demo_slope : ndarray := mk_ndarray uint16 2 2 [0; 3; 5; 7].

Definition demo_layer_a : ndarray := mk_ndarray uint8 2 2 [255; 0; 0; 0].

Definition demo_layer_b : ndarray := mk_ndarray uint8 2 2 [0; 255; 0; 0].

Definition demo_layers_state : state :=
  mk_state (<["a.png" := image_file demo_layer_a]>
              {["b.png" := image_file demo_layer_b]}) [] None None.

Definition demo_pond : ndarray :=
  tabulate uint8 3 3 (fun i j => if (i =? 1)%nat && (j =? 1)%nat then 255 else 0).

Definition demo_hill : ndarray := tabulate uint16 3 3 (fun _ _ => 100).

Definition demo_raster_state : state :=
  mk_state {["map/background/FULL.png" := image_file demo_dem]} [] None None.

Definition demo_empty_state : state := mk_state ∅ [] None None.

Definition demo_grid_mesh : grid_mesh :=
  match triangulate demo_dem true with
  | Some g => g
  | None => mk_grid_mesh [] [] 0 0
  end.

(** Some entry accepted by [p] comes before some entry accepted by [q]. *)
Fixpoint occurs_before (p q : event -> bool) (l : list event) : bool :=
  match l with
  | [] => false
  | e :: rest => (p e && existsb q rest) || occurs_before p q rest
  end.

(** ** The methods of [Background] *)

(** ** The map ([maps4fs.generator.map.Map]) *)

(** A component class of the game, as [Map.generate] uses it: the name of
    the class, what calling the class does (the constructor) and what
    [process] does on the instance.  Both act on the state the components
    share. *)
Record component := mk_component {
  class_name : string;
  construct : M unit;
  component_process : M unit
}.

(** What [Map.generate] reads and writes: the state of the components,
    [self.components], the calls of [self.logger.error] (class name and
    exception) and the position of the progress bar. *)
Record map_state := mk_map_state {
  world : state;
  components : list component;
  errors : list (string * exn);
  pbar : nat
}.

(** [Map.generate]: the loop over [self.game.components].  The constructor
    is called outside the [try]; an exception of [process] is logged and
    raised again. *)
Fixpoint generate (game_components : list component) (self : map_state)
    : result unit * map_state :=
  match game_components with
  | [] => (Ok tt, self)
  | game_component :: rest =>
    match construct game_component (world self) with
    | (Raise e, w) =>
      (Raise e, mk_map_state w (components self) (errors self) (pbar self))
    | (Ok tt, w) =>
      match component_process game_component w with
      | (Raise e, w') =>
        (Raise e,
         mk_map_state w' (components self)
           (errors self ++ [(class_name game_component, e)]) (pbar self))
      | (Ok tt, w') =>
        generate rest
          (mk_map_state w' (components self ++ [game_component])
             (errors self) (pbar self + 1))
      end
    end
  end.

Section Background.

#[local] Set Default Proof Using "Type".

(** [cv2.resize(src, (0, 0), fx=f, fy=f)] *)
Variable cv2_resize : Q -> ndarray -> ndarray.

(** The sample at [(i, j)] of [src] resized to [rows x cols] with
    [cv2.INTER_LINEAR]. *)
Variable inter_linear : ndarray -> nat -> nat -> nat -> nat -> Z.

(** [mesh.simplify_quadric_decimation(...)] *)
Variable simplify_quadric_decimation : decimation -> mesh -> mesh.

(** [self.dem.process()]: the elevation provider acting on the files. *)
Variable dem_process : gmap string file -> result (gmap string file).

(** [Texture(..., texture_custom_schema=layers)] preprocessed and
    processed, with the paths of its background layers. *)
Variable texture_process :
  list layer -> gmap string file -> result (gmap string file * list string).

(** [cv2.resize(src, (size, size), interpolation=cv2.INTER_LINEAR)] *)
Definition cv2_resize_to (src : ndarray) (size : nat) : M ndarray :=
  if is_empty src || (size =? 0)%nat then raise cv2_error
  else ret (tabulate (ndtype src) size size (inter_linear src size size)).

Definition mesh_to_stl (self : config) (m : mesh) : M unit :=
  let m := simplify_quadric_decimation
             (by_face_count (length (faces m) / 2 ^ 6)%nat) m in
  let preview_path := path_join (previews_directory self) "background_dem.stl" in
  export preview_path m ;;;
  logger DEBUG "STL file saved: %s" [a_str preview_path] ;;;
  set_stl_preview_path (Some preview_path).

Definition plane_from_np (self : config) (dem_data : ndarray)
    (save_path : string) (include_zeros create_preview remove_center : bool)
    : M unit :=
  if resize_factor self =? 0 then raise ZeroDivisionError
  else
  let resize_factor := (1 / inject_Z (resize_factor self))%Q in
  let dem_data := cv2_resize resize_factor dem_data in
  dem_data <-
    (if remove_center
     then
       let half_size :=
         Z.to_nat (Qfloor (inject_Z (Z.of_nat (map_size self / 2))
                           * resize_factor)%Q) in
       cut <- require IndexError (cut_out_np dem_data half_size set_zeros) ;;
       logger DEBUG "Center removed from DEM data." [] ;;;
       ret cut
     else ret dem_data) ;;
  logger DEBUG "DEM data resized to shape: %s with factor: %s"
    [a_shape (nrows dem_data) (ncols dem_data); a_num resize_factor] ;;;
  g <- require ValueError (triangulate dem_data include_zeros) ;;
  logger DEBUG "Ground level: %s" [a_int (gm_ground g)] ;;;
  logger DEBUG
    "Starting to generate a mesh for with shape: %s x %s. This may take a while."
    [nat_arg (ncols dem_data); nat_arg (nrows dem_data)] ;;;
  logger DEBUG "Skipped faces: %s" [nat_arg (gm_skipped g)] ;;;
  let m := Trimesh g in
  let m := map_vertices rotation_y_pi m in
  let m := map_vertices rotation_z_pi m in
  let z_scaling_factor := z_scaling_factor self in
  logger DEBUG "Z scaling factor: %s" [a_num z_scaling_factor] ;;;
  let m := apply_scale (1 / resize_factor) (1 / resize_factor)
             z_scaling_factor m in
  let old_faces := length (faces m) in
  logger DEBUG "Mesh generated with %s faces." [nat_arg old_faces] ;;;
  m <-
    (if apply_decimation self
     then
       let percent := (inject_Z (decimation_percent self) / 100)%Q in
       let m := simplify_quadric_decimation
                  (by_percent percent (decimation_agression self)) m in
       let new_faces := length (faces m) in
       if (old_faces =? 0)%nat then raise ZeroDivisionError
       else
         let decimation_percent :=
           ((inject_Z (Z.of_nat old_faces) - inject_Z (Z.of_nat new_faces))
            / inject_Z (Z.of_nat old_faces) * 100)%Q in
         logger DEBUG "Mesh simplified to %s faces. Decimation percent: %s"
           [nat_arg new_faces; a_num decimation_percent] ;;;
         ret m
     else ret m) ;;
  export save_path m ;;;
  logger DEBUG "Obj file saved: %s" [a_str save_path] ;;;
  if create_preview
  then mesh_to_stl self (apply_scale (1 # 2) (1 # 2) (1 # 2) m)
  else ret tt.

(** [if path:] on an optional string attribute. *)
Definition nonempty_path (p : option string) : option string :=
  match p with
  | Some s => if String.eqb s "" then None else Some s
  | None => None
  end.

Definition generate_obj_files (self : config) : M unit :=
  found <- isfile (dem_path self) ;;
  if negb found
  then logger WARNING "DEM file not found, generation will be stopped: %s"
         [a_str (dem_path self)]
  else
    logger DEBUG "DEM file for found: %s" [a_str (dem_path self)] ;;;
    let filename := splitext_root (basename (dem_path self)) in
    let save_path := path_join (background_directory self) (filename ++ ".obj") in
    logger DEBUG "Generating obj file in path: %s" [a_str save_path] ;;;
    dem_data <- imread (dem_path self) ;;
    dem_data <- require cv2_error dem_data ;;
    plane_from_np self dem_data save_path false true (remove_center self).

Definition save_map_dem (self : config) (dem_path : string)
    (save_path : option string) : M string :=
  dem_data <- imread dem_path ;;
  let half_size := (map_size self / 2)%nat in
  dem_data <- require TypeError dem_data ;;
  dem_data <- require ValueError (cut_out_np dem_data half_size return_cutout) ;;
  match nonempty_path save_path with
  | Some save_path =>
    imwrite save_path dem_data ;;;
    logger DEBUG msg_not_resized [a_str save_path] ;;;
    ret save_path
  | None =>
    let output_size := (map_size self + 1)%nat in
    let main_dem_path := dem_file_path self in
    remove_if_present main_dem_path ;;;
    resized_dem_data <- cv2_resize_to dem_data output_size ;;
    imwrite main_dem_path resized_dem_data ;;;
    logger DEBUG msg_cutout_saved [a_str main_dem_path] ;;;
    ret main_dem_path
  end.

Definition make_copy (self : config) (dem_path dem_name : string) : M unit :=
  let dem_directory := dirname dem_path in
  let additional_dem_path := path_join dem_directory dem_name in
  copyfile dem_path additional_dem_path ;;;
  logger DEBUG "Additional DEM data was copied to %s." [a_str additional_dem_path].

(** The loop that merges the layer images into one. *)
Fixpoint merge_layers (background_paths : list string)
    (background_image : ndarray) : M ndarray :=
  match background_paths with
  | [] => ret background_image
  | path :: rest =>
    background_layer <- imread_grayscale path ;;
    background_layer <- require cv2_error background_layer ;;
    background_image <-
      require cv2_error (cv2_add background_image background_layer) ;;
    merge_layers rest background_image
  end.

(** The external texture component run on the current files. *)
Definition run_texture (background_layers : list layer) : M (list string) :=
  fun s =>
    match texture_process background_layers (fs s) with
    | Ok (f, paths) =>
      (Ok paths, mk_state f (journal s ++ [External "texture"])
                   (water_resources_path s) (stl_preview_path s))
    | Raise e => (Raise e, s)
    end.

Definition run_dem : M unit :=
  fun s =>
    match dem_process (fs s) with
    | Ok f =>
      (Ok tt, mk_state f (journal s ++ [External "dem"])
                (water_resources_path s) (stl_preview_path s))
    | Raise e => (Raise e, s)
    end.

Definition create_background_textures (self : config) : M unit :=
  found <- isfile (texture_schema self) ;;
  if negb found
  then logger WARNING "Texture schema file not found: %s"
         [a_str (texture_schema self)]
  else
    f <- get_fs ;;
    layers_schema <-
      match f !! texture_schema self with
      | Some (json_file layers) => ret layers
      | _ => raise JSONDecodeError
      end ;;
    let background_layers :=
      map (fun layer => mk_layer (layer_name layer ++ "_background")
                          (layer_background layer) 1)
          (List.filter layer_background layers_schema) in
    match background_layers with
    | [] => ret tt
    | _ =>
      background_paths <- run_texture background_layers ;;
      logger DEBUG "Found %s background textures."
        [nat_arg (length background_paths)] ;;;
      match background_paths with
      | [] => logger WARNING "No background textures found." []
      | _ =>
        background_image <-
          merge_layers background_paths (np_zeros_u8 (background_size self)) ;;
        let background_save_path :=
          path_join (water_directory self) "water_resources.png" in
        imwrite background_save_path background_image ;;;
        logger DEBUG "Background texture saved: %s" [a_str background_save_path] ;;;
        set_water_resources_path (Some background_save_path)
      end
    end.

Definition subtraction (self : config) : M unit :=
  p <- get_water_resources_path ;;
  match nonempty_path p with
  | None => logger WARNING msg_no_water []
  | Some water_resources_path =>
    water_resources_image <- imread water_resources_path ;;
    water_resources_image <- require TypeError water_resources_image ;;
    let mask := water_mask water_resources_image in
    dem_image <- imread (output_path self) ;;
    dem_image <- require TypeError dem_image ;;
    dem_image <-
      require IndexError (subtract_depth dem_image mask (water_depth self)) ;;
    imwrite (output_path self) dem_image ;;;
    logger DEBUG msg_subtracted [a_str (output_path self)]
  end.

(** [a.astype(np.uint8)] *)
Definition astype_u8 (a : ndarray) : ndarray :=
  mk_ndarray uint8 (nrows a) (ncols a) (map (wrap uint8) (data a)).

Definition generate_water_resources_obj (self : config) : M unit :=
  p <- get_water_resources_path ;;
  match nonempty_path p with
  | None => logger WARNING msg_no_water []
  | Some water_resources_path =>
    plane_water <- imread water_resources_path ;;
    plane_water <- require TypeError plane_water ;;
    let dilated_plane_water :=
      astype_u8 (cv2_dilate (astype_u8 plane_water) 5 5) in
    let plane_save_path := path_join (water_directory self) "plane_water.obj" in
    plane_from_np self dilated_plane_water plane_save_path false false false ;;;
    background_dem <- imread (not_substracted_path self) ;;
    background_dem <- require TypeError background_dem ;;
    elevated_water <-
      require IndexError (elevated_water_raster background_dem plane_water) ;;
    let elevated_save_path :=
      path_join (water_directory self) "elevated_water.obj" in
    plane_from_np self elevated_water elevated_save_path false false false
  end.

Definition process (self : config) : M unit :=
  create_background_textures self ;;;
  (match nonempty_path (custom_background_path self) with
   | None => run_dem
   | Some _ => ret tt
   end) ;;;
  copyfile (dem_path self) (not_substracted_path self) ;;;
  save_map_dem self (dem_path self) (Some (not_resized_path self)) ;;;
  (if negb (water_depth self =? 0) then subtraction self else ret tt) ;;;
  cutted_dem_path <- save_map_dem self (dem_path self) None ;;
  (match additional_dem_name self with
   | Some name => make_copy self cutted_dem_path name
   | None => ret tt
   end) ;;;
  (if generate_background self then generate_obj_files self else ret tt) ;;;
  (if generate_water self then generate_water_resources_obj self else ret tt).

(** Modelled from the spec: [MeshComponent.validate_np_for_mesh] is not
    part of the sources at hand.  Section 6: a user-supplied raster is
    validated to match the expected square size (the background size)
    exactly and rejected otherwise. *)
Definition validate_np_for_mesh (self : config) (image_path : string)
    : M unit :=
  image <- imread image_path ;;
  image <- require (FileNotFoundError image_path) image ;;
  if (nrows image =? background_size self)%nat
     && (ncols image =? background_size self)%nat
  then ret tt
  else raise ValueError.

(** The attributes [preprocess] assigns before any processing; the
    directories it creates and the provider object it builds carry no
    state of this model. *)
Definition preprocess (self : config) : M unit :=
  set_stl_preview_path None ;;;
  set_water_resources_path None ;;;
  (if negb (rotation self =? 0)
   then logger DEBUG "Rotation is enabled: %s." [a_int (rotation self)]
   else ret tt) ;;;
  match nonempty_path (custom_background_path self) with
  | Some custom =>
    validate_np_for_mesh self custom ;;;
    copyfile custom (output_path self)
  | None => ret tt
  end.

(** ** Vocabulary of the properties *)

(** A pixel is marked when its sample is not 0; in a mask whose samples
    are 0 or 255 these are the samples equal to 255. *)
Definition marked (v : Z) : bool := negb (v =? 0).

Definition count_marked (a : ndarray) : nat :=
  length (List.filter marked (data a)).

Definition count_255 (a : ndarray) : nat :=
  length (List.filter (fun v => v =? 255) (data a)).

Definition binary_mask (a : ndarray) : Prop :=
  Forall (fun v => v = 0 \/ v = 255) (data a).

(** The scenario of section 8: a flat 1025 x 1025 16-bit raster of value
    1000 and a water mask that is 255 on the 100 x 100 square centred the
    way the cutout utility centres (rows and columns 462 to 561). *)
Definition flat_raster : ndarray :=
  tabulate uint16 1025 1025 (fun _ _ => 1000).

Definition in_square (lo hi : nat) (i j : nat) : bool :=
  (lo <=? i)%nat && (i <? hi)%nat && (lo <=? j)%nat && (j <? hi)%nat.

Definition square_mask : ndarray :=
  tabulate uint8 1025 1025 (fun i j => if in_square 462 562 i j then 255 else 0).

(** The offset towards the outside of the square for a pixel on its
    boundary ring. *)
Definition outward (x : nat) : Z :=
  if (x =? 462)%nat then -1 else if (x =? 561)%nat then 1 else 0.

(** Journal records that mark the depth adjustment and the save of the
    main cutout. *)
Definition is_subtracted (e : event) : bool :=
  match e with
  | Log DEBUG msg _ => String.eqb msg msg_subtracted
  | _ => false
  end.

Definition is_cutout_saved (e : event) : bool :=
  match e with
  | Log DEBUG msg _ => String.eqb msg msg_cutout_saved
  | _ => false
  end.

Definition is_warning (e : event) : bool :=
  match e with
  | Log WARNING _ _ => true
  | _ => false
  end.

(** The state with one more journal entry. *)
Definition journaled (s : state) (d : list event) : state :=
  mk_state (fs s) (journal s ++ d) (water_resources_path s)
           (stl_preview_path s).

(** [stable R m]: whatever the outcome, a run of [m] takes a state to one
    related to it by [R]. *)
Definition stable {A} (R : state -> state -> Prop) (m : M A) : Prop :=
  forall s, R s (snd (m s)).

(** The two relations the runs are shown to keep: the water mask
    attribute is untouched; the journal grows by entries accepted by
    [quiet]. *)
Definition keeps_water_path (s s' : state) : Prop :=
  water_resources_path s' = water_resources_path s.

Definition journal_grows (quiet : event -> bool) (s s' : state) : Prop :=
  exists d, journal s' = journal s ++ d /\ forallb quiet d = true.

(** The raster that reaches the height inversion of [plane_from_np]
    (lines 248-252): downscaled, its centre zeroed on request. *)
Definition mesh_grid (self : config) (dem_data : ndarray) (remove_center : bool)
    : option ndarray :=
  let factor := (1 / inject_Z (resize_factor self))%Q in
  let dem_data := cv2_resize factor dem_data in
  if remove_center
  then cut_out_np dem_data
         (Z.to_nat (Qfloor (inject_Z (Z.of_nat (map_size self / 2)) * factor)%Q))
         set_zeros
  else Some dem_data.

(** The mesh [plane_from_np] exports (lines 301-330): rotated, scaled by
    [sigma, sigma, z_scaling_factor] and decimated on request. *)
Definition scaled_mesh (self : config) (g : grid_mesh) : mesh :=
  apply_scale (inject_Z (resize_factor self)) (inject_Z (resize_factor self))
    (z_scaling_factor self)
    (map_vertices rotation_z_pi (map_vertices rotation_y_pi (Trimesh g))).

Definition exported_mesh (self : config) (g : grid_mesh) : mesh :=
  if apply_decimation self
  then simplify_quadric_decimation
         (by_percent (inject_Z (decimation_percent self) / 100)%Q
            (decimation_agression self))
         (scaled_mesh self g)
  else scaled_mesh self g.

(** The debug records [plane_from_np] leaves before it exports. *)
Definition plane_log (self : config) (grid : ndarray) (g : grid_mesh)
    (remove_center : bool) : list event :=
  (if remove_center then [Log DEBUG "Center removed from DEM data." []] else [])
  ++ [Log DEBUG "DEM data resized to shape: %s with factor: %s"
        [a_shape (nrows grid) (ncols grid);
         a_num (1 / inject_Z (resize_factor self))%Q];
      Log DEBUG "Ground level: %s" [a_int (gm_ground g)];
      Log DEBUG
        "Starting to generate a mesh for with shape: %s x %s. This may take a while."
        [nat_arg (ncols grid); nat_arg (nrows grid)];
      Log DEBUG "Skipped faces: %s" [nat_arg (gm_skipped g)];
      Log DEBUG "Z scaling factor: %s" [a_num (z_scaling_factor self)];
      Log DEBUG "Mesh generated with %s faces." [nat_arg (length (gm_faces g))]]
  ++ (if apply_decimation self
      then [Log DEBUG "Mesh simplified to %s faces. Decimation percent: %s"
              [nat_arg (length (faces (exported_mesh self g)));
               a_num ((inject_Z (Z.of_nat (length (gm_faces g)))
                       - inject_Z (Z.of_nat
                                     (length (faces (exported_mesh self g)))))
                      / inject_Z (Z.of_nat (length (gm_faces g))) * 100)%Q]]
      else []).

(** The preview [mesh_to_stl] exports and the path it exports to. *)
Definition preview_mesh (m : mesh) : mesh :=
  let m := apply_scale (1 # 2) (1 # 2) (1 # 2) m in
  simplify_quadric_decimation (by_face_count (length (faces m) / 64)%nat) m.

Definition preview_path (self : config) : string :=
  path_join (previews_directory self) "background_dem.stl".

Definition is_log (e : event) : bool :=
  match e with
  | Log _ _ _ => true
  | _ => false
  end.

(** Entries that are not the record of the depth adjustment; entries
    that are neither that record nor the record of the main cutout. *)
Definition not_subtracted (e : event) : bool := negb (is_subtracted e).

Definition before_adjustment (e : event) : bool :=
  negb (is_subtracted e) && negb (is_cutout_saved e).

(** The record [subtraction] leaves when it has adjusted the raster. *)
Definition subtracted_record (self : config) : event :=
  Log DEBUG msg_subtracted [a_str (output_path self)].

(** Pixels [(i, j)] and [(i', j')] are at most [r] apart in each
    direction. *)
Definition within (r : nat) (i j i' j' : nat) : Prop :=
  (i <= i' + r)%nat /\ (i' <= i + r)%nat /\ (j <= j' + r)%nat /\ (j' <= j + r)%nat.

(** The sum of the samples of some layers at one pixel. *)
Definition sum_at (layers : list ndarray) (i j : nat) : Z :=
  fold_right (fun a acc => get a i j + acc) 0 layers.

(** A layer image as the compositor expects it: 8-bit, of side [n]. *)
Definition layer_image (n : nat) (a : ndarray) : Prop :=
  ndtype a = uint8 /\ wf a /\ in_range a /\ nrows a = n /\ ncols a = n.

(** No character of the name is a slash. *)
Definition no_slash (l : list ascii) : bool :=
  forallb (fun c => negb (Ascii.eqb c slash)) l.

(** The entry the elevation provider leaves in the journal, and how many
    of them a list of entries holds. *)
Definition is_provider_call (e : event) : bool :=
  match e with
  | External name => String.eqb name "dem"
  | _ => false
  end.

Definition no_provider_call (e : event) : bool := negb (is_provider_call e).

Definition provider_calls (d : list event) : nat :=
  length (List.filter is_provider_call d).

(** * Properties *)

(** Removes from a proof context the external collaborators its statement
    does not mention. *)
Ltac forget_externals :=
  try clear texture_process; try clear dem_process;
  try clear simplify_quadric_decimation; try clear inter_linear;
  try clear cv2_resize.

(** Unfolds the primitives of the monad and reduces what they expose. *)
Ltac mrun :=
  repeat (progress (
    cbv beta iota zeta delta
        [bind ret raise require get_fs put_fs emit logger isfile imread
         imread_grayscale imwrite copyfile remove_if_present export
         get_water_resources_path set_water_resources_path
         set_stl_preview_path];
    cbn [fs journal water_resources_path stl_preview_path fst snd
         option_map andb orb negb])).

(** ** Arrays *)

Lemma index_div (C i j : nat) : (j < C)%nat -> ((i * C + j) / C)%nat = i.
Proof.
  intros H. rewrite Nat.div_add_l by lia.
  rewrite Nat.div_small by lia. lia.
Qed.

Lemma index_mod (C i j : nat) : (j < C)%nat -> ((i * C + j) mod C)%nat = j.
Proof.
  intros H. rewrite Nat.add_comm, Nat.Div0.mod_add.
  apply Nat.mod_small. exact H.
Qed.

Lemma index_lt (R C i j : nat) :
  (i < R)%nat -> (j < C)%nat -> (i * C + j < R * C)%nat.
Proof. intros. nia. Qed.

Lemma nth_map_seq {A} (f : nat -> A) (n k : nat) (d : A) :
  (k < n)%nat -> nth k (map f (seq 0 n)) d = f k.
Proof.
  intros H.
  rewrite (nth_indep _ d (f 0%nat)) by (rewrite length_map, length_seq; lia).
  rewrite (map_nth f (seq 0 n) 0%nat k), seq_nth by lia. reflexivity.
Qed.

Lemma get_tabulate (t : dtype) (R C : nat) (f : nat -> nat -> Z) (i j : nat) :
  (i < R)%nat -> (j < C)%nat -> get (tabulate t R C f) i j = f i j.
Proof.
  intros Hi Hj. unfold get, tabulate. cbn [ncols data].
  rewrite nth_map_seq by (apply index_lt; assumption).
  rewrite index_div, index_mod by assumption. reflexivity.
Qed.

Lemma wf_tabulate (t : dtype) (R C : nat) (f : nat -> nat -> Z) :
  wf (tabulate t R C f).
Proof. unfold wf, tabulate. cbn. rewrite length_map, length_seq. reflexivity. Qed.

Lemma get_map_array (f : Z -> Z) (a : ndarray) (i j : nat) :
  wf a -> (i < nrows a)%nat -> (j < ncols a)%nat ->
  get (map_array f a) i j = f (get a i j).
Proof.
  intros Hwf Hi Hj. unfold get, map_array. cbn [ncols data].
  rewrite (nth_indep _ 0 (f 0)).
  - apply map_nth.
  - rewrite length_map, Hwf. apply index_lt; assumption.
Qed.

Lemma get_in_data (a : ndarray) (i j : nat) :
  wf a -> (i < nrows a)%nat -> (j < ncols a)%nat -> In (get a i j) (data a).
Proof.
  intros Hwf Hi Hj. apply nth_In. rewrite Hwf. apply index_lt; assumption.
Qed.

(** ** Maximum and minimum of an array *)

Lemma fold_max_ge (l : list Z) (v : Z) :
  v <= fold_left Z.max l v /\ forall x, In x l -> x <= fold_left Z.max l v.
Proof.
  revert v. induction l as [|y l IH]; intros v; cbn.
  - split; [lia | tauto].
  - destruct (IH (Z.max v y)) as [H1 H2]. split; [lia |].
    intros x [-> | Hx]; [lia | auto].
Qed.

Lemma fold_max_in (l : list Z) (v : Z) :
  fold_left Z.max l v = v \/ In (fold_left Z.max l v) l.
Proof.
  revert v. induction l as [|y l IH]; intros v; cbn; [tauto |].
  destruct (IH (Z.max v y)) as [H | H]; [| tauto].
  rewrite H. destruct (Z.max_spec v y) as [[_ ->] | [_ ->]]; tauto.
Qed.

Lemma fold_min_le (l : list Z) (v : Z) :
  fold_left Z.min l v <= v /\ forall x, In x l -> fold_left Z.min l v <= x.
Proof.
  revert v. induction l as [|y l IH]; intros v; cbn.
  - split; [lia | tauto].
  - destruct (IH (Z.min v y)) as [H1 H2]. split; [lia |].
    intros x [-> | Hx]; [lia | auto].
Qed.

Lemma fold_min_in (l : list Z) (v : Z) :
  fold_left Z.min l v = v \/ In (fold_left Z.min l v) l.
Proof.
  revert v. induction l as [|y l IH]; intros v; cbn; [tauto |].
  destruct (IH (Z.min v y)) as [H | H]; [| tauto].
  rewrite H. destruct (Z.min_spec v y) as [[_ ->] | [_ ->]]; tauto.
Qed.

Lemma np_max_spec (a : ndarray) (m : Z) :
  np_max a = Some m -> In m (data a) /\ forall x, In x (data a) -> x <= m.
Proof. forget_externals.
  unfold np_max. destruct (data a) as [|v l]; [discriminate |].
  intros [= <-]. pose proof (fold_max_ge l v) as [H1 H2].
  pose proof (fold_max_in l v) as H3. split.
  - cbn. destruct H3 as [-> | H3]; tauto.
  - intros x [<- | Hx]; auto.
Qed.

Lemma np_min_spec (a : ndarray) (m : Z) :
  np_min a = Some m -> In m (data a) /\ forall x, In x (data a) -> m <= x.
Proof. forget_externals.
  unfold np_min. destruct (data a) as [|v l]; [discriminate |].
  intros [= <-]. pose proof (fold_min_le l v) as [H1 H2].
  pose proof (fold_min_in l v) as H3. split.
  - cbn. destruct H3 as [-> | H3]; tauto.
  - intros x [<- | Hx]; auto.
Qed.

Lemma nonempty_data (a : ndarray) :
  wf a -> (0 < nrows a)%nat -> (0 < ncols a)%nat -> data a <> [].
Proof.
  intros Hwf HR HC E. unfold wf in Hwf. rewrite E in Hwf. cbn in Hwf. nia.
Qed.

Lemma np_max_total (a : ndarray) :
  wf a -> (0 < nrows a)%nat -> (0 < ncols a)%nat -> exists m, np_max a = Some m.
Proof.
  intros Hwf HR HC. pose proof (nonempty_data a Hwf HR HC) as H.
  unfold np_max. destruct (data a); [congruence | eauto].
Qed.

Lemma np_min_total (a : ndarray) :
  wf a -> (0 < nrows a)%nat -> (0 < ncols a)%nat -> exists m, np_min a = Some m.
Proof.
  intros Hwf HR HC. pose proof (nonempty_data a Hwf HR HC) as H.
  unfold np_min. destruct (data a); [congruence | eauto].
Qed.

(** ** The face list of the double loop *)

Lemma mesh_cell_faces z ground iz i j st :
  fst (mesh_cell z ground iz i j st) = fst st ++ cell_faces z ground iz i j.
Proof.
  unfold cell_faces, mesh_cell.
  destruct (touches_ground z ground i j && negb iz); cbn [fst].
  - rewrite app_nil_r. reflexivity.
  - reflexivity.
Qed.

Lemma mesh_row_faces_from z ground iz i (l : list nat) st :
  fst (fold_left (fun st j => mesh_cell z ground iz i j st) l st)
  = fst st ++ flat_map (cell_faces z ground iz i) l.
Proof.
  revert st. induction l as [|j l IH]; intros st; cbn [fold_left flat_map].
  - rewrite app_nil_r. reflexivity.
  - rewrite IH, mesh_cell_faces, app_assoc. reflexivity.
Qed.

Lemma mesh_loops_faces_from z ground iz (l : list nat) st :
  fst (fold_left (fun st i => mesh_row z ground iz i st) l st)
  = fst st ++ flat_map (row_faces z ground iz) l.
Proof.
  revert st. induction l as [|i l IH]; intros st; cbn [fold_left flat_map].
  - rewrite app_nil_r. reflexivity.
  - rewrite IH. unfold mesh_row. rewrite mesh_row_faces_from, app_assoc.
    reflexivity.
Qed.

Lemma mesh_loops_faces z ground iz :
  fst (mesh_loops z ground iz)
  = flat_map (row_faces z ground iz) (seq 0 (nrows z - 1)).
Proof. unfold mesh_loops. rewrite mesh_loops_faces_from. reflexivity. Qed.

Lemma length_flat_map_const {A B} (f : A -> list B) (l : list A) (k : nat) :
  (forall x, In x l -> length (f x) = k) ->
  length (flat_map f l) = (k * length l)%nat.
Proof.
  induction l as [|x l IH]; intros H; cbn [flat_map length]; [lia |].
  rewrite length_app, H by (left; reflexivity).
  rewrite IH by (intros y Hy; apply H; right; exact Hy). lia.
Qed.

Lemma cell_faces_all z ground i j :
  cell_faces z ground true i j
  = [((i * ncols z + j)%nat, (i * ncols z + j + ncols z)%nat,
      (i * ncols z + j + ncols z + 1)%nat);
     ((i * ncols z + j)%nat, (i * ncols z + j + ncols z + 1)%nat,
      (i * ncols z + j + 1)%nat)].
Proof.
  unfold cell_faces, mesh_cell. rewrite andb_false_r. reflexivity.
Qed.

Lemma cell_faces_filtered z ground i j :
  cell_faces z ground false i j
  = if touches_ground z ground i j then []
    else cell_faces z ground true i j.
Proof.
  rewrite cell_faces_all. unfold cell_faces, mesh_cell.
  rewrite andb_true_r. destruct (touches_ground z ground i j); reflexivity.
Qed.

Lemma length_faces_all z ground :
  length (fst (mesh_loops z ground true))
  = (2 * (nrows z - 1) * (ncols z - 1))%nat.
Proof.
  rewrite mesh_loops_faces.
  rewrite (length_flat_map_const _ _ (2 * (ncols z - 1))%nat).
  - rewrite length_seq. lia.
  - intros i _. unfold row_faces.
    rewrite (length_flat_map_const _ _ 2%nat).
    + rewrite length_seq. reflexivity.
    + intros j _. rewrite cell_faces_all. reflexivity.
Qed.

Lemma in_mesh_loops z ground iz (f : face) :
  In f (fst (mesh_loops z ground iz)) <->
  exists i j, (i < nrows z - 1)%nat /\ (j < ncols z - 1)%nat
              /\ In f (cell_faces z ground iz i j).
Proof.
  rewrite mesh_loops_faces, in_flat_map. split.
  - intros (i & Hi & Hf). unfold row_faces in Hf.
    apply in_flat_map in Hf as (j & Hj & Hf).
    apply in_seq in Hi, Hj. exists i, j. repeat split; [lia | lia | exact Hf].
  - intros (i & j & Hi & Hj & Hf). exists i. split.
    + apply in_seq. lia.
    + unfold row_faces. apply in_flat_map. exists j. split; [| exact Hf].
      apply in_seq. lia.
Qed.

Lemma length_grid_vertices z :
  length (grid_vertices z) = (nrows z * ncols z)%nat.
Proof. unfold grid_vertices. rewrite length_map, length_seq. reflexivity. Qed.

Lemma vertex_z_grid z (k : nat) :
  (k < nrows z * ncols z)%nat ->
  vertex_z (grid_vertices z) k = inject_Z (nth k (data z) 0).
Proof.
  intros H. unfold vertex_z, grid_vertices.
  rewrite nth_map_seq by exact H. reflexivity.
Qed.

Lemma touches_ground_false z ground i j :
  touches_ground z ground i j = false ->
  ground <> get z i j /\ ground <> get z i (j + 1)
  /\ ground <> get z (i + 1) j /\ ground <> get z (i + 1) (j + 1).
Proof. forget_externals.
  unfold touches_ground. rewrite !orb_false_iff, !Z.eqb_neq. tauto.
Qed.

Lemma touches_ground_true z ground i j :
  touches_ground z ground i j = true <->
  ground = get z i j \/ ground = get z i (j + 1)
  \/ ground = get z (i + 1) j \/ ground = get z (i + 1) (j + 1).
Proof. forget_externals.
  unfold touches_ground. rewrite !orb_true_iff, !Z.eqb_eq. tauto.
Qed.

(** ** Height inversion *)

Lemma invert_heights_total (dem_data : ndarray) :
  wf dem_data -> (0 < nrows dem_data)%nat -> (0 < ncols dem_data)%nat ->
  exists m, np_max dem_data = Some m
    /\ invert_heights dem_data
       = Some (map_array (fun v => wrap (ndtype dem_data) (m - v)) dem_data).
Proof.
  intros Hwf HR HC. destruct (np_max_total _ Hwf HR HC) as [m Hm].
  exists m. unfold invert_heights. rewrite Hm. auto.
Qed.

Lemma wf_map_array (f : Z -> Z) (a : ndarray) : wf a -> wf (map_array f a).
Proof. unfold wf, map_array. cbn. rewrite length_map. auto. Qed.

Lemma triangulate_total (dem_data : ndarray) (iz : bool) :
  wf dem_data -> (0 < nrows dem_data)%nat -> (0 < ncols dem_data)%nat ->
  exists m z ground,
    np_max dem_data = Some m
    /\ z = map_array (fun v => wrap (ndtype dem_data) (m - v)) dem_data
    /\ np_max z = Some ground
    /\ triangulate dem_data iz
       = Some (mk_grid_mesh (grid_vertices z) (fst (mesh_loops z ground iz))
                 ground (snd (mesh_loops z ground iz))).
Proof.
  intros Hwf HR HC.
  destruct (invert_heights_total _ Hwf HR HC) as (m & Hm & Hz).
  set (z := map_array _ dem_data) in Hz.
  destruct (np_max_total z (wf_map_array _ _ Hwf) HR HC) as [ground Hg].
  exists m, z, ground. repeat split; try assumption.
  unfold triangulate. rewrite Hz, Hg.
  destruct (mesh_loops z ground iz). reflexivity.
Qed.

Lemma cell_corner_values z ground i j (f : face) (k : nat) :
  touches_ground z ground i j = false ->
  In f (cell_faces z ground true i j) -> In k (corners f) ->
  nth k (data z) 0 <> ground.
Proof.
  intros Ht Hf Hk. apply touches_ground_false in Ht as (H1 & H2 & H3 & H4).
  unfold get in H1, H2, H3, H4.
  replace (i * ncols z + (j + 1))%nat with (i * ncols z + j + 1)%nat
    in H2 by lia.
  replace ((i + 1) * ncols z + j)%nat with (i * ncols z + j + ncols z)%nat
    in H3 by lia.
  replace ((i + 1) * ncols z + (j + 1))%nat
    with (i * ncols z + j + ncols z + 1)%nat in H4 by lia.
  rewrite cell_faces_all in Hf.
  destruct Hf as [<- | [<- | []]]; cbn in Hk;
    destruct Hk as [<- | [<- | [<- | []]]]; congruence.
Qed.

Lemma cell_corner_bound z ground i j (f : face) (k : nat) :
  (i < nrows z - 1)%nat -> (j < ncols z - 1)%nat ->
  In f (cell_faces z ground true i j) -> In k (corners f) ->
  (k < nrows z * ncols z)%nat.
Proof.
  intros Hi Hj Hf Hk. rewrite cell_faces_all in Hf.
  destruct Hf as [<- | [<- | []]]; cbn in Hk;
    destruct Hk as [<- | [<- | [<- | []]]]; nia.
Qed.

(** C1. A grid of [R] rows and [C] columns is triangulated, with
    [include_zeros] set, into exactly [2 * (R - 1) * (C - 1)] faces over
    [R * C] vertices; without it, every corner of every emitted face is a
    vertex whose height differs from the ground level, the maximum of the
    inverted raster.  A 3 x 3 raster of one value gives 8 faces and 9
    vertices. *)
Theorem triangulate_counts (dem_data : ndarray) :
  wf dem_data -> (0 < nrows dem_data)%nat -> (0 < ncols dem_data)%nat ->
  (exists g, triangulate dem_data true = Some g
     /\ length (gm_faces g)
        = (2 * (nrows dem_data - 1) * (ncols dem_data - 1))%nat
     /\ length (gm_vertices g) = (nrows dem_data * ncols dem_data)%nat)
  /\ (exists g, triangulate dem_data false = Some g
     /\ forall f k, In f (gm_faces g) -> In k (corners f) ->
          (k < length (gm_vertices g))%nat
          /\ vertex_z (gm_vertices g) k <> inject_Z (gm_ground g))
  /\ (forall t v, exists g,
        triangulate (tabulate t 3 3 (fun _ _ => v)) true = Some g
        /\ length (gm_faces g) = 8%nat /\ length (gm_vertices g) = 9%nat).
Proof.
  intros Hwf HR HC. split; [| split].
  - destruct (triangulate_total dem_data true Hwf HR HC)
      as (m & z & ground & _ & Hz & _ & Ht).
    eexists. split; [exact Ht |]. cbn [gm_faces gm_vertices].
    rewrite length_faces_all, length_grid_vertices. subst z. auto.
  - destruct (triangulate_total dem_data false Hwf HR HC)
      as (m & z & ground & _ & Hz & _ & Ht).
    eexists. split; [exact Ht |]. cbn [gm_faces gm_vertices gm_ground].
    intros f k Hf Hk. apply in_mesh_loops in Hf as (i & j & Hi & Hj & Hf).
    rewrite cell_faces_filtered in Hf.
    destruct (touches_ground z ground i j) eqn:Htouch; [destruct Hf |].
    pose proof (cell_corner_bound z ground i j f k Hi Hj Hf Hk) as Hb.
    rewrite length_grid_vertices. split; [exact Hb |].
    rewrite vertex_z_grid by exact Hb. intros E.
    apply (cell_corner_values z ground i j f k Htouch Hf Hk).
    injection E. auto.
  - intros t v.
    destruct (triangulate_total (tabulate t 3 3 (fun _ _ => v)) true)
      as (m & z & ground & _ & Hz & _ & Ht);
      [apply wf_tabulate | cbn; lia | cbn; lia |].
    eexists. split; [exact Ht |]. cbn [gm_faces gm_vertices].
    rewrite length_faces_all, length_grid_vertices. subst z. auto.
Qed.

(** ** Ground level and lowest sample *)

Lemma modulus_pos (t : dtype) : 0 < modulus t.
Proof. destruct t; reflexivity. Qed.

Lemma wrap_small (t : dtype) (v : Z) : 0 <= v < modulus t -> wrap t v = v.
Proof. intros H. unfold wrap. apply Z.mod_small. exact H. Qed.

Lemma in_range_In (a : ndarray) (v : Z) :
  in_range a -> In v (data a) -> 0 <= v < modulus (ndtype a).
Proof.
  unfold in_range. rewrite List.Forall_forall. intros H Hv. exact (H v Hv).
Qed.

(** No sample wraps when it is subtracted from the maximum. *)
Lemma inverted_sample (a : ndarray) (m v : Z) :
  in_range a -> np_max a = Some m -> In v (data a) ->
  wrap (ndtype a) (m - v) = m - v /\ 0 <= m - v.
Proof.
  intros Hr Hm Hv. apply np_max_spec in Hm as [Hin Hmax].
  pose proof (in_range_In a m Hr Hin). pose proof (in_range_In a v Hr Hv).
  pose proof (Hmax v Hv). split; [apply wrap_small |]; lia.
Qed.

Lemma ground_is_max_minus_min (a : ndarray) (m lowest ground : Z) :
  in_range a -> np_max a = Some m -> np_min a = Some lowest ->
  np_max (map_array (fun v => wrap (ndtype a) (m - v)) a) = Some ground ->
  ground = m - lowest.
Proof.
  intros Hr Hm Hl Hg. apply np_max_spec in Hg as [Hin Hmax].
  cbn [map_array data] in Hin, Hmax.
  apply np_min_spec in Hl as [Hlin Hlow].
  apply in_map_iff in Hin as (v0 & Hv0 & Hin0).
  destruct (inverted_sample a m v0 Hr Hm Hin0) as [E0 _].
  destruct (inverted_sample a m lowest Hr Hm Hlin) as [El _].
  assert (wrap (ndtype a) (m - lowest) <= ground) as Hle.
  { apply Hmax, in_map_iff. exists lowest. auto. }
  pose proof (Hlow v0 Hin0). lia.
Qed.

Lemma inverted_get (a : ndarray) (m : Z) (i j : nat) :
  wf a -> in_range a -> np_max a = Some m ->
  (i < nrows a)%nat -> (j < ncols a)%nat ->
  get (map_array (fun v => wrap (ndtype a) (m - v)) a) i j = m - get a i j.
Proof.
  intros Hwf Hr Hm Hi Hj. rewrite get_map_array by assumption.
  apply (inverted_sample a m _ Hr Hm). apply get_in_data; assumption.
Qed.

Lemma cell_faces_nil z ground i j :
  cell_faces z ground false i j = [] <-> touches_ground z ground i j = true.
Proof.
  rewrite cell_faces_filtered, cell_faces_all.
  destruct (touches_ground z ground i j); split; congruence.
Qed.

(** C3, as the code has it.  After [z = max(raster) - raster] the height
    of a grid corner equals the ground level exactly when the sample
    there is the lowest of the raster; a cell contributes no face, with
    [include_zeros] unset, exactly when one of its four corners is such a
    sample.  The lowest sample is 0 whenever the raster holds a 0. *)
Theorem ground_marks_lowest (dem_data : ndarray) :
  wf dem_data -> in_range dem_data ->
  (0 < nrows dem_data)%nat -> (0 < ncols dem_data)%nat ->
  exists lowest z g,
    np_min dem_data = Some lowest
    /\ invert_heights dem_data = Some z
    /\ triangulate dem_data false = Some g
    /\ gm_faces g
       = flat_map (row_faces z (gm_ground g) false) (seq 0 (nrows z - 1))
    /\ (forall i j, (i < nrows dem_data)%nat -> (j < ncols dem_data)%nat ->
          (get z i j = gm_ground g <-> get dem_data i j = lowest))
    /\ (forall i j,
          (i < nrows dem_data - 1)%nat -> (j < ncols dem_data - 1)%nat ->
          (cell_faces z (gm_ground g) false i j = [] <->
           get dem_data i j = lowest \/ get dem_data i (j + 1) = lowest
           \/ get dem_data (i + 1) j = lowest
           \/ get dem_data (i + 1) (j + 1) = lowest))
    /\ (In 0 (data dem_data) -> lowest = 0).
Proof.
  intros Hwf Hr HR HC.
  destruct (np_min_total _ Hwf HR HC) as [lowest Hl].
  destruct (triangulate_total dem_data false Hwf HR HC)
    as (m & z & ground & Hm & Hz & Hg & Ht).
  exists lowest, z. eexists. split; [exact Hl |].
  split; [unfold invert_heights; rewrite Hm, Hz; reflexivity |].
  split; [exact Ht |]. cbn [gm_faces gm_ground].
  split; [apply mesh_loops_faces |].
  rewrite Hz in Hg.
  pose proof (ground_is_max_minus_min _ _ _ _ Hr Hm Hl Hg) as ->.
  assert (forall i j, (i < nrows dem_data)%nat -> (j < ncols dem_data)%nat ->
            (get z i j = m - lowest <-> get dem_data i j = lowest)) as Hcorner.
  { intros i j Hi Hj. rewrite Hz, inverted_get by assumption. lia. }
  split; [exact Hcorner |]. split.
  - intros i j Hi Hj. rewrite cell_faces_nil, touches_ground_true.
    rewrite <- (Hcorner i j), <- (Hcorner i (j + 1)%nat),
      <- (Hcorner (i + 1)%nat j), <- (Hcorner (i + 1)%nat (j + 1)%nat) by lia.
    split; intros [H | [H | [H | H]]]; auto.
  - intros H0. apply np_min_spec in Hl as [Hlin Hlow].
    pose proof (Hlow 0 H0). pose proof (in_range_In _ _ Hr Hlin). lia.
Qed.

(** C3 as stated fails on a raster without a zero sample: in the 2 x 2
    raster of value 5 every corner is at ground level, none is zero, and
    the only cell is skipped. *)
Lemma ground_without_zero :
  let dem_data := mk_ndarray uint16 2 2 [5; 5; 5; 5] in
  let z := mk_ndarray uint16 2 2 [0; 0; 0; 0] in
  invert_heights dem_data = Some z
  /\ np_max z = Some 0
  /\ ~ (get z 0 0 = 0 <-> get dem_data 0 0 = 0)
  /\ cell_faces z 0 false 0 0 = []
  /\ get dem_data 0 0 <> 0 /\ get dem_data 0 1 <> 0
  /\ get dem_data 1 0 <> 0 /\ get dem_data 1 1 <> 0.
Proof.
  cbn zeta. repeat split; try reflexivity; try (cbn; lia).
Qed.

(** ** Saturating composition of layer images *)

Lemma div_mod_lt (R C k : nat) :
  (k < R * C)%nat -> (k / C < R)%nat /\ (k mod C < C)%nat.
Proof.
  intros H. assert (C <> 0)%nat as HC by nia. split.
  - apply Nat.Div0.div_lt_upper_bound. nia.
  - apply Nat.mod_upper_bound. exact HC.
Qed.

Lemma get_div_mod (a : ndarray) (k : nat) :
  get a (k / ncols a) (k mod ncols a) = nth k (data a) 0.
Proof.
  unfold get. f_equal. pose proof (Nat.div_mod_eq k (ncols a)). lia.
Qed.

Lemma list_as_map_nth (l : list Z) :
  l = map (fun k => nth k l 0) (seq 0 (length l)).
Proof.
  apply (nth_ext _ _ 0 0).
  - rewrite length_map, length_seq. reflexivity.
  - intros k Hk. rewrite nth_map_seq by exact Hk. reflexivity.
Qed.

Lemma count_pointwise (p : Z -> bool) (F G H : nat -> Z) (l : list nat) :
  (forall k, In k l -> p (H k) = p (F k) || p (G k)) ->
  (forall k, In k l -> p (F k) && p (G k) = false) ->
  length (List.filter p (map H l))
  = (length (List.filter p (map F l)) + length (List.filter p (map G l)))%nat.
Proof.
  induction l as [|k l IH]; intros H1 H2; [reflexivity |].
  cbn [map List.filter].
  rewrite (H1 k) by (left; reflexivity).
  pose proof (H2 k (or_introl eq_refl)) as Hd.
  specialize (IH (fun x Hx => H1 x (or_intror Hx))
                 (fun x Hx => H2 x (or_intror Hx))).
  destruct (p (F k)), (p (G k)); cbn in Hd |- *; try discriminate; lia.
Qed.

Lemma saturate_u8_spec (x y : Z) :
  0 <= x <= 255 -> 0 <= y <= 255 ->
  saturate_u8 (x + y) = Z.min 255 (x + y).
Proof. intros Hx Hy. unfold saturate_u8. lia. Qed.

Lemma get_in_range (a : ndarray) (i j : nat) :
  wf a -> in_range a -> (i < nrows a)%nat -> (j < ncols a)%nat ->
  0 <= get a i j < modulus (ndtype a).
Proof.
  intros Hwf Hr Hi Hj. apply in_range_In; [exact Hr |].
  apply get_in_data; assumption.
Qed.

Lemma get_zeros (n i j : nat) :
  (i < n)%nat -> (j < n)%nat -> get (np_zeros_u8 n) i j = 0.
Proof. intros. unfold np_zeros_u8. rewrite get_tabulate; auto. Qed.

(** The image the merge loop builds from two layers. *)
Lemma merge_two_layers (s : state) (pa pb : string) (a b : ndarray) (n : nat) :
  fs s !! pa = Some (image_file a) -> fs s !! pb = Some (image_file b) ->
  ndtype a = uint8 -> ndtype b = uint8 ->
  nrows a = n -> ncols a = n -> nrows b = n -> ncols b = n ->
  merge_layers [pa; pb] (np_zeros_u8 n) s
  = (Ok (tabulate uint8 n n (fun i j =>
           saturate_u8
             (get (tabulate uint8 n n (fun i j =>
                     saturate_u8 (get (np_zeros_u8 n) i j + get a i j))) i j
              + get b i j))), s).
Proof.
  intros Ha Hb Ta Tb Ra Ca Rb Cb.
  subst n. unfold merge_layers. mrun. rewrite Ha. mrun.
  unfold to_grayscale. rewrite Ta. unfold cv2_add, same_shape. mrun.
  cbn [nrows ncols np_zeros_u8 tabulate]. rewrite Ca, !Nat.eqb_refl. mrun.
  rewrite Hb. mrun. rewrite Tb, Rb, Cb, !Nat.eqb_refl. reflexivity.
Qed.

Lemma count_sum (p : Z -> bool) (a b : ndarray) (n : nat) (h : Z -> Z -> Z) :
  wf a -> wf b ->
  nrows a = n -> ncols a = n -> nrows b = n -> ncols b = n ->
  (forall i j, (i < n)%nat -> (j < n)%nat ->
     p (h (get a i j) (get b i j)) = p (get a i j) || p (get b i j)) ->
  (forall i j, (i < n)%nat -> (j < n)%nat ->
     p (get a i j) && p (get b i j) = false) ->
  length (List.filter p
            (data (tabulate uint8 n n (fun i j => h (get a i j) (get b i j)))))
  = (length (List.filter p (data a)) + length (List.filter p (data b)))%nat.
Proof.
  intros Wa Wb Ra Ca Rb Cb H1 H2.
  rewrite (list_as_map_nth (data a)) at 1.
  rewrite (list_as_map_nth (data b)) at 1.
  rewrite Wa, Wb, Ra, Ca, Rb, Cb. unfold tabulate. cbn [data].
  apply count_pointwise.
  - intros k Hk. apply in_seq in Hk.
    destruct (div_mod_lt n n k) as [Hi Hj]; [lia |].
    rewrite <- (get_div_mod a k), <- (get_div_mod b k), Ca, Cb.
    apply H1; assumption.
  - intros k Hk. apply in_seq in Hk.
    destruct (div_mod_lt n n k) as [Hi Hj]; [lia |].
    rewrite <- (get_div_mod a k), <- (get_div_mod b k), Ca, Cb.
    apply H2; assumption.
Qed.

Lemma binary_get (a : ndarray) (i j : nat) :
  wf a -> binary_mask a -> (i < nrows a)%nat -> (j < ncols a)%nat ->
  get a i j = 0 \/ get a i j = 255.
Proof.
  intros Hwf Hb Hi Hj. unfold binary_mask in Hb.
  rewrite List.Forall_forall in Hb. apply Hb, get_in_data; assumption.
Qed.

(** C5. The merge loop of [create_background_textures], run on two 8-bit
    layers of the background size, returns their pixel-wise saturating
    sum: every sample is [min 255 (a + b)], so it is never below either
    input and is 255 where both inputs are 255; when no pixel is marked
    in both layers, the number of marked pixels of the result is the sum
    of the two inputs' numbers, for marked read as non-zero and, on masks
    of 0 and 255, as equal to 255. *)
Theorem compositing_saturates (s : state) (pa pb : string) (a b : ndarray)
    (n : nat) :
  fs s !! pa = Some (image_file a) -> fs s !! pb = Some (image_file b) ->
  ndtype a = uint8 -> ndtype b = uint8 ->
  wf a -> wf b -> in_range a -> in_range b ->
  nrows a = n -> ncols a = n -> nrows b = n -> ncols b = n ->
  exists img,
    merge_layers [pa; pb] (np_zeros_u8 n) s = (Ok img, s)
    /\ ndtype img = uint8 /\ nrows img = n /\ ncols img = n /\ wf img
    /\ (forall i j, (i < n)%nat -> (j < n)%nat ->
          get img i j = Z.min 255 (get a i j + get b i j)
          /\ get a i j <= get img i j <= 255
          /\ get b i j <= get img i j
          /\ (get a i j = 255 -> get b i j = 255 -> get img i j = 255))
    /\ ((forall i j, (i < n)%nat -> (j < n)%nat ->
           get a i j = 0 \/ get b i j = 0) ->
        count_marked img = (count_marked a + count_marked b)%nat
        /\ (binary_mask a -> binary_mask b ->
            count_255 img = (count_255 a + count_255 b)%nat)).
Proof.
  intros Ha Hb Ta Tb Wa Wb Ia Ib Ra Ca Rb Cb.
  eexists. split; [apply (merge_two_layers s pa pb a b n); assumption |].
  assert (forall i j, (i < n)%nat -> (j < n)%nat ->
            0 <= get a i j <= 255 /\ 0 <= get b i j <= 255) as Hrange.
  { intros i j Hi Hj.
    pose proof (get_in_range a i j Wa Ia) as H1.
    pose proof (get_in_range b i j Wb Ib) as H2.
    rewrite Ta, Ra, Ca in H1. rewrite Tb, Rb, Cb in H2.
    specialize (H1 Hi Hj). specialize (H2 Hi Hj).
    change (modulus uint8) with 256 in H1, H2. lia. }
  assert (forall i j, (i < n)%nat -> (j < n)%nat ->
            get (tabulate uint8 n n (fun i j =>
                   saturate_u8 (get (np_zeros_u8 n) i j + get a i j))) i j
            = get a i j) as Hfirst.
  { intros i j Hi Hj. rewrite get_tabulate, get_zeros by assumption.
    destruct (Hrange i j Hi Hj). unfold saturate_u8. lia. }
  split; [reflexivity |]. split; [reflexivity |]. split; [reflexivity |].
  split; [apply wf_tabulate |]. split.
  - intros i j Hi Hj. rewrite get_tabulate, Hfirst by assumption.
    destruct (Hrange i j Hi Hj). unfold saturate_u8. lia.
  - intros Hdisj.
    set (h := fun x y : Z => saturate_u8 (x + y)).
    assert (tabulate uint8 n n (fun i j =>
              saturate_u8
                (get (tabulate uint8 n n (fun i j =>
                        saturate_u8 (get (np_zeros_u8 n) i j + get a i j))) i j
                 + get b i j))
            = tabulate uint8 n n (fun i j => h (get a i j) (get b i j))) as ->.
    { unfold tabulate. f_equal. apply map_ext_in. intros k Hk.
      apply in_seq in Hk. destruct (div_mod_lt n n k) as [Hi Hj]; [lia |].
      fold (tabulate uint8 n n (fun i j =>
              saturate_u8 (get (np_zeros_u8 n) i j + get a i j))).
      rewrite Hfirst by assumption. reflexivity. }
    split.
    + unfold count_marked. apply count_sum; try assumption.
      * intros i j Hi Hj. destruct (Hrange i j Hi Hj).
        destruct (Hdisj i j Hi Hj) as [E | E]; rewrite E;
          unfold h, marked, saturate_u8; cbn [Z.eqb negb orb];
          rewrite ?orb_false_r; f_equal;
          destruct (Z.eqb_spec (get a i j) 0), (Z.eqb_spec (get b i j) 0);
          lia.
      * intros i j Hi Hj. unfold marked.
        destruct (Hdisj i j Hi Hj) as [E | E]; rewrite E; cbn;
          rewrite ?andb_false_r; reflexivity.
    + intros Ba Bb. unfold count_255. apply count_sum; try assumption.
      * intros i j Hi Hj.
        destruct (binary_get a i j Wa Ba) as [Ea | Ea]; [lia | lia | |];
          destruct (binary_get b i j Wb Bb) as [Eb | Eb]; try lia;
          rewrite Ea, Eb; reflexivity.
      * intros i j Hi Hj.
        destruct (Hdisj i j Hi Hj) as [E | E]; rewrite E; cbn;
          rewrite ?andb_false_r; reflexivity.
Qed.

(** ** The raster of the elevated water mesh *)

Lemma same_shape_true (a b : ndarray) :
  same_shape a b = true <-> nrows a = nrows b /\ ncols a = ncols b.
Proof. forget_externals.
  unfold same_shape. rewrite andb_true_iff, !Nat.eqb_eq. tauto.
Qed.

(** C7. The raster handed to the elevated water mesh: the samples of the
    elevation raster read from [not_substracted.png] are zeroed where the
    water mask is 0; the result keeps every positive sample of that
    zeroed raster and takes, everywhere else, the sample of its dilation
    by a 3 x 3 kernel over 10 iterations. *)
Theorem elevated_water_prefers_original (background_dem plane_water : ndarray) :
  nrows background_dem = nrows plane_water ->
  ncols background_dem = ncols plane_water ->
  exists zeroed elevated,
    zero_where_no_water background_dem plane_water = Some zeroed
    /\ elevated_water_raster background_dem plane_water = Some elevated
    /\ nrows elevated = nrows background_dem
    /\ ncols elevated = ncols background_dem
    /\ forall i j,
         (i < nrows background_dem)%nat -> (j < ncols background_dem)%nat ->
         get zeroed i j
         = (if get plane_water i j =? 0 then 0 else get background_dem i j)
         /\ get elevated i j
            = (if 0 <? get zeroed i j then get zeroed i j
               else get (cv2_dilate zeroed 3 10) i j)
         /\ (0 < get zeroed i j -> get elevated i j = get zeroed i j)
         /\ (get zeroed i j <= 0 ->
             get elevated i j = get (cv2_dilate zeroed 3 10) i j).
Proof.
  intros HR HC.
  assert (same_shape background_dem plane_water = true) as Hs
    by (apply same_shape_true; auto).
  unfold elevated_water_raster, zero_where_no_water. rewrite Hs.
  eexists. eexists. split; [reflexivity |]. split; [reflexivity |].
  split; [reflexivity |]. split; [reflexivity |].
  intros i j Hi Hj.
  assert (forall y, get (np_where_positive
            (tabulate (ndtype background_dem) (nrows background_dem)
               (ncols background_dem)
               (fun i j => if get plane_water i j =? 0 then 0
                           else get background_dem i j)) y) i j
          = (if 0 <? (if get plane_water i j =? 0 then 0
                      else get background_dem i j)
             then (if get plane_water i j =? 0 then 0
                   else get background_dem i j)
             else get y i j)) as Hw.
  { intros y. unfold np_where_positive. cbn [nrows ncols ndtype tabulate].
    fold (tabulate (ndtype background_dem) (nrows background_dem)
            (ncols background_dem)
            (fun i j => if get plane_water i j =? 0 then 0
                        else get background_dem i j)).
    rewrite get_tabulate by assumption.
    rewrite get_tabulate by assumption. reflexivity. }
  rewrite Hw, get_tabulate by assumption.
  split; [reflexivity |]. split; [reflexivity |]. split.
  - intros H. apply Z.ltb_lt in H. rewrite H. reflexivity.
  - intros H. apply Z.ltb_ge in H. rewrite H. reflexivity.
Qed.

(** ** Erosion and dilation *)

Lemma in_offsets (r : nat) (d : Z) :
  In d (offsets r) <-> - Z.of_nat r <= d <= Z.of_nat r.
Proof.
  unfold offsets. rewrite in_map_iff. split.
  - intros (k & <- & Hk). apply in_seq in Hk. lia.
  - intros H. exists (Z.to_nat (d + Z.of_nat r)). split; [lia |].
    apply in_seq. lia.
Qed.

Lemma zget_Some (a : ndarray) (x y v : Z) :
  zget a x y = Some v <->
  0 <= x < Z.of_nat (nrows a) /\ 0 <= y < Z.of_nat (ncols a)
  /\ v = get a (Z.to_nat x) (Z.to_nat y).
Proof.
  unfold zget.
  destruct (Z.leb_spec 0 x), (Z.ltb_spec x (Z.of_nat (nrows a))),
    (Z.leb_spec 0 y), (Z.ltb_spec y (Z.of_nat (ncols a)));
    cbn [andb]; split; try (intros [= <-]); try (intros (? & ? & ->));
    try lia; auto.
Qed.

Lemma in_window (a : ndarray) (r i j : nat) (v : Z) :
  In v (window a r i j) <->
  exists di dj,
    - Z.of_nat r <= di <= Z.of_nat r /\ - Z.of_nat r <= dj <= Z.of_nat r
    /\ zget a (Z.of_nat i + di) (Z.of_nat j + dj) = Some v.
Proof.
  unfold window. rewrite in_flat_map. split.
  - intros (di & Hdi & H). apply in_flat_map in H as (dj & Hdj & H).
    apply in_offsets in Hdi, Hdj. exists di, dj.
    destruct (zget a (Z.of_nat i + di) (Z.of_nat j + dj)) as [w|];
      [destruct H as [<- | []] | destruct H]. auto.
  - intros (di & dj & Hdi & Hdj & H). exists di.
    split; [apply in_offsets; exact Hdi |].
    apply in_flat_map. exists dj. split; [apply in_offsets; exact Hdj |].
    rewrite H. left. reflexivity.
Qed.

Lemma get_erode_once (r : nat) (a : ndarray) (i j : nat) :
  (i < nrows a)%nat -> (j < ncols a)%nat ->
  get (erode_once r a) i j = fold_left Z.min (window a r i j) (get a i j).
Proof. intros. unfold erode_once. rewrite get_tabulate; auto. Qed.

Lemma get_dilate_once (r : nat) (a : ndarray) (i j : nat) :
  (i < nrows a)%nat -> (j < ncols a)%nat ->
  get (dilate_once r a) i j = fold_left Z.max (window a r i j) (get a i j).
Proof. intros. unfold dilate_once. rewrite get_tabulate; auto. Qed.

(** An eroded sample is the least sample under the kernel. *)
Lemma erode_once_lower (r : nat) (a : ndarray) (i j : nat) (lo : Z) :
  (i < nrows a)%nat -> (j < ncols a)%nat ->
  (forall di dj,
     - Z.of_nat r <= di <= Z.of_nat r -> - Z.of_nat r <= dj <= Z.of_nat r ->
     0 <= Z.of_nat i + di < Z.of_nat (nrows a) ->
     0 <= Z.of_nat j + dj < Z.of_nat (ncols a) ->
     lo <= get a (Z.to_nat (Z.of_nat i + di)) (Z.to_nat (Z.of_nat j + dj))) ->
  lo <= get (erode_once r a) i j.
Proof.
  intros Hi Hj H. rewrite get_erode_once by assumption.
  assert (lo <= get a i j) as Hc.
  { specialize (H 0 0). rewrite !Z.add_0_r, !Nat2Z.id in H. apply H; lia. }
  destruct (fold_min_in (window a r i j) (get a i j)) as [-> | Hin];
    [exact Hc |].
  apply in_window in Hin as (di & dj & Hdi & Hdj & Hz).
  apply zget_Some in Hz as (Hx & Hy & ->). apply H; assumption.
Qed.

Lemma erode_once_upper (r : nat) (a : ndarray) (i j : nat) (di dj : Z) :
  (i < nrows a)%nat -> (j < ncols a)%nat ->
  - Z.of_nat r <= di <= Z.of_nat r -> - Z.of_nat r <= dj <= Z.of_nat r ->
  0 <= Z.of_nat i + di < Z.of_nat (nrows a) ->
  0 <= Z.of_nat j + dj < Z.of_nat (ncols a) ->
  get (erode_once r a) i j
  <= get a (Z.to_nat (Z.of_nat i + di)) (Z.to_nat (Z.of_nat j + dj)).
Proof.
  intros Hi Hj Hdi Hdj Hx Hy. rewrite get_erode_once by assumption.
  apply (fold_min_le (window a r i j) (get a i j)).
  apply in_window. exists di, dj. repeat split; try lia.
  apply zget_Some. repeat split; lia.
Qed.

Lemma get_np_eq_scalar (a : ndarray) (v : Z) (i j : nat) :
  (i < nrows a)%nat -> (j < ncols a)%nat ->
  get (np_eq_scalar a v) i j = (if get a i j =? v then 1 else 0).
Proof. intros. unfold np_eq_scalar. rewrite get_tabulate; auto. Qed.

Lemma water_mask_unfold (w : ndarray) :
  water_mask w = erode_once 1 (np_eq_scalar w 255).
Proof. reflexivity. Qed.

(** The eroded mask selects a pixel exactly when every sample of the
    water image under the 3 x 3 kernel, inside the image, is 255. *)
Lemma water_mask_selects (w : ndarray) (i j : nat) :
  (i < nrows w)%nat -> (j < ncols w)%nat ->
  (truthy (water_mask w) i j = true <->
   forall di dj, -1 <= di <= 1 -> -1 <= dj <= 1 ->
     0 <= Z.of_nat i + di < Z.of_nat (nrows w) ->
     0 <= Z.of_nat j + dj < Z.of_nat (ncols w) ->
     get w (Z.to_nat (Z.of_nat i + di)) (Z.to_nat (Z.of_nat j + dj)) = 255).
Proof.
  intros Hi Hj. rewrite water_mask_unfold. unfold truthy.
  rewrite negb_true_iff, Z.eqb_neq. split.
  - intros Hne di dj Hdi Hdj Hx Hy.
    pose proof (erode_once_upper 1 (np_eq_scalar w 255) i j di dj) as Hu.
    cbn [nrows ncols np_eq_scalar tabulate] in Hu.
    specialize (Hu Hi Hj Hdi Hdj Hx Hy).
    rewrite get_np_eq_scalar in Hu by lia.
    pose proof (erode_once_lower 1 (np_eq_scalar w 255) i j 0) as Hl.
    cbn [nrows ncols np_eq_scalar tabulate] in Hl.
    assert (0 <= get (erode_once 1 (np_eq_scalar w 255)) i j) as H0.
    { apply Hl; try assumption. intros ei ej _ _ Hex Hey.
      rewrite get_np_eq_scalar by lia.
      match goal with |- context [if ?c then _ else _] => destruct c end;
        lia. }
    revert Hu.
    destruct (Z.eqb_spec
                (get w (Z.to_nat (Z.of_nat i + di)) (Z.to_nat (Z.of_nat j + dj)))
                255); [intros _; assumption | lia].
  - intros Hall.
    pose proof (erode_once_lower 1 (np_eq_scalar w 255) i j 1) as Hl.
    cbn [nrows ncols np_eq_scalar tabulate] in Hl.
    assert (1 <= get (erode_once 1 (np_eq_scalar w 255)) i j); [| lia].
    apply Hl; try assumption. intros di dj Hdi Hdj Hx Hy.
    rewrite get_np_eq_scalar by lia.
    rewrite (Hall di dj Hdi Hdj Hx Hy). cbn. lia.
Qed.

(** ** Depth subtraction *)

Lemma subtract_depth_spec (dem_image mask : ndarray) (depth : Z) :
  nrows dem_image = nrows mask -> ncols dem_image = ncols mask ->
  exists r,
    subtract_depth dem_image mask depth = Some r
    /\ ndtype r = ndtype dem_image
    /\ nrows r = nrows dem_image /\ ncols r = ncols dem_image /\ wf r
    /\ forall i j, (i < nrows dem_image)%nat -> (j < ncols dem_image)%nat ->
         get r i j
         = (if truthy mask i j
            then wrap (ndtype dem_image) (get dem_image i j - depth)
            else get dem_image i j).
Proof.
  intros HR HC. unfold subtract_depth.
  assert (same_shape dem_image mask = true) as ->
    by (apply same_shape_true; auto).
  eexists. split; [reflexivity |]. repeat split.
  - apply wf_tabulate.
  - intros i j Hi Hj. rewrite get_tabulate by assumption. reflexivity.
Qed.

Lemma ndtype_tabulate t R C f : ndtype (tabulate t R C f) = t.
Proof. reflexivity. Qed.

Lemma nrows_tabulate t R C f : nrows (tabulate t R C f) = R.
Proof. reflexivity. Qed.

Lemma ncols_tabulate t R C f : ncols (tabulate t R C f) = C.
Proof. reflexivity. Qed.

Lemma water_mask_rows (w : ndarray) : nrows (water_mask w) = nrows w.
Proof. reflexivity. Qed.

Lemma water_mask_cols (w : ndarray) : ncols (water_mask w) = ncols w.
Proof. reflexivity. Qed.

Lemma in_square_true (lo hi i j : nat) :
  in_square lo hi i j = true
  <-> (lo <= i < hi)%nat /\ (lo <= j < hi)%nat.
Proof.
  unfold in_square.
  rewrite !andb_true_iff, !Nat.leb_le, !Nat.ltb_lt. lia.
Qed.

Lemma get_square_mask (i j : nat) :
  (i < 1025)%nat -> (j < 1025)%nat ->
  get square_mask i j = (if in_square 462 562 i j then 255 else 0).
Proof. intros. unfold square_mask. rewrite get_tabulate; auto. Qed.

Lemma square_mask_eroded (i j : nat) :
  (i < 1025)%nat -> (j < 1025)%nat ->
  truthy (water_mask square_mask) i j = in_square 463 561 i j.
Proof.
  intros Hi Hj.
  pose proof (water_mask_selects square_mask i j) as Hsel.
  unfold square_mask in Hsel at 1 2 4 5.
  rewrite nrows_tabulate, ncols_tabulate in Hsel.
  specialize (Hsel Hi Hj).
  destruct (in_square 463 561 i j) eqn:Hin.
  - apply in_square_true in Hin. apply Hsel.
    intros di dj Hdi Hdj Hx Hy. rewrite get_square_mask by lia.
    assert (in_square 462 562 (Z.to_nat (Z.of_nat i + di))
              (Z.to_nat (Z.of_nat j + dj)) = true) as ->
      by (apply in_square_true; lia).
    reflexivity.
  - destruct (truthy (water_mask square_mask) i j); [| reflexivity].
    exfalso. destruct Hsel as [Hall _]. specialize (Hall eq_refl).
    assert (in_square 463 561 i j <> true) as Hout by congruence.
    rewrite in_square_true in Hout.
    specialize (Hall (outward i) (outward j)).
    unfold outward in Hall.
    destruct (Nat.eqb_spec i 462), (Nat.eqb_spec i 561),
      (Nat.eqb_spec j 462), (Nat.eqb_spec j 561); try lia;
      (rewrite get_square_mask in Hall by lia;
       match type of Hall with
       | context [in_square 462 562 ?x ?y] =>
         assert (in_square 462 562 x y = false) as E
           by (apply not_true_is_false; rewrite in_square_true; lia);
         rewrite E in Hall
       end;
       assert (0 = 255) by (apply Hall; lia); lia).
Qed.

(** C6. On the flat 1025 x 1025 raster of value 1000, with the water
    mask 255 on the centred 100 x 100 square and a depth of 50, the
    depth subtraction returns a 16-bit 1025 x 1025 raster whose samples
    are 950 on the square without its one-pixel boundary ring, and 1000
    on the ring and outside the square. *)
Theorem flat_scenario (i j : nat) :
  (i < 1025)%nat -> (j < 1025)%nat ->
  exists r,
    subtract_depth flat_raster (water_mask square_mask) 50 = Some r
    /\ ndtype r = uint16 /\ nrows r = 1025%nat /\ ncols r = 1025%nat
    /\ get r i j = (if in_square 463 561 i j then 950 else 1000)
    /\ (in_square 462 562 i j = true -> in_square 463 561 i j = false ->
        get r i j = 1000)
    /\ (in_square 462 562 i j = false -> get r i j = 1000).
Proof.
  intros Hi Hj.
  destruct (subtract_depth_spec flat_raster (water_mask square_mask) 50)
    as (r & Hr & Ht & HR & HC & _ & Hget).
  { rewrite water_mask_rows. unfold flat_raster, square_mask.
    rewrite !nrows_tabulate. reflexivity. }
  { rewrite water_mask_cols. unfold flat_raster, square_mask.
    rewrite !ncols_tabulate. reflexivity. }
  exists r. split; [exact Hr |].
  unfold flat_raster in Ht, HR, HC, Hget at 1 2 3.
  rewrite ndtype_tabulate in Ht, Hget.
  rewrite nrows_tabulate in HR, Hget. rewrite ncols_tabulate in HC, Hget.
  fold flat_raster in Hget.
  split; [exact Ht |]. split; [exact HR |]. split; [exact HC |].
  assert (get r i j = (if in_square 463 561 i j then 950 else 1000)) as E.
  { rewrite (Hget i j Hi Hj), square_mask_eroded by assumption.
    unfold flat_raster. rewrite get_tabulate by assumption.
    destruct (in_square 463 561 i j); reflexivity. }
  split; [exact E |]. split.
  - intros _ H. rewrite E, H. reflexivity.
  - intros H. rewrite E.
    destruct (in_square 463 561 i j) eqn:Hin; [| reflexivity].
    apply in_square_true in Hin.
    apply not_true_iff_false in H. rewrite in_square_true in H. lia.
Qed.

(** ** Runs of the methods *)

Lemma nonempty_path_Some (p : string) :
  p <> "" -> nonempty_path (Some p) = Some p.
Proof.
  intros H. unfold nonempty_path.
  destruct (String.eqb_spec p ""); [contradiction | reflexivity].
Qed.

Lemma is_empty_false (a : ndarray) :
  is_empty a = false <-> (0 < nrows a)%nat /\ (0 < ncols a)%nat.
Proof.
  unfold is_empty. rewrite orb_false_iff, !Nat.eqb_neq. lia.
Qed.

(** A run of [subtraction] that finds the water image and the elevation
    raster, of one shape. *)
Lemma subtraction_run (self : config) (s : state) (wp : string)
    (water dem : ndarray) :
  water_resources_path s = Some wp -> wp <> "" ->
  fs s !! wp = Some (image_file water) ->
  fs s !! output_path self = Some (image_file dem) ->
  nrows dem = nrows water -> ncols dem = ncols water ->
  (0 < nrows dem)%nat -> (0 < ncols dem)%nat ->
  exists r,
    subtract_depth dem (water_mask water) (water_depth self) = Some r
    /\ subtraction self s
       = (Ok tt,
          mk_state (<[output_path self := image_file r]> (fs s))
            (journal s ++ [Imwrite (output_path self)]
             ++ [Log DEBUG msg_subtracted [a_str (output_path self)]])
            (water_resources_path s) (stl_preview_path s)).
Proof.
  intros Hp Hne Hw Hd HR HC HR0 HC0.
  destruct (subtract_depth_spec dem (water_mask water) (water_depth self))
    as (r & Hr & _ & HRr & HCr & _ & _);
    [rewrite water_mask_rows; exact HR | rewrite water_mask_cols; exact HC |].
  exists r. split; [exact Hr |].
  unfold subtraction. mrun. rewrite Hp, (nonempty_path_Some wp Hne). mrun.
  rewrite Hw. mrun. rewrite Hd. mrun. rewrite Hr. mrun.
  assert (is_empty r = false) as ->
    by (apply is_empty_false; rewrite HRr, HCr; auto).
  mrun. rewrite ?Hp, <- ?app_assoc. reflexivity.
Qed.

(** C2, as the code has it.  With the water image and the elevation
    raster present and of one shape, and a depth [d] with
    [0 < d < 2 ^ bits], [subtraction] returns without raising and writes
    a raster of the same dtype in which every pixel selected by the
    eroded mask holds [(v - d) mod 2 ^ bits]: [v - d] when [d <= v], and
    the wrapped [v - d + 2 ^ bits], which is not 0, when [v < d]; the
    other pixels keep their sample. *)
Theorem subtraction_wraps (self : config) (s : state) (wp : string)
    (water dem : ndarray) :
  water_resources_path s = Some wp -> wp <> "" ->
  fs s !! wp = Some (image_file water) ->
  fs s !! output_path self = Some (image_file dem) ->
  nrows dem = nrows water -> ncols dem = ncols water ->
  (0 < nrows dem)%nat -> (0 < ncols dem)%nat ->
  wf dem -> in_range dem ->
  0 < water_depth self < modulus (ndtype dem) ->
  exists r s',
    subtraction self s = (Ok tt, s')
    /\ fs s' !! output_path self = Some (image_file r)
    /\ ndtype r = ndtype dem
    /\ forall i j, (i < nrows dem)%nat -> (j < ncols dem)%nat ->
         (truthy (water_mask water) i j = true ->
          get r i j = (get dem i j - water_depth self) mod modulus (ndtype dem)
          /\ (water_depth self <= get dem i j ->
              get r i j = get dem i j - water_depth self)
          /\ (get dem i j < water_depth self ->
              get r i j
              = get dem i j - water_depth self + modulus (ndtype dem)
              /\ get r i j <> 0))
         /\ (truthy (water_mask water) i j = false ->
             get r i j = get dem i j).
Proof.
  intros Hp Hne Hw Hd HR HC HR0 HC0 Hwf Hrange Hdepth.
  destruct (subtraction_run self s wp water dem)
    as (r & Hr & Hrun); try assumption.
  destruct (subtract_depth_spec dem (water_mask water) (water_depth self))
    as (r' & Hr' & Ht & _ & _ & _ & Hget);
    [rewrite water_mask_rows; exact HR | rewrite water_mask_cols; exact HC |].
  rewrite Hr in Hr'. injection Hr' as <-.
  exists r. eexists. split; [exact Hrun |]. cbn [fs].
  split; [apply lookup_insert_eq |]. split; [exact Ht |].
  intros i j Hi Hj. rewrite (Hget i j Hi Hj).
  pose proof (get_in_range dem i j Hwf Hrange Hi Hj) as Hv.
  split.
  - intros ->. unfold wrap. split; [reflexivity |]. split.
    + intros H. apply Z.mod_small. lia.
    + intros H.
      assert ((get dem i j - water_depth self) mod modulus (ndtype dem)
              = get dem i j - water_depth self + modulus (ndtype dem)) as ->.
      { symmetry. apply (Z.mod_unique _ _ (-1)); lia. }
      split; [reflexivity | lia].
  - intros ->. reflexivity.
Qed.

Lemma cut_out_np_return (image cut : ndarray) (half_size : nat) :
  cut_out_np image half_size return_cutout = Some cut ->
  cut = tabulate (ndtype image) (2 * half_size) (2 * half_size)
          (fun i j => get image (nrows image / 2 - half_size + i)
                                (ncols image / 2 - half_size + j))
  /\ (half_size <= nrows image / 2)%nat
  /\ (nrows image / 2 + half_size <= nrows image)%nat
  /\ (half_size <= ncols image / 2)%nat
  /\ (ncols image / 2 + half_size <= ncols image)%nat.
Proof.
  unfold cut_out_np.
  destruct (Nat.leb_spec half_size (nrows image / 2)),
    (Nat.leb_spec (nrows image / 2 + half_size) (nrows image)),
    (Nat.leb_spec half_size (ncols image / 2)),
    (Nat.leb_spec (ncols image / 2 + half_size) (ncols image));
    cbn [andb]; try discriminate.
  intros [= <-]. auto.
Qed.

(** C8. [save_map_dem] without [save_path] reads the raster, takes the
    centred cutout of half size [map_size // 2], resizes it with linear
    interpolation to [(map_size + 1) x (map_size + 1)], removes the file
    at the game's DEM path when there is one and then writes the resized
    raster there, returning that path. *)
Theorem save_map_dem_main (self : config) (s : state) (path : string)
    (dem cut : ndarray) :
  fs s !! path = Some (image_file dem) ->
  cut_out_np dem (map_size self / 2) return_cutout = Some cut ->
  (2 <= map_size self)%nat ->
  let size := (map_size self + 1)%nat in
  let main := dem_file_path self in
  let resized := tabulate (ndtype cut) size size (inter_linear cut size size) in
  save_map_dem self path None s
  = (Ok main,
     mk_state (<[main := image_file resized]> (fs s))
       (journal s
        ++ match fs s !! main with Some _ => [Remove main] | None => [] end
        ++ [Imwrite main; Log DEBUG msg_cutout_saved [a_str main]])
       (water_resources_path s) (stl_preview_path s))
  /\ nrows resized = size /\ ncols resized = size /\ wf resized
  /\ nrows cut = (2 * (map_size self / 2))%nat
  /\ ncols cut = (2 * (map_size self / 2))%nat
  /\ forall i j,
       (i < 2 * (map_size self / 2))%nat ->
       (j < 2 * (map_size self / 2))%nat ->
       get cut i j = get dem (nrows dem / 2 - map_size self / 2 + i)
                             (ncols dem / 2 - map_size self / 2 + j).
Proof.
  intros Hf Hcut Hms size main resized.
  pose proof (cut_out_np_return _ _ _ Hcut) as (Ecut & _).
  assert (0 < map_size self / 2)%nat as Hh.
  { apply Nat.div_str_pos. lia. }
  assert (is_empty cut = false) as Hne.
  { apply is_empty_false. rewrite Ecut. cbn [nrows ncols tabulate]. lia. }
  assert (is_empty resized = false) as Hne'.
  { apply is_empty_false. cbn [nrows ncols tabulate resized]. unfold size. lia. }
  split; [| split; [reflexivity | split; [reflexivity | split;
    [apply wf_tabulate | split; [| split]]]]].
  - unfold save_map_dem. mrun. rewrite Hf. mrun. rewrite Hcut. mrun.
    cbn [nonempty_path]. fold main.
    destruct (fs s !! main) as [old|] eqn:Hold; mrun;
      unfold cv2_resize_to; rewrite Hne;
      replace (map_size self + 1 =? 0)%nat with false
        by (symmetry; apply Nat.eqb_neq; lia);
      mrun; fold size; fold resized; rewrite Hne'; mrun.
    + rewrite insert_delete_eq, <- !app_assoc. reflexivity.
    + rewrite <- !app_assoc. reflexivity.
  - rewrite Ecut. reflexivity.
  - rewrite Ecut. reflexivity.
  - intros i j Hi Hj. rewrite Ecut, get_tabulate by assumption. reflexivity.
Qed.

(** ** What every run preserves *)

Section Stable.

Variable R : state -> state -> Prop.
Hypothesis R_refl : forall s, R s s.
Hypothesis R_trans : forall s1 s2 s3, R s1 s2 -> R s2 s3 -> R s1 s3.
Hypothesis R_fs : forall s f,
  R s (mk_state f (journal s) (water_resources_path s) (stl_preview_path s)).
Hypothesis R_stl : forall s p,
  R s (mk_state (fs s) (journal s) (water_resources_path s) p).

Lemma stable_ret {A} (a : A) : stable R (ret a).
Proof using R_refl. intros s. apply R_refl. Qed.

Lemma stable_raise {A} (e : exn) : stable R (@raise A e).
Proof using R_refl. intros s. apply R_refl. Qed.

Lemma stable_bind {A B} (m : M A) (k : A -> M B) :
  stable R m -> (forall a, stable R (k a)) -> stable R (bind m k).
Proof using R_trans.
  intros Hm Hk s. unfold bind. specialize (Hm s).
  destruct (m s) as [[a | e] s1]; cbn [snd] in *.
  - apply (R_trans _ s1); [exact Hm | apply Hk].
  - exact Hm.
Qed.

Lemma stable_require {A} (e : exn) (o : option A) : stable R (require e o).
Proof using R_refl. destruct o; [apply stable_ret | apply stable_raise]. Qed.

Lemma stable_get_fs : stable R get_fs.
Proof using R_refl. intros s. apply R_refl. Qed.

Lemma stable_put_fs f : stable R (put_fs f).
Proof using R_fs. intros s. apply R_fs. Qed.

Lemma stable_get_wrp : stable R get_water_resources_path.
Proof using R_refl. intros s. apply R_refl. Qed.

Lemma stable_set_stl p : stable R (set_stl_preview_path p).
Proof using R_stl. intros s. apply R_stl. Qed.

Lemma stable_isfile p : stable R (isfile p).
Proof using R_refl. intros s. apply R_refl. Qed.

Lemma stable_imread p : stable R (imread p).
Proof using R_refl. intros s. apply R_refl. Qed.

Lemma stable_imread_grayscale p : stable R (imread_grayscale p).
Proof using R_refl. intros s. apply R_refl. Qed.

Lemma stable_run_dem :
  (forall s, R s (journaled s [External "dem"])) -> stable R run_dem.
Proof using R_refl R_trans R_fs.
  intros He s. unfold run_dem.
  destruct (dem_process (fs s)) as [f | e]; cbn [snd]; [| apply R_refl].
  apply (R_trans _ (journaled s [External "dem"])); [apply He |].
  apply (R_fs (journaled s [External "dem"]) f).
Qed.

Lemma stable_run_texture layers :
  (forall s, R s (journaled s [External "texture"])) ->
  stable R (run_texture layers).
Proof using R_refl R_trans R_fs.
  intros He s. unfold run_texture.
  destruct (texture_process layers (fs s)) as [[f paths] | e]; cbn [snd];
    [| apply R_refl].
  apply (R_trans _ (journaled s [External "texture"])); [apply He |].
  apply (R_fs (journaled s [External "texture"]) f).
Qed.

End Stable.

Lemma stable_emit (R : state -> state -> Prop) (e : event) :
  (forall s, R s (journaled s [e])) -> stable R (emit e).
Proof. intros H s. apply H. Qed.

Lemma stable_set_wrp (R : state -> state -> Prop) (p : option string) :
  (forall s, R s (mk_state (fs s) (journal s) p (stl_preview_path s))) ->
  stable R (set_water_resources_path p).
Proof. intros H s. apply H. Qed.

(** Decomposes a method into the primitives of the monad. *)
Ltac stable_with Hrefl Htrans Hfs Hstl Hemit :=
  repeat match goal with
  | |- stable _ (bind _ _) => apply (stable_bind _ Htrans); [| intro]
  | |- stable _ (ret _) => apply (stable_ret _ Hrefl)
  | |- stable _ (raise _) => apply (stable_raise _ Hrefl)
  | |- stable _ (require _ _) => apply (stable_require _ Hrefl)
  | |- stable _ get_fs => apply (stable_get_fs _ Hrefl)
  | |- stable _ get_water_resources_path => apply (stable_get_wrp _ Hrefl)
  | |- stable _ (put_fs _) => apply (stable_put_fs _ Hfs)
  | |- stable _ (set_stl_preview_path _) => apply (stable_set_stl _ Hstl)
  | |- stable _ (isfile _) => apply (stable_isfile _ Hrefl)
  | |- stable _ (imread _) => apply (stable_imread _ Hrefl)
  | |- stable _ (imread_grayscale _) => apply (stable_imread_grayscale _ Hrefl)
  | |- stable _ (emit _) => apply stable_emit; intro; apply Hemit; reflexivity
  | |- stable _ (logger _ _ _) => unfold logger
  | |- stable _ (imwrite _ _) => unfold imwrite
  | |- stable _ (copyfile _ _) => unfold copyfile
  | |- stable _ (remove_if_present _) => unfold remove_if_present
  | |- stable _ (export _ _) => unfold export
  | |- stable _ (cv2_resize_to _ _) => unfold cv2_resize_to
  | |- stable _ (if ?b then _ else _) => destruct b
  | |- stable _ (match ?x with _ => _ end) => destruct x
  end.

(** *** The water mask attribute *)

Lemma kwp_refl s : keeps_water_path s s.
Proof. reflexivity. Qed.

Lemma kwp_trans s1 s2 s3 :
  keeps_water_path s1 s2 -> keeps_water_path s2 s3 -> keeps_water_path s1 s3.
Proof. unfold keeps_water_path. congruence. Qed.

Lemma kwp_fs s f :
  keeps_water_path s
    (mk_state f (journal s) (water_resources_path s) (stl_preview_path s)).
Proof. reflexivity. Qed.

Lemma kwp_stl s p :
  keeps_water_path s (mk_state (fs s) (journal s) (water_resources_path s) p).
Proof. reflexivity. Qed.

Lemma kwp_emit (e : event) (_ : true = true) s :
  keeps_water_path s (journaled s [e]).
Proof. reflexivity. Qed.

Ltac keeps_water :=
  stable_with kwp_refl kwp_trans kwp_fs kwp_stl (fun e => kwp_emit e).

Lemma kwp_mesh_to_stl self m : stable keeps_water_path (mesh_to_stl self m).
Proof. unfold mesh_to_stl. keeps_water. Qed.

Lemma kwp_plane_from_np self dem_data save_path iz preview rc :
  stable keeps_water_path (plane_from_np self dem_data save_path iz preview rc).
Proof.
  unfold plane_from_np. keeps_water; apply kwp_mesh_to_stl.
Qed.

Lemma kwp_generate_obj_files self :
  stable keeps_water_path (generate_obj_files self).
Proof. unfold generate_obj_files. keeps_water. apply kwp_plane_from_np. Qed.

Lemma kwp_save_map_dem self path save_path :
  stable keeps_water_path (save_map_dem self path save_path).
Proof. unfold save_map_dem. keeps_water. Qed.

Lemma kwp_make_copy self path name :
  stable keeps_water_path (make_copy self path name).
Proof. unfold make_copy. keeps_water. Qed.

Lemma kwp_subtraction self : stable keeps_water_path (subtraction self).
Proof. unfold subtraction. keeps_water. Qed.

Lemma kwp_generate_water self :
  stable keeps_water_path (generate_water_resources_obj self).
Proof.
  unfold generate_water_resources_obj. keeps_water; apply kwp_plane_from_np.
Qed.

Lemma kwp_run_dem : stable keeps_water_path run_dem.
Proof.
  apply (stable_run_dem _ kwp_refl kwp_trans kwp_fs). intro. reflexivity.
Qed.

(** *** Missing inputs *)

Lemma journaled_nil (s : state) : journaled s [] = s.
Proof. destruct s. unfold journaled. cbn. rewrite app_nil_r. reflexivity. Qed.

Lemma lookup_None_isfile (f : gmap string file) (p : string) :
  f !! p = None -> bool_decide (is_Some (f !! p)) = false.
Proof.
  intros H. apply bool_decide_eq_false. rewrite H. intros [x Hx]. discriminate.
Qed.

Lemma lookup_Some_isfile (f : gmap string file) (p : string) (x : file) :
  f !! p = Some x -> bool_decide (is_Some (f !! p)) = true.
Proof. intros H. apply bool_decide_eq_true. rewrite H. eauto. Qed.

Lemma no_background_layers (layers : list layer) :
  forallb (fun l => negb (layer_background l)) layers = true ->
  List.filter layer_background layers = [].
Proof.
  induction layers as [|l layers IH]; [reflexivity |].
  cbn. rewrite andb_true_iff, negb_true_iff. intros [-> H]. auto.
Qed.

Lemma generate_obj_files_missing (self : config) (s : state) :
  fs s !! dem_path self = None ->
  generate_obj_files self s
  = (Ok tt, journaled s
       [Log WARNING "DEM file not found, generation will be stopped: %s"
          [a_str (dem_path self)]]).
Proof.
  intros H. unfold generate_obj_files. mrun.
  rewrite (lookup_None_isfile _ _ H). mrun. reflexivity.
Qed.

Lemma textures_schema_missing (self : config) (s : state) :
  fs s !! texture_schema self = None ->
  create_background_textures self s
  = (Ok tt, journaled s
       [Log WARNING "Texture schema file not found: %s"
          [a_str (texture_schema self)]]).
Proof.
  intros H. unfold create_background_textures. mrun.
  rewrite (lookup_None_isfile _ _ H). mrun. reflexivity.
Qed.

Lemma textures_no_background (self : config) (s : state) (layers : list layer) :
  fs s !! texture_schema self = Some (json_file layers) ->
  forallb (fun l => negb (layer_background l)) layers = true ->
  create_background_textures self s = (Ok tt, s).
Proof.
  intros H Hl. unfold create_background_textures. mrun.
  rewrite (lookup_Some_isfile _ _ _ H). mrun. rewrite H. mrun.
  rewrite (no_background_layers _ Hl). reflexivity.
Qed.

Lemma subtraction_no_water (self : config) (s : state) :
  nonempty_path (water_resources_path s) = None ->
  subtraction self s = (Ok tt, journaled s [Log WARNING msg_no_water []]).
Proof. intros H. unfold subtraction. mrun. rewrite H. mrun. reflexivity. Qed.

Lemma generate_water_no_water (self : config) (s : state) :
  nonempty_path (water_resources_path s) = None ->
  generate_water_resources_obj self s
  = (Ok tt, journaled s [Log WARNING msg_no_water []]).
Proof.
  intros H. unfold generate_water_resources_obj. mrun. rewrite H. mrun.
  reflexivity.
Qed.

(** Every step of [process] after the compositor keeps the attribute. *)
Lemma process_keeps_water_path (self : config) (s : state) (d : list event) :
  create_background_textures self s = (Ok tt, journaled s d) ->
  water_resources_path (snd (process self s)) = water_resources_path s.
Proof.
  intros H. unfold process. unfold bind at 1. rewrite H.
  match goal with
  | |- water_resources_path (snd (?m (journaled s d))) = _ =>
    assert (stable keeps_water_path m) as Hst
  end.
  { keeps_water;
      first [apply kwp_run_dem | apply kwp_save_map_dem | apply kwp_subtraction
            | apply kwp_make_copy | apply kwp_generate_obj_files
            | apply kwp_generate_water]. }
  apply (Hst (journaled s d)).
Qed.

Lemma preprocess_clears_water_path (self : config) (s : state) :
  water_resources_path (snd (preprocess self s)) = None.
Proof.
  unfold preprocess. unfold bind at 1. cbn [set_stl_preview_path].
  unfold bind at 1. cbn [set_water_resources_path].
  match goal with
  | |- water_resources_path (snd (?m ?s0)) = _ =>
    assert (stable keeps_water_path m) as Hst;
      [unfold validate_np_for_mesh; keeps_water |];
      rewrite (Hst s0)
  end.
  reflexivity.
Qed.

(** C9. Missing optional inputs are skipped without an exception.  When
    the elevation raster file is absent, [generate_obj_files] returns
    normally with one warning and the files untouched.  When the texture
    schema file is absent, or none of its layers has [background] set,
    [create_background_textures] returns normally, at most with a warning,
    writes no file and leaves the water mask attribute unset, as
    [preprocess] left it; it then stays unset to the end of [process], and
    with it unset [subtraction] and [generate_water_resources_obj] return
    normally with one warning and the files untouched. *)
Theorem missing_inputs_are_skipped (self : config) (s1 s2 s3 : state) :
  fs s1 !! dem_path self = None ->
  (fs s2 !! texture_schema self = None
   \/ exists layers,
        fs s2 !! texture_schema self = Some (json_file layers)
        /\ forallb (fun l => negb (layer_background l)) layers = true) ->
  water_resources_path s2 = None ->
  water_resources_path s3 = None ->
  generate_obj_files self s1
  = (Ok tt, journaled s1
       [Log WARNING "DEM file not found, generation will be stopped: %s"
          [a_str (dem_path self)]])
  /\ (exists d,
        create_background_textures self s2 = (Ok tt, journaled s2 d)
        /\ forallb is_warning d = true)
  /\ water_resources_path (snd (process self s2)) = None
  /\ subtraction self s3 = (Ok tt, journaled s3 [Log WARNING msg_no_water []])
  /\ generate_water_resources_obj self s3
     = (Ok tt, journaled s3 [Log WARNING msg_no_water []])
  /\ (forall s, water_resources_path (snd (preprocess self s)) = None).
Proof.
  intros Hdem Hschema Hw2 Hw3.
  assert (exists d,
            create_background_textures self s2 = (Ok tt, journaled s2 d)
            /\ forallb is_warning d = true) as (d & Hd & Hwarn).
  { destruct Hschema as [H | (layers & H & Hl)].
    - eexists. split; [apply textures_schema_missing; exact H | reflexivity].
    - exists []. rewrite journaled_nil.
      split; [apply (textures_no_background self s2 layers); assumption |].
      reflexivity. }
  split; [apply generate_obj_files_missing; exact Hdem |].
  split; [exists d; auto |].
  split; [rewrite (process_keeps_water_path self s2 d Hd); exact Hw2 |].
  split; [apply subtraction_no_water; rewrite Hw3; reflexivity |].
  split; [apply generate_water_no_water; rewrite Hw3; reflexivity |].
  apply preprocess_clears_water_path.
Qed.

(** *** Export and preview *)

Lemma scale_back (sigma : Z) :
  sigma <> 0 -> (1 / (1 / inject_Z sigma))%Q = inject_Z sigma.
Proof. destruct sigma; [congruence | reflexivity | reflexivity]. Qed.

Lemma length_faces_scaled self g :
  length (faces (scaled_mesh self g)) = length (gm_faces g).
Proof. reflexivity. Qed.

(** A run of [plane_from_np] on a raster that can be triangulated. *)
Lemma plane_from_np_run (self : config) (s : state) (dem_data grid : ndarray)
    (g : grid_mesh) (save_path : string) (iz rc : bool) :
  resize_factor self <> 0 ->
  mesh_grid self dem_data rc = Some grid ->
  triangulate grid iz = Some g ->
  (apply_decimation self = true -> gm_faces g <> []) ->
  exists d,
    forallb is_log d = true
    /\ forall create_preview,
         plane_from_np self dem_data save_path iz create_preview rc s
         = (Ok tt,
            if create_preview
            then mk_state
                   (<[preview_path self
                      := mesh_file (preview_mesh (exported_mesh self g))]>
                      (<[save_path := mesh_file (exported_mesh self g)]> (fs s)))
                   (journal s ++ d
                    ++ [Export save_path;
                        Log DEBUG "Obj file saved: %s" [a_str save_path];
                        Export (preview_path self);
                        Log DEBUG "STL file saved: %s" [a_str (preview_path self)]])
                   (water_resources_path s) (Some (preview_path self))
            else mk_state
                   (<[save_path := mesh_file (exported_mesh self g)]> (fs s))
                   (journal s ++ d
                    ++ [Export save_path;
                        Log DEBUG "Obj file saved: %s" [a_str save_path]])
                   (water_resources_path s) (stl_preview_path s)).
Proof.
  intros Hsigma Hgrid Htri Hdec.
  unfold plane_from_np, mesh_grid in *.
  apply Z.eqb_neq in Hsigma as Hz. rewrite Hz.
  exists (plane_log self grid g rc). split.
  { unfold plane_log. destruct rc, (apply_decimation self); reflexivity. }
  intros create_preview. unfold plane_log, exported_mesh, scaled_mesh.
  destruct rc; [| injection Hgrid as <-];
    mrun; rewrite ?Hgrid; mrun; rewrite Htri; mrun;
    rewrite !(scale_back _ Hsigma);
    (destruct (apply_decimation self) eqn:Hd; mrun;
     [cbn [faces apply_scale map_vertices Trimesh];
      destruct (gm_faces g) as [|f0 fs0] eqn:Hf;
        [exfalso; apply Hdec; reflexivity |];
      cbn [length Nat.eqb]; mrun |]);
    destruct create_preview;
    unfold mesh_to_stl, preview_mesh, preview_path; mrun;
    rewrite <- ?app_assoc; cbn [app]; reflexivity.
Qed.

(** C10. [plane_from_np] exports the mesh to [save_path] before any
    preview processing.  With or without [create_preview] the file at
    [save_path] is the same mesh: the grid mesh rotated, with coordinates
    scaled by [sigma, sigma, z_scaling_factor] ([sigma] the configured
    resize factor), decimated when decimation is configured.  The halving
    of the coordinates and the decimation to 1/64 of the faces reach only
    the STL preview, exported afterwards to its own path and only when
    [create_preview] is set. *)
Theorem export_precedes_preview (self : config) (s : state)
    (dem_data grid : ndarray) (g : grid_mesh) (save_path : string)
    (iz rc : bool) :
  resize_factor self <> 0 ->
  mesh_grid self dem_data rc = Some grid ->
  triangulate grid iz = Some g ->
  (apply_decimation self = true -> gm_faces g <> []) ->
  save_path <> preview_path self ->
  let plain := plane_from_np self dem_data save_path iz false rc s in
  let previewed := plane_from_np self dem_data save_path iz true rc s in
  let sigma := inject_Z (resize_factor self) in
  fst plain = Ok tt /\ fst previewed = Ok tt
  /\ fs (snd plain) !! save_path = Some (mesh_file (exported_mesh self g))
  /\ fs (snd previewed) !! save_path = Some (mesh_file (exported_mesh self g))
  /\ fs (snd previewed) !! preview_path self
     = Some (mesh_file (preview_mesh (exported_mesh self g)))
  /\ fs (snd plain) !! preview_path self = fs s !! preview_path self
  /\ (exists d,
        forallb is_log d = true
        /\ journal (snd plain)
           = journal s ++ d
             ++ [Export save_path; Log DEBUG "Obj file saved: %s" [a_str save_path]]
        /\ journal (snd previewed)
           = journal (snd plain)
             ++ [Export (preview_path self);
                 Log DEBUG "STL file saved: %s" [a_str (preview_path self)]])
  /\ vertices (scaled_mesh self g)
     = map (fun v =>
              let '(x, y, z) := rotation_z_pi (rotation_y_pi v) in
              ((x * sigma)%Q, (y * sigma)%Q, (z * z_scaling_factor self)%Q))
           (gm_vertices g)
  /\ faces (scaled_mesh self g) = gm_faces g.
Proof.
  intros Hsigma Hgrid Htri Hdec Hpath plain previewed sigma.
  destruct (plane_from_np_run self s dem_data grid g save_path iz rc
              Hsigma Hgrid Htri Hdec) as (d & Hd & Hrun).
  pose proof (Hrun false) as Hplain. pose proof (Hrun true) as Hprev.
  fold plain in Hplain. fold previewed in Hprev.
  rewrite Hplain, Hprev. cbn [fst snd fs journal].
  split; [reflexivity |]. split; [reflexivity |].
  split; [apply lookup_insert_eq |].
  split; [rewrite lookup_insert_ne by congruence; apply lookup_insert_eq |].
  split; [apply lookup_insert_eq |].
  split; [apply lookup_insert_ne; exact Hpath |].
  split.
  - exists d. split; [exact Hd |]. split; [reflexivity |].
    rewrite <- !app_assoc. reflexivity.
  - split; [| reflexivity].
    unfold scaled_mesh, apply_scale, map_vertices, Trimesh. cbn [vertices].
    rewrite !map_map. apply map_ext. intros [[x y] z]. reflexivity.
Qed.

(** *** Growth of the journal *)

Lemma jg_refl quiet s : journal_grows quiet s s.
Proof. exists []. rewrite app_nil_r. auto. Qed.

Lemma jg_trans quiet s1 s2 s3 :
  journal_grows quiet s1 s2 -> journal_grows quiet s2 s3 ->
  journal_grows quiet s1 s3.
Proof.
  intros (d1 & E1 & Q1) (d2 & E2 & Q2). exists (d1 ++ d2). split.
  - rewrite E2, E1, app_assoc. reflexivity.
  - rewrite forallb_app, Q1, Q2. reflexivity.
Qed.

Lemma jg_fs quiet s f :
  journal_grows quiet s
    (mk_state f (journal s) (water_resources_path s) (stl_preview_path s)).
Proof. exists []. cbn. rewrite app_nil_r. auto. Qed.

Lemma jg_stl quiet s p :
  journal_grows quiet s
    (mk_state (fs s) (journal s) (water_resources_path s) p).
Proof. exists []. cbn. rewrite app_nil_r. auto. Qed.

Lemma jg_wrp quiet p s :
  journal_grows quiet s
    (mk_state (fs s) (journal s) p (stl_preview_path s)).
Proof. exists []. cbn. rewrite app_nil_r. auto. Qed.

Lemma jg_emit quiet (e : event) (H : quiet e = true) s :
  journal_grows quiet s (journaled s [e]).
Proof. exists [e]. cbn. rewrite H. auto. Qed.

Ltac journal_only quiet :=
  stable_with (jg_refl quiet) (jg_trans quiet) (jg_fs quiet) (jg_stl quiet)
              (fun e => jg_emit quiet e).

Lemma jg_merge_layers quiet paths image :
  stable (journal_grows quiet) (merge_layers paths image).
Proof.
  revert image. induction paths as [|path rest IH]; intros image;
    cbn [merge_layers]; journal_only quiet. apply IH.
Qed.

Lemma jg_create_background_textures self :
  stable (journal_grows before_adjustment) (create_background_textures self).
Proof.
  unfold create_background_textures. journal_only before_adjustment;
    try (apply stable_set_wrp; intro; apply jg_wrp);
    try apply jg_merge_layers;
    try (apply (stable_run_texture _ (jg_refl _) (jg_trans _) (jg_fs _));
         intro; apply jg_emit; reflexivity).
Qed.

Lemma jg_run_dem : stable (journal_grows before_adjustment) run_dem.
Proof.
  apply (stable_run_dem _ (jg_refl _) (jg_trans _) (jg_fs _)).
  intro. apply jg_emit. reflexivity.
Qed.

Lemma jg_mesh_to_stl self m :
  stable (journal_grows not_subtracted) (mesh_to_stl self m).
Proof. unfold mesh_to_stl. journal_only not_subtracted. Qed.

Lemma jg_plane_from_np self dem_data save_path iz preview rc :
  stable (journal_grows not_subtracted)
    (plane_from_np self dem_data save_path iz preview rc).
Proof.
  unfold plane_from_np. journal_only not_subtracted; apply jg_mesh_to_stl.
Qed.

Lemma jg_generate_obj_files self :
  stable (journal_grows not_subtracted) (generate_obj_files self).
Proof.
  unfold generate_obj_files. journal_only not_subtracted.
  apply jg_plane_from_np.
Qed.

Lemma jg_generate_water self :
  stable (journal_grows not_subtracted) (generate_water_resources_obj self).
Proof.
  unfold generate_water_resources_obj. journal_only not_subtracted;
    apply jg_plane_from_np.
Qed.

Lemma jg_make_copy self path name :
  stable (journal_grows not_subtracted) (make_copy self path name).
Proof. unfold make_copy. journal_only not_subtracted. Qed.

Lemma jg_save_map_dem self path save_path :
  stable (journal_grows not_subtracted) (save_map_dem self path save_path).
Proof. unfold save_map_dem. journal_only not_subtracted. Qed.

(** *** Outcomes of the steps of [process] *)

(** Runs a method on a symbolic state, splitting on what it inspects. *)
Ltac case_run :=
  mrun;
  repeat (match goal with
          | |- context [match ?x with _ => _ end] =>
            lazymatch x with
            | context [match _ with _ => _ end] => fail
            | _ => destruct x eqn:?
            end
          end; mrun).

Lemma append_empty (a b : string) : (a ++ b)%string = "" -> b = "".
Proof. destruct a; cbn; [auto | discriminate]. Qed.

Lemma path_join_nonempty (a b : string) : b <> "" -> path_join a b <> "".
Proof.
  intros Hb. unfold path_join.
  destruct (starts_with_slash b); [exact Hb |].
  destruct (String.eqb a "" || ends_with_slash a); intros E.
  - apply Hb, (append_empty a b E).
  - apply append_empty in E. discriminate.
Qed.

Lemma not_resized_path_nonempty (self : config) : not_resized_path self <> "".
Proof. apply path_join_nonempty. discriminate. Qed.

Lemma copyfile_outcome (src dst : string) (s : state) :
  (exists s', copyfile src dst s = (Ok tt, s')
              /\ journal s' = journal s ++ [Copyfile src dst])
  \/ (exists e, copyfile src dst s = (Raise e, s)).
Proof.
  unfold copyfile. case_run; eauto.
Qed.

Lemma save_not_resized_outcome (self : config) (path save_path : string)
    (s : state) :
  save_path <> "" ->
  (exists s', save_map_dem self path (Some save_path) s = (Ok save_path, s')
              /\ journal s' = journal s
                   ++ [Imwrite save_path;
                       Log DEBUG msg_not_resized [a_str save_path]])
  \/ (exists e, save_map_dem self path (Some save_path) s = (Raise e, s)).
Proof.
  intros Hne. unfold save_map_dem. rewrite (nonempty_path_Some _ Hne).
  case_run; eauto.
  left. eexists. split; [reflexivity |]. cbn. rewrite <- app_assoc. reflexivity.
Qed.

Lemma subtraction_outcome (self : config) (s : state) :
  (exists s', subtraction self s = (Ok tt, s')
     /\ (journal s' = journal s ++ [Log WARNING msg_no_water []]
         \/ journal s' = journal s
              ++ [Imwrite (output_path self); subtracted_record self]))
  \/ (exists e, subtraction self s = (Raise e, s)).
Proof.
  unfold subtraction. case_run; eauto.
  left. eexists. split; [reflexivity |]. right. cbn.
  rewrite <- app_assoc. reflexivity.
Qed.

Lemma save_main_success (self : config) (path p : string) (s : state) :
  fst (save_map_dem self path None s) = Ok p ->
  exists d,
    journal (snd (save_map_dem self path None s)) = journal s ++ d
    /\ In (Imwrite (dem_file_path self)) d
    /\ In (Log DEBUG msg_cutout_saved [a_str (dem_file_path self)]) d.
Proof.
  unfold save_map_dem, cv2_resize_to. cbn [nonempty_path].
  case_run; try discriminate; intros _; cbn [journal];
    rewrite <- ?app_assoc; eexists; (split; [reflexivity |]);
    cbn; auto 6.
Qed.

Lemma before_adjustment_weaken (d : list event) :
  forallb before_adjustment d = true -> forallb not_subtracted d = true.
Proof.
  induction d as [|e d IH]; [reflexivity |]. cbn [forallb].
  rewrite !andb_true_iff. unfold before_adjustment at 1.
  rewrite andb_true_iff. intros [[H _] Hd]. auto.
Qed.

(** The steps of [process] from the save of the main cutout on. *)
Lemma tail_outcome (self : config) (k : string -> M unit) (s : state) :
  (forall p, stable (journal_grows not_subtracted) (k p)) ->
  exists d,
    journal (snd (bind (save_map_dem self (dem_path self) None) k s))
    = journal s ++ d
    /\ forallb not_subtracted d = true
    /\ (fst (bind (save_map_dem self (dem_path self) None) k s) = Ok tt ->
        In (Imwrite (dem_file_path self)) d
        /\ In (Log DEBUG msg_cutout_saved [a_str (dem_file_path self)]) d).
Proof.
  intros Hk. unfold bind.
  pose proof (jg_save_map_dem self (dem_path self) None s) as (d1 & E1 & Q1).
  pose proof (fun p => save_main_success self (dem_path self) p s) as Hmain.
  cbv beta in Hmain.
  destruct (save_map_dem self (dem_path self) None s) as [[p | e] s1];
    cbn [fst snd] in *.
  - destruct (Hk p s1) as (d2 & E2 & Q2).
    destruct (Hmain p eq_refl) as (d1' & E1' & Hin1 & Hin2).
    rewrite E1 in E1'. apply app_inv_head in E1'. subst d1'.
    exists (d1 ++ d2). split; [rewrite E2, E1, app_assoc; reflexivity |].
    split; [rewrite forallb_app, Q1, Q2; reflexivity |].
    intros _. split; apply in_or_app; left; assumption.
  - exists d1. split; [exact E1 |]. split; [exact Q1 |]. discriminate.
Qed.

Ltac quiet_list :=
  rewrite ?forallb_app, ?andb_true_iff;
  repeat split;
  first [assumption | apply before_adjustment_weaken; assumption | reflexivity].

(** The journal of a run of [process]: either it holds no record of a
    depth adjustment, or it is the journal of the compositor and of the
    provider, the copy to [not_substracted.png], the save of
    [not_resized.png], the write of the adjusted raster with its record,
    and then the journal of the remaining steps. *)
Lemma process_journal (self : config) (s : state) :
  exists d,
    journal (snd (process self s)) = journal s ++ d
    /\ (water_depth self = 0 -> forallb not_subtracted d = true)
    /\ (forallb not_subtracted d = true
        \/ exists d0 d6,
             d = (d0 ++ [Copyfile (dem_path self) (not_substracted_path self);
                         Imwrite (not_resized_path self);
                         Log DEBUG msg_not_resized
                           [a_str (not_resized_path self)];
                         Imwrite (output_path self)])
                 ++ subtracted_record self :: d6
             /\ forallb before_adjustment d0 = true
             /\ forallb not_subtracted d6 = true
             /\ (fst (process self s) = Ok tt ->
                 In (Imwrite (dem_file_path self)) d6
                 /\ In (Log DEBUG msg_cutout_saved
                          [a_str (dem_file_path self)]) d6)).
Proof.
  remember (process self s) as run eqn:Hrun. unfold process in Hrun.
  (* the compositor *)
  pose proof (jg_create_background_textures self s) as (d1 & E1 & Q1).
  unfold bind at 1 in Hrun.
  destruct (create_background_textures self s) as [[[] | e] s1];
    cbn [snd] in E1;
    [| subst run; exists d1; cbn [fst snd]; split; [exact E1 |];
       split; [intros _ |left]; quiet_list].
  (* the provider *)
  match type of Hrun with
  | context [bind ?m _ s1] =>
    assert (stable (journal_grows before_adjustment) m) as H2
      by (destruct (nonempty_path (custom_background_path self));
          [apply (stable_ret _ (jg_refl _)) | apply jg_run_dem]);
    destruct (H2 s1) as (d2 & E2 & Q2); clear H2;
    unfold bind at 1 in Hrun; destruct (m s1) as [[[] | e] s2]
  end;
    cbn [snd] in E2;
    [| subst run; exists (d1 ++ d2); cbn [fst snd];
       rewrite E2, E1, <- app_assoc;
       split; [reflexivity |]; split; [intros _ | left]; quiet_list].
  (* the copy to not_substracted.png *)
  unfold bind at 1 in Hrun.
  destruct (copyfile_outcome (dem_path self) (not_substracted_path self) s2)
    as [(s3 & Ec & E3) | (e & Ec)]; rewrite Ec in Hrun; clear Ec;
    [| subst run; exists (d1 ++ d2); cbn [fst snd];
       rewrite E2, E1, <- app_assoc;
       split; [reflexivity |]; split; [intros _ | left]; quiet_list].
  (* the save of not_resized.png *)
  unfold bind at 1 in Hrun.
  destruct (save_not_resized_outcome self (dem_path self)
              (not_resized_path self) s3 (not_resized_path_nonempty self))
    as [(s4 & Ec & E4) | (e & Ec)]; rewrite Ec in Hrun; clear Ec;
    [| subst run;
       exists (d1 ++ d2 ++ [Copyfile (dem_path self) (not_substracted_path self)]);
       cbn [fst snd]; rewrite E3, E2, E1, <- !app_assoc;
       split; [reflexivity |]; split; [intros _ | left]; quiet_list].
  (* the remaining steps are quiet *)
  match type of Hrun with
  | context [bind (save_map_dem self (dem_path self) None) ?k] =>
    assert (forall p, stable (journal_grows not_subtracted) (k p)) as Hk
      by (intro; journal_only not_subtracted;
          first [apply jg_make_copy | apply jg_generate_obj_files
                | apply jg_generate_water]);
    pose proof (fun s => tail_outcome self k s Hk) as Htail; clear Hk
  end.
  (* the depth adjustment *)
  unfold bind at 1 in Hrun.
  destruct (Z.eqb_spec (water_depth self) 0) as [Hwd | Hwd]; cbn [negb] in Hrun.
  - unfold ret at 1 in Hrun. subst run.
    destruct (Htail s4) as (d6 & E6 & Q6 & _).
    exists (d1 ++ d2 ++ [Copyfile (dem_path self) (not_substracted_path self)]
            ++ [Imwrite (not_resized_path self);
                Log DEBUG msg_not_resized [a_str (not_resized_path self)]]
            ++ d6).
    rewrite E6, E4, E3, E2, E1, <- !app_assoc.
    split; [reflexivity |]. split; [intros _ | left]; quiet_list.
  - destruct (subtraction_outcome self s4)
      as [(s5 & Ec & [E5 | E5]) | (e & Ec)]; rewrite Ec in Hrun; clear Ec;
      subst run.
    + destruct (Htail s5) as (d6 & E6 & Q6 & _).
      exists (d1 ++ d2 ++ [Copyfile (dem_path self) (not_substracted_path self)]
              ++ [Imwrite (not_resized_path self);
                  Log DEBUG msg_not_resized [a_str (not_resized_path self)]]
              ++ [Log WARNING msg_no_water []] ++ d6).
      rewrite E6, E5, E4, E3, E2, E1, <- !app_assoc.
      split; [reflexivity |]. split; [intros _ | left]; quiet_list.
    + destruct (Htail s5) as (d6 & E6 & Q6 & Hok).
      exists ((d1 ++ d2
               ++ [Copyfile (dem_path self) (not_substracted_path self);
                   Imwrite (not_resized_path self);
                   Log DEBUG msg_not_resized [a_str (not_resized_path self)];
                   Imwrite (output_path self)])
              ++ subtracted_record self :: d6).
      rewrite E6, E5, E4, E3, E2, E1, <- !app_assoc.
      split; [reflexivity |]. split; [intros E; contradiction |].
      right. exists (d1 ++ d2), d6. rewrite <- !app_assoc.
      split; [reflexivity |].
      split; [rewrite forallb_app, Q1, Q2; reflexivity |].
      split; [exact Q6 | exact Hok].
    + exists (d1 ++ d2 ++ [Copyfile (dem_path self) (not_substracted_path self)]
              ++ [Imwrite (not_resized_path self);
                  Log DEBUG msg_not_resized [a_str (not_resized_path self)]]).
      cbn [fst snd]. rewrite E4, E3, E2, E1, <- !app_assoc.
      split; [reflexivity |]. split; [intros _ | left]; quiet_list.
Qed.

Lemma not_subtracted_In (d : list event) (e : event) :
  forallb not_subtracted d = true -> In e d -> is_subtracted e = false.
Proof.
  rewrite forallb_forall. intros H Hin. specialize (H e Hin).
  unfold not_subtracted in H. apply negb_true_iff. exact H.
Qed.

(** A record of the adjustment sits where the only one is. *)
Lemma record_position (A B pre post : list event) (m e : event) :
  forallb not_subtracted A = true -> forallb not_subtracted B = true ->
  is_subtracted e = true ->
  A ++ m :: B = pre ++ e :: post -> pre = A /\ post = B.
Proof.
  intros HA HB He. revert pre. induction A as [|a A IH]; intros pre E.
  - destruct pre as [|x pre]; cbn in E; injection E as -> E.
    + auto.
    + exfalso. assert (is_subtracted e = false); [| congruence].
      apply (not_subtracted_In B); [exact HB |]. rewrite E.
      apply in_or_app. right. left. reflexivity.
  - cbn [forallb] in HA. apply andb_true_iff in HA as [Ha HA].
    destruct pre as [|x pre]; cbn in E; injection E as -> E.
    + exfalso. unfold not_subtracted in Ha. rewrite He in Ha. discriminate.
    + destruct (IH HA pre E) as [-> ->]. auto.
Qed.

(** C4, as the code has it.  In every run of [process], whatever its
    outcome: no depth adjustment is recorded when the configured water
    depth is 0; and wherever the journal records one, the depth is not 0,
    the copy to [not_substracted.png] and the save of [not_resized.png]
    come before it, the main cutout has not been saved yet, and, when the
    run succeeds, the main cutout is written to the game's DEM path after
    it. *)
Theorem process_order (self : config) (s : state) :
  exists d,
    journal (snd (process self s)) = journal s ++ d
    /\ (water_depth self = 0 -> forall e, In e d -> is_subtracted e = false)
    /\ forall pre e post,
         d = pre ++ e :: post -> is_subtracted e = true ->
         water_depth self <> 0
         /\ In (Copyfile (dem_path self) (not_substracted_path self)) pre
         /\ In (Imwrite (not_resized_path self)) pre
         /\ (forall e', In e' pre -> is_cutout_saved e' = false)
         /\ (fst (process self s) = Ok tt ->
             In (Imwrite (dem_file_path self)) post
             /\ In (Log DEBUG msg_cutout_saved
                      [a_str (dem_file_path self)]) post).
Proof.
  destruct (process_journal self s) as (d & E & Hzero & Hshape).
  exists d. split; [exact E |]. split.
  - intros Hwd e. apply not_subtracted_In. auto.
  - intros pre e post Hsplit He.
    destruct Hshape as [Hq | (d0 & d6 & Hd & Q0 & Q6 & Hok)].
    + exfalso. assert (is_subtracted e = false); [| congruence].
      apply (not_subtracted_In d); [exact Hq |]. rewrite Hsplit.
      apply in_or_app. right. left. reflexivity.
    + rewrite Hd in Hsplit.
      apply record_position in Hsplit as [-> ->]; [| quiet_list | exact Q6 | exact He].
      split.
      { intros Hwd. specialize (Hzero Hwd). rewrite Hd in Hzero.
        rewrite forallb_app in Hzero. apply andb_true_iff in Hzero as [_ Hz].
        cbn in Hz. discriminate. }
      split; [apply in_or_app; right; cbn; auto |].
      split; [apply in_or_app; right; cbn; auto |].
      split; [| exact Hok].
      intros e' Hin. apply in_app_or in Hin as [Hin | Hin].
      * rewrite forallb_forall in Q0. specialize (Q0 e' Hin).
        unfold before_adjustment in Q0. apply andb_true_iff in Q0 as [_ Q0].
        apply negb_true_iff. exact Q0.
      * cbn in Hin. destruct Hin as [<- | [<- | [<- | [<- | []]]]]; reflexivity.
Qed.

(** *** Calls of the elevation provider *)

Lemma np_create_background_textures self :
  stable (journal_grows no_provider_call) (create_background_textures self).
Proof.
  unfold create_background_textures. journal_only no_provider_call;
    try (apply stable_set_wrp; intro; apply jg_wrp);
    try apply jg_merge_layers;
    try (apply (stable_run_texture _ (jg_refl _) (jg_trans _) (jg_fs _));
         intro; apply jg_emit; reflexivity).
Qed.

Lemma np_mesh_to_stl self m :
  stable (journal_grows no_provider_call) (mesh_to_stl self m).
Proof. unfold mesh_to_stl. journal_only no_provider_call. Qed.

Lemma np_plane_from_np self dem_data save_path iz preview rc :
  stable (journal_grows no_provider_call)
    (plane_from_np self dem_data save_path iz preview rc).
Proof.
  unfold plane_from_np. journal_only no_provider_call; apply np_mesh_to_stl.
Qed.

Lemma np_generate_obj_files self :
  stable (journal_grows no_provider_call) (generate_obj_files self).
Proof.
  unfold generate_obj_files. journal_only no_provider_call.
  apply np_plane_from_np.
Qed.

Lemma np_generate_water self :
  stable (journal_grows no_provider_call) (generate_water_resources_obj self).
Proof.
  unfold generate_water_resources_obj. journal_only no_provider_call;
    apply np_plane_from_np.
Qed.

Lemma np_make_copy self path name :
  stable (journal_grows no_provider_call) (make_copy self path name).
Proof. unfold make_copy. journal_only no_provider_call. Qed.

Lemma np_save_map_dem self path save_path :
  stable (journal_grows no_provider_call) (save_map_dem self path save_path).
Proof. unfold save_map_dem. journal_only no_provider_call. Qed.

Lemma np_subtraction self :
  stable (journal_grows no_provider_call) (subtraction self).
Proof. unfold subtraction. journal_only no_provider_call. Qed.

Ltac after_provider :=
  journal_only no_provider_call;
  first [ apply np_save_map_dem | apply np_subtraction | apply np_make_copy
        | apply np_generate_obj_files | apply np_generate_water ].

Lemma provider_calls_app (d1 d2 : list event) :
  provider_calls (d1 ++ d2) = (provider_calls d1 + provider_calls d2)%nat.
Proof. unfold provider_calls. rewrite List.filter_app. apply List.length_app. Qed.

Lemma provider_calls_quiet (d : list event) :
  forallb no_provider_call d = true -> provider_calls d = 0%nat.
Proof.
  unfold provider_calls, no_provider_call.
  induction d as [|e d IH]; [reflexivity |]. cbn [forallb List.filter].
  rewrite andb_true_iff, negb_true_iff. intros [-> Hd]. auto.
Qed.

(** [process] calls the elevation provider at most once: never when a
    custom background is given, and exactly once in every run without one
    that returns normally. *)
Theorem provider_is_called_at_most_once (self : config) (s : state) :
  exists d,
    journal (snd (process self s)) = journal s ++ d
    /\ (provider_calls d <= 1)%nat
    /\ (nonempty_path (custom_background_path self) <> None ->
        provider_calls d = 0%nat)
    /\ (nonempty_path (custom_background_path self) = None ->
        fst (process self s) = Ok tt -> provider_calls d = 1%nat).
Proof.
  remember (process self s) as run eqn:Hrun. unfold process in Hrun.
  pose proof (np_create_background_textures self s) as (d1 & E1 & Q1).
  apply provider_calls_quiet in Q1.
  unfold bind at 1 in Hrun.
  destruct (create_background_textures self s) as [[[] | e] s1];
    cbn [snd] in E1;
    [| subst run; exists d1; cbn [fst snd]; split; [exact E1 |];
       rewrite Q1; repeat split; [lia | discriminate]].
  destruct (nonempty_path (custom_background_path self)) as [custom |].
  - match type of Hrun with
    | _ = ?m s1 =>
      assert (stable (journal_grows no_provider_call) m) as Hrest
        by after_provider
    end.
    destruct (Hrest s1) as (d2 & E2 & Q2). apply provider_calls_quiet in Q2.
    rewrite <- Hrun in E2. exists (d1 ++ d2).
    split; [rewrite E2, E1, app_assoc; reflexivity |].
    rewrite provider_calls_app, Q1, Q2.
    repeat split; [lia | congruence].
  - unfold bind at 1 in Hrun. unfold run_dem at 1 in Hrun.
    destruct (dem_process (fs s1)) as [f | e];
      [| subst run; exists d1; cbn [fst snd]; split; [exact E1 |];
         rewrite Q1; repeat split; [lia | discriminate]].
    match type of Hrun with
    | _ = ?m ?s2 =>
      assert (stable (journal_grows no_provider_call) m) as Hrest
        by after_provider;
      destruct (Hrest s2) as (d2 & E2 & Q2)
    end.
    apply provider_calls_quiet in Q2.
    rewrite <- Hrun in E2. cbn [journal] in E2. exists (d1 ++ External "dem" :: d2).
    split; [rewrite E2, E1, <- !app_assoc; reflexivity |].
    rewrite provider_calls_app, Q1.
    change (provider_calls (External "dem" :: d2)) with (S (provider_calls d2)).
    rewrite Q2. repeat split; [lia | congruence].
Qed.

(** *** The files a mesh run touches *)

Lemma plane_from_np_frame self dem_data save_path iz preview rc s p :
  p <> save_path -> (preview = true -> p <> preview_path self) ->
  fs (snd (plane_from_np self dem_data save_path iz preview rc s)) !! p
  = fs s !! p
  /\ water_resources_path
       (snd (plane_from_np self dem_data save_path iz preview rc s))
     = water_resources_path s
  /\ (preview = false ->
      stl_preview_path
        (snd (plane_from_np self dem_data save_path iz preview rc s))
      = stl_preview_path s).
Proof.
  intros Hsp Hpv. apply not_eq_sym in Hsp.
  unfold plane_from_np, mesh_to_stl, preview_path in *.
  case_run; cbn [fs snd water_resources_path stl_preview_path];
    (split; [| split; [reflexivity | try discriminate; reflexivity]]);
    rewrite ?lookup_insert_ne
      by first [exact Hsp | apply not_eq_sym, Hpv; reflexivity];
    reflexivity.
Qed.

Lemma generate_water_frame self s p :
  p <> path_join (water_directory self) "plane_water.obj" ->
  p <> path_join (water_directory self) "elevated_water.obj" ->
  fs (snd (generate_water_resources_obj self s)) !! p = fs s !! p
  /\ water_resources_path (snd (generate_water_resources_obj self s))
     = water_resources_path s
  /\ stl_preview_path (snd (generate_water_resources_obj self s))
     = stl_preview_path s.
Proof.
  intros H1 H2. unfold generate_water_resources_obj.
  case_run;
    repeat match goal with
    | H : plane_from_np ?c ?d ?sp ?iz false ?rc ?s0 = (_, _) |- _ =>
      let F := fresh "F" in
      pose proof (plane_from_np_frame c d sp iz false rc s0 p
                    ltac:(assumption) ltac:(discriminate)) as F;
      rewrite H in F; cbn [snd] in F;
      destruct F as (? & ? & F); specialize (F eq_refl); clear H
    end;
    try match goal with
    | |- context [snd (plane_from_np ?c ?d ?sp ?iz false ?rc ?s0)] =>
      let F := fresh "F" in
      destruct (plane_from_np_frame c d sp iz false rc s0 p
                  ltac:(assumption) ltac:(discriminate)) as (? & ? & F);
      specialize (F eq_refl)
    end;
    cbn [fs snd water_resources_path stl_preview_path] in *;
    repeat split; congruence.
Qed.

(** Whatever its outcome, [plane_from_np] leaves every file but the mesh
    at [save_path] and, when a preview is asked for, the STL preview as
    it was: it writes nowhere else and removes nothing.  It never changes
    the water mask attribute, and without a preview it leaves the preview
    attribute alone. *)
Theorem plane_from_np_writes_only_its_outputs (self : config)
    (dem_data : ndarray) (save_path : string)
    (include_zeros create_preview remove_center : bool)
    (s : state) (p : string) :
  p <> save_path ->
  (create_preview = true -> p <> preview_path self) ->
  let s' := snd (plane_from_np self dem_data save_path include_zeros
                   create_preview remove_center s) in
  fs s' !! p = fs s !! p
  /\ water_resources_path s' = water_resources_path s
  /\ (create_preview = false -> stl_preview_path s' = stl_preview_path s).
Proof. intros Hsp Hpv. cbn zeta. apply plane_from_np_frame; assumption. Qed.

(** Whatever its outcome, [generate_water_resources_obj] leaves every
    file but [plane_water.obj] and [elevated_water.obj] of the water
    directory as it was, and changes neither the preview attribute (no
    preview is made of the water meshes) nor the water mask attribute. *)
Theorem water_meshes_touch_two_files (self : config) (s : state) (p : string) :
  p <> path_join (water_directory self) "plane_water.obj" ->
  p <> path_join (water_directory self) "elevated_water.obj" ->
  let s' := snd (generate_water_resources_obj self s) in
  fs s' !! p = fs s !! p
  /\ water_resources_path s' = water_resources_path s
  /\ stl_preview_path s' = stl_preview_path s.
Proof. intros H1 H2. cbn zeta. apply generate_water_frame; assumption. Qed.

End Background.

(** * The properties on the concrete map *)

(** C2 as stated fails: on a raster of value 10 with a depth of 50 the
    selected pixel (1, 1) is not clamped at 0, it wraps to 65496. *)
Lemma subtraction_does_not_clamp :
  let run := subtraction demo_config demo_low_state in
  fst run = Ok tt
  /\ fs (snd run) !! output_path demo_config
     = Some (image_file (tabulate uint16 4 4 (fun _ _ => 65496)))
  /\ truthy (water_mask demo_water) 1 1 = true
  /\ get demo_low_dem 1 1 = 10
  /\ water_depth demo_config = 50.
Proof. vm_compute. repeat split. Qed.

(** C4 as stated fails: in a run with a water mask and a depth of 50 the
    main cutout is saved after the depth adjustment, not before, and holds
    the adjusted samples, while [not_resized.png] holds the raw ones. *)
Lemma cutout_saved_after_adjustment :
  let run := process demo_resize demo_linear demo_simplify demo_dem_process
               demo_texture demo_config demo_state in
  fst run = Ok tt
  /\ occurs_before is_cutout_saved is_subtracted (journal (snd run)) = false
  /\ occurs_before is_subtracted is_cutout_saved (journal (snd run)) = true
  /\ fs (snd run) !! dem_file_path demo_config
     = Some (image_file (tabulate uint16 3 3 (fun _ _ => 950)))
  /\ fs (snd run) !! not_resized_path demo_config
     = Some (image_file (tabulate uint16 2 2 (fun _ _ => 1000))).
Proof. vm_compute. repeat split. Qed.

Lemma triangulate_counts_witness :
  let dem_data := tabulate uint16 3 3 (fun _ _ => 7) in
  wf dem_data /\ (0 < nrows dem_data)%nat /\ (0 < ncols dem_data)%nat
  /\ exists g, triangulate dem_data true = Some g
       /\ length (gm_faces g) = 8%nat /\ length (gm_vertices g) = 9%nat.
Proof.
  cbn zeta. split; [reflexivity |]. split; [cbn; lia |]. split; [cbn; lia |].
  destruct (triangulate_counts (tabulate uint16 3 3 (fun _ _ => 7)))
    as (H & _); [reflexivity | cbn; lia | cbn; lia |].
  exact H.
Defined.

Lemma ground_marks_lowest_witness :
  wf demo_slope /\ in_range demo_slope
  /\ exists z g,
       invert_heights demo_slope = Some z
       /\ triangulate demo_slope false = Some g
       /\ (get z 0 0 = gm_ground g <-> get demo_slope 0 0 = 0)
       /\ cell_faces z (gm_ground g) false 0 0 = [].
Proof.
  assert (in_range demo_slope) as Hr.
  { unfold in_range. cbn. repeat constructor; vm_compute; congruence. }
  split; [reflexivity |]. split; [exact Hr |].
  destruct (ground_marks_lowest demo_slope)
    as (lowest & z & g & Hl & Hz & Hg & _ & Hc & Hcell & Hzero);
    [reflexivity | exact Hr | cbn; lia | cbn; lia |].
  assert (lowest = 0) as -> by (apply Hzero; cbn; auto).
  exists z, g. split; [exact Hz |]. split; [exact Hg |].
  split; [apply Hc; cbn; lia |].
  apply Hcell; [cbn; lia | cbn; lia |]. left. reflexivity.
Defined.

Lemma subtraction_wraps_witness :
  water_resources_path demo_low_state = Some "map/water/water_resources.png"
  /\ fs demo_low_state !! output_path demo_config
     = Some (image_file demo_low_dem)
  /\ 0 < water_depth demo_config < modulus (ndtype demo_low_dem)
  /\ exists r s',
       subtraction demo_config demo_low_state = (Ok tt, s')
       /\ fs s' !! output_path demo_config = Some (image_file r)
       /\ get r 1 1 = 65496.
Proof.
  split; [reflexivity |]. split; [reflexivity |]. split; [vm_compute; auto |].
  destruct (subtraction_wraps demo_config demo_low_state
              "map/water/water_resources.png" demo_water demo_low_dem)
    as (r & s' & Hrun & Hfs & _ & Hget);
    [reflexivity | discriminate | reflexivity | reflexivity | reflexivity
    | reflexivity | cbn; lia | cbn; lia | reflexivity
    | unfold in_range; cbn; repeat constructor; vm_compute; congruence
    | vm_compute; auto |].
  exists r, s'. split; [exact Hrun |]. split; [exact Hfs |].
  destruct (Hget 1%nat 1%nat) as [Hsel _]; [cbn; lia | cbn; lia |].
  destruct (Hsel eq_refl) as (_ & _ & Hlow).
  destruct Hlow as [E _]; [vm_compute; reflexivity |].
  rewrite E. reflexivity.
Defined.

Lemma compositing_saturates_witness :
  fs demo_layers_state !! "a.png" = Some (image_file demo_layer_a)
  /\ fs demo_layers_state !! "b.png" = Some (image_file demo_layer_b)
  /\ exists img,
       merge_layers ["a.png"; "b.png"] (np_zeros_u8 2) demo_layers_state
       = (Ok img, demo_layers_state)
       /\ count_marked img = 2%nat /\ count_255 img = 2%nat.
Proof.
  split; [reflexivity |]. split; [reflexivity |].
  destruct (compositing_saturates demo_layers_state "a.png" "b.png"
              demo_layer_a demo_layer_b 2)
    as (img & Hrun & _ & _ & _ & _ & _ & Hcount);
    [reflexivity | reflexivity | reflexivity | reflexivity | reflexivity
    | reflexivity
    | unfold in_range; cbn; repeat constructor; vm_compute; congruence
    | unfold in_range; cbn; repeat constructor; vm_compute; congruence
    | reflexivity | reflexivity | reflexivity | reflexivity |].
  exists img. split; [exact Hrun |].
  assert (forall i j, (i < 2)%nat -> (j < 2)%nat ->
            get demo_layer_a i j = 0 \/ get demo_layer_b i j = 0) as Hd.
  { intros i j Hi Hj.
    destruct i as [|[|i]]; [| | lia]; destruct j as [|[|j]]; try lia;
      cbn; auto. }
  destruct (Hcount Hd) as [Hm Hb].
  split; [exact Hm |].
  apply Hb; unfold binary_mask; cbn;
    repeat (apply List.Forall_cons; [auto |]); apply List.Forall_nil.
Defined.

Lemma flat_scenario_witness :
  (500 < 1025)%nat
  /\ exists r,
       subtract_depth flat_raster (water_mask square_mask) 50 = Some r
       /\ get r 500 500 = 950.
Proof.
  split; [lia |].
  destruct (flat_scenario 500 500) as (r & Hr & _ & _ & _ & E & _);
    [lia | lia |].
  exists r. split; [exact Hr | exact E].
Defined.

Lemma elevated_water_prefers_original_witness :
  nrows demo_hill = nrows demo_pond /\ ncols demo_hill = ncols demo_pond
  /\ exists elevated,
       elevated_water_raster demo_hill demo_pond = Some elevated
       /\ get elevated 1 1 = 100.
Proof.
  split; [reflexivity |]. split; [reflexivity |].
  destruct (elevated_water_prefers_original demo_hill demo_pond)
    as (zeroed & elevated & Hz & He & _ & _ & Hget);
    [reflexivity | reflexivity |].
  exists elevated. split; [exact He |].
  destruct (Hget 1%nat 1%nat) as (Ez & _ & Hkeep & _); [cbn; lia | cbn; lia |].
  rewrite Hkeep; rewrite Ez; vm_compute; reflexivity.
Defined.

Lemma save_map_dem_main_witness :
  let cut := tabulate uint16 2 2 (fun _ _ => 1000) in
  fs demo_raster_state !! dem_path demo_config = Some (image_file demo_dem)
  /\ cut_out_np demo_dem (map_size demo_config / 2) return_cutout = Some cut
  /\ fst (save_map_dem demo_linear demo_config (dem_path demo_config) None
            demo_raster_state)
     = Ok "map/data/dem.png".
Proof.
  cbn zeta. split; [reflexivity |]. split; [reflexivity |].
  destruct (save_map_dem_main demo_linear demo_config demo_raster_state
              (dem_path demo_config) demo_dem
              (tabulate uint16 2 2 (fun _ _ => 1000)))
    as (Hrun & _); [reflexivity | reflexivity | cbn; lia |].
  rewrite Hrun. reflexivity.
Defined.

Lemma missing_inputs_are_skipped_witness :
  fs demo_empty_state !! dem_path demo_config = None
  /\ fs demo_empty_state !! texture_schema demo_config = None
  /\ fst (generate_obj_files demo_resize demo_simplify demo_config
            demo_empty_state) = Ok tt
  /\ fst (subtraction demo_config demo_empty_state) = Ok tt.
Proof.
  split; [reflexivity |]. split; [reflexivity |].
  destruct (missing_inputs_are_skipped demo_resize demo_linear demo_simplify
              demo_dem_process demo_texture demo_config
              demo_empty_state demo_empty_state demo_empty_state)
    as (H1 & _ & _ & H4 & _);
    [reflexivity | left; reflexivity | reflexivity | reflexivity |].
  rewrite H1, H4. split; reflexivity.
Defined.

Lemma export_precedes_preview_witness :
  resize_factor demo_config <> 0
  /\ mesh_grid demo_resize demo_config demo_dem false = Some demo_dem
  /\ triangulate demo_dem true = Some demo_grid_mesh
  /\ "map/background/FULL.obj" <> preview_path demo_config
  /\ fs (snd (plane_from_np demo_resize demo_simplify demo_config demo_dem
                "map/background/FULL.obj" true true false demo_empty_state))
       !! "map/background/FULL.obj"
     = Some (mesh_file (exported_mesh demo_simplify demo_config demo_grid_mesh)).
Proof.
  assert (resize_factor demo_config <> 0) as H1 by discriminate.
  assert (mesh_grid demo_resize demo_config demo_dem false = Some demo_dem)
    as H2 by reflexivity.
  assert (triangulate demo_dem true = Some demo_grid_mesh) as H3
    by (vm_compute; reflexivity).
  assert (apply_decimation demo_config = true -> gm_faces demo_grid_mesh <> [])
    as H4 by (intros H; discriminate H).
  assert ("map/background/FULL.obj" <> preview_path demo_config) as H5
    by (vm_compute; discriminate).
  repeat (split; [assumption |]).
  destruct (export_precedes_preview demo_resize demo_simplify demo_config
              demo_empty_state demo_dem demo_dem demo_grid_mesh
              "map/background/FULL.obj" true false H1 H2 H3 H4 H5)
    as (_ & _ & _ & H & _).
  exact H.
Defined.

(** The tactics that run the monad, for the properties stated outside the
    section of the external collaborators. *)
Ltac mrun :=
  repeat (progress (
    cbv beta iota zeta delta
        [bind ret raise require get_fs put_fs emit logger isfile imread
         imread_grayscale imwrite copyfile remove_if_present export
         get_water_resources_path set_water_resources_path
         set_stl_preview_path];
    cbn [fs journal water_resources_path stl_preview_path fst snd
         option_map andb orb negb])).

Ltac case_run :=
  mrun;
  repeat (match goal with
          | |- context [match ?x with _ => _ end] =>
            lazymatch x with
            | context [match _ with _ => _ end] => fail
            | _ => destruct x eqn:?
            end
          end; mrun).

(** * Further properties of the triangulation *)

Lemma mesh_cell_balance z ground iz i j st :
  (length (fst (mesh_cell z ground iz i j st))
   + 2 * snd (mesh_cell z ground iz i j st))%nat
  = (length (fst st) + 2 * snd st + 2)%nat.
Proof.
  unfold mesh_cell. destruct (touches_ground z ground i j && negb iz);
    cbn [fst snd]; [lia |]. rewrite length_app. cbn. lia.
Qed.

Lemma mesh_row_balance z ground iz i (l : list nat) st :
  let st' := fold_left (fun st j => mesh_cell z ground iz i j st) l st in
  (length (fst st') + 2 * snd st')%nat
  = (length (fst st) + 2 * snd st + 2 * length l)%nat.
Proof.
  revert st. induction l as [|j l IH]; intros st; cbn [fold_left length].
  - cbn zeta. lia.
  - cbn zeta in *. rewrite IH, mesh_cell_balance. lia.
Qed.

Lemma mesh_loops_balance_from z ground iz (l : list nat) st :
  let st' := fold_left (fun st i => mesh_row z ground iz i st) l st in
  (length (fst st') + 2 * snd st')%nat
  = (length (fst st) + 2 * snd st + 2 * (ncols z - 1) * length l)%nat.
Proof.
  revert st. induction l as [|i l IH]; intros st; cbn [fold_left length].
  - cbn zeta. lia.
  - cbn zeta in *. rewrite IH. unfold mesh_row.
    rewrite mesh_row_balance, length_seq. lia.
Qed.

Lemma mesh_cell_no_skip z ground i j st :
  snd (mesh_cell z ground true i j st) = snd st.
Proof. unfold mesh_cell. rewrite andb_false_r. reflexivity. Qed.

Lemma mesh_loops_no_skip z ground :
  snd (mesh_loops z ground true) = 0%nat.
Proof.
  unfold mesh_loops.
  assert (forall (l : list nat) st,
            snd (fold_left (fun st i => mesh_row z ground true i st) l st)
            = snd st) as H.
  { induction l as [|i l IH]; intros st; cbn [fold_left]; [reflexivity |].
    rewrite IH. unfold mesh_row.
    generalize (seq 0 (ncols z - 1)). intros cells. revert st.
    induction cells as [|j cells IHc]; intros st; cbn [fold_left];
      [reflexivity |].
    rewrite IHc. apply mesh_cell_no_skip. }
  apply H.
Qed.

Lemma triangulate_Some (dem_data : ndarray) (iz : bool) (g : grid_mesh) :
  triangulate dem_data iz = Some g ->
  exists m z,
    np_max dem_data = Some m
    /\ z = map_array (fun v => wrap (ndtype dem_data) (m - v)) dem_data
    /\ np_max z = Some (gm_ground g)
    /\ gm_vertices g = grid_vertices z
    /\ gm_faces g = fst (mesh_loops z (gm_ground g) iz)
    /\ gm_skipped g = snd (mesh_loops z (gm_ground g) iz).
Proof.
  unfold triangulate, invert_heights.
  destruct (np_max dem_data) as [m|]; [| discriminate].
  set (z := map_array _ dem_data).
  destruct (np_max z) as [ground|] eqn:Hg; [| discriminate].
  destruct (mesh_loops z ground iz) as [fcs skipped] eqn:Hl.
  intros [= <-]. cbn [gm_ground gm_vertices gm_faces gm_skipped].
  exists m, z. rewrite Hl. auto 7.
Qed.

(** Every cell of the grid is either skipped or contributes two faces:
    the number of faces plus twice the number of skipped cells is
    [2 * (R - 1) * (C - 1)], and no cell is skipped with [include_zeros]. *)
Theorem faces_and_skipped_cells (dem_data : ndarray) (iz : bool)
    (g : grid_mesh) :
  triangulate dem_data iz = Some g ->
  (length (gm_faces g) + 2 * gm_skipped g)%nat
  = (2 * (nrows dem_data - 1) * (ncols dem_data - 1))%nat
  /\ (iz = true -> gm_skipped g = 0%nat).
Proof.
  intros H. apply triangulate_Some in H as (m & z & _ & Hz & _ & _ & Hf & Hs).
  rewrite Hf, Hs. split.
  - unfold mesh_loops.
    pose proof (mesh_loops_balance_from z (gm_ground g) iz
                  (seq 0 (nrows z - 1)) ([], 0%nat)) as Hb.
    cbn zeta in Hb. rewrite Hb, length_seq. subst z. cbn. lia.
  - intros ->. apply mesh_loops_no_skip.
Qed.

Lemma faces_and_skipped_cells_witness :
  triangulate demo_slope false
  = Some (mk_grid_mesh (grid_vertices (mk_ndarray uint16 2 2 [7; 4; 2; 0]))
            [] 7 1)
  /\ (0 + 2 * 1)%nat = (2 * (2 - 1) * (2 - 1))%nat.
Proof.
  assert (triangulate demo_slope false
          = Some (mk_grid_mesh
                    (grid_vertices (mk_ndarray uint16 2 2 [7; 4; 2; 0]))
                    [] 7 1)) as H by (vm_compute; reflexivity).
  split; [exact H |].
  exact (proj1 (faces_and_skipped_cells _ _ _ H)).
Defined.

Lemma cell_faces_subset z ground iz i j (f : face) :
  In f (cell_faces z ground iz i j) -> In f (cell_faces z ground true i j).
Proof.
  destruct iz; [auto |]. rewrite cell_faces_filtered.
  destruct (touches_ground z ground i j); [intros [] | auto].
Qed.

(** Every emitted face names three different vertices of the grid, and
    the vertex with index [k] sits at column [k mod C] and row [k / C]
    with the inverted height stored there. *)
Theorem faces_are_triangles_of_the_grid (dem_data : ndarray) (iz : bool)
    (g : grid_mesh) :
  triangulate dem_data iz = Some g ->
  length (gm_vertices g) = (nrows dem_data * ncols dem_data)%nat
  /\ (forall a b c, In (a, b, c) (gm_faces g) ->
        (a < length (gm_vertices g))%nat /\ (b < length (gm_vertices g))%nat
        /\ (c < length (gm_vertices g))%nat
        /\ a <> b /\ b <> c /\ a <> c)
  /\ (forall k, (k < nrows dem_data * ncols dem_data)%nat ->
        exists h,
          nth k (gm_vertices g) (0%Q, 0%Q, 0%Q)
          = (inject_Z (Z.of_nat (k mod ncols dem_data)),
             inject_Z (Z.of_nat (k / ncols dem_data)), inject_Z h)).
Proof.
  intros H. apply triangulate_Some in H as (m & z & _ & Hz & _ & Hv & Hf & _).
  assert (nrows z = nrows dem_data /\ ncols z = ncols dem_data) as [HR HC]
    by (subst z; auto).
  rewrite Hv, Hf, length_grid_vertices, HR, HC. split; [reflexivity |]. split.
  - intros a b c Hin. apply in_mesh_loops in Hin as (i & j & Hi & Hj & Hin).
    apply cell_faces_subset in Hin. rewrite cell_faces_all in Hin.
    rewrite HR in Hi. rewrite HC in Hj, Hin.
    destruct Hin as [E | [E | []]]; injection E as <- <- <-;
      repeat split; nia.
  - intros k Hk. unfold grid_vertices. rewrite HR, HC.
    rewrite nth_map_seq by exact Hk. eauto.
Qed.

Lemma faces_are_triangles_of_the_grid_witness :
  triangulate demo_dem true = Some demo_grid_mesh
  /\ length (gm_vertices demo_grid_mesh) = 16%nat.
Proof.
  assert (triangulate demo_dem true = Some demo_grid_mesh) as H
    by (vm_compute; reflexivity).
  split; [exact H |].
  exact (proj1 (faces_are_triangles_of_the_grid _ _ _ H)).
Defined.

Lemma np_max_Some_nonempty (a : ndarray) (m : Z) :
  np_max a = Some m -> data a <> [].
Proof. unfold np_max. destruct (data a); [discriminate | discriminate]. Qed.

(** On a raster whose samples fit its dtype the inversion does not wrap:
    every inverted sample is [max - v], between 0 and the ground level
    [max - min], and the inverted raster fits the dtype again. *)
Theorem inversion_does_not_wrap (dem_data z : ndarray) :
  wf dem_data -> in_range dem_data ->
  invert_heights dem_data = Some z ->
  exists m lowest,
    np_max dem_data = Some m /\ np_min dem_data = Some lowest
    /\ np_max z = Some (m - lowest)
    /\ in_range z
    /\ forall i j, (i < nrows dem_data)%nat -> (j < ncols dem_data)%nat ->
         get z i j = m - get dem_data i j
         /\ 0 <= get z i j <= m - lowest.
Proof.
  intros Hwf Hr Hz. unfold invert_heights in Hz.
  destruct (np_max dem_data) as [m|] eqn:Hm; [| discriminate].
  injection Hz as <-.
  pose proof (np_max_Some_nonempty _ _ Hm) as Hne.
  assert (exists lowest, np_min dem_data = Some lowest) as [lowest Hl].
  { unfold np_min. destruct (data dem_data); [congruence | eauto]. }
  assert (exists ground,
            np_max (map_array (fun v => wrap (ndtype dem_data) (m - v)) dem_data)
            = Some ground) as [ground Hg].
  { unfold np_max, map_array. cbn [data].
    destruct (data dem_data); [congruence | cbn; eauto]. }
  pose proof (ground_is_max_minus_min _ _ _ _ Hr Hm Hl Hg) as ->.
  exists m, lowest. split; [reflexivity |]. split; [exact Hl |].
  split; [exact Hg |].
  pose proof (np_max_spec _ _ Hm) as [Hmin Hmax].
  pose proof (np_min_spec _ _ Hl) as [_ Hlow].
  pose proof (in_range_In _ _ Hr Hmin) as Hmr.
  split.
  - unfold in_range, map_array. cbn [data ndtype].
    apply List.Forall_forall. intros x Hx.
    apply in_map_iff in Hx as (v & <- & Hv).
    destruct (inverted_sample dem_data m v Hr Hm Hv) as [-> H0].
    pose proof (in_range_In _ _ Hr Hv). lia.
  - intros i j Hi Hj. rewrite inverted_get by assumption.
    pose proof (get_in_data dem_data i j Hwf Hi Hj) as Hin.
    pose proof (Hmax _ Hin). pose proof (Hlow _ Hin). lia.
Qed.

Lemma inversion_does_not_wrap_witness :
  wf demo_slope /\ in_range demo_slope
  /\ invert_heights demo_slope = Some (mk_ndarray uint16 2 2 [7; 4; 2; 0])
  /\ exists m lowest,
       np_max demo_slope = Some m /\ np_min demo_slope = Some lowest
       /\ np_max (mk_ndarray uint16 2 2 [7; 4; 2; 0]) = Some (m - lowest).
Proof.
  assert (in_range demo_slope) as Hr.
  { unfold in_range. cbn. repeat constructor; vm_compute; congruence. }
  assert (invert_heights demo_slope = Some (mk_ndarray uint16 2 2 [7; 4; 2; 0]))
    as Hz by reflexivity.
  split; [reflexivity |]. split; [exact Hr |]. split; [exact Hz |].
  destruct (inversion_does_not_wrap demo_slope _ eq_refl Hr Hz)
    as (m & lowest & Hm & Hl & Hg & _).
  exists m, lowest. auto.
Defined.

Lemma flat_map_all_nil {A B} (f : A -> list B) (l : list A) :
  (forall x, In x l -> f x = []) -> flat_map f l = [].
Proof.
  induction l as [|x l IH]; intros H; cbn; [reflexivity |].
  rewrite (H x) by (left; reflexivity). cbn. apply IH.
  intros y Hy. apply H. right. exact Hy.
Qed.

(** A raster all of whose samples are equal is meshed, without
    [include_zeros], into no face at all: every corner is at ground level,
    so every cell is skipped. *)
Theorem constant_raster_has_no_faces (dem_data : ndarray) (v : Z)
    (g : grid_mesh) :
  wf dem_data -> Forall (fun x => x = v) (data dem_data) ->
  triangulate dem_data false = Some g ->
  gm_faces g = [] /\ gm_ground g = 0
  /\ gm_skipped g = ((nrows dem_data - 1) * (ncols dem_data - 1))%nat.
Proof.
  intros Hwf Hall Ht.
  pose proof (faces_and_skipped_cells _ _ _ Ht) as [Hbal _].
  apply triangulate_Some in Ht as (m & z & Hm & Hz & Hg & _ & Hf & _).
  assert (m = v) as ->.
  { apply np_max_spec in Hm as [Hin _].
    rewrite List.Forall_forall in Hall. auto. }
  assert (forall x, In x (data z) -> x = 0) as Hzero.
  { intros x Hx. subst z. cbn [map_array data] in Hx.
    apply in_map_iff in Hx as (y & <- & Hy).
    rewrite List.Forall_forall in Hall. rewrite (Hall y Hy), Z.sub_diag.
    unfold wrap. apply Z.mod_0_l. pose proof (modulus_pos (ndtype dem_data)). lia. }
  assert (gm_ground g = 0) as Hground.
  { apply np_max_spec in Hg as [Hin _]. auto. }
  assert (gm_faces g = []) as Hnil.
  { rewrite Hf, mesh_loops_faces. apply flat_map_all_nil. intros i Hi.
    unfold row_faces. apply flat_map_all_nil. intros j Hj.
    apply cell_faces_nil, touches_ground_true. left.
    apply in_seq in Hi, Hj. rewrite Hground. symmetry. apply Hzero.
    apply get_in_data.
    - subst z. apply wf_map_array. exact Hwf.
    - lia.
    - lia. }
  split; [exact Hnil |]. split; [exact Hground |].
  rewrite Hnil in Hbal. cbn [length] in Hbal. lia.
Qed.

Lemma constant_raster_has_no_faces_witness :
  wf demo_dem /\ Forall (fun x => x = 1000) (data demo_dem)
  /\ exists g, triangulate demo_dem false = Some g /\ gm_faces g = [].
Proof.
  assert (Forall (fun x => x = 1000) (data demo_dem)) as Hall
    by (cbn; repeat constructor).
  split; [reflexivity |]. split; [exact Hall |].
  eexists. split; [vm_compute; reflexivity |].
  refine (proj1 (constant_raster_has_no_faces demo_dem 1000 _ eq_refl Hall _)).
  vm_compute. reflexivity.
Defined.

(** * Further properties of the depth subtraction *)

(** The eroded mask selects a pixel exactly when the water image is 255
    on the pixel and on all its neighbours inside the image; it never
    selects a pixel the water image does not mark. *)
Theorem eroded_mask_is_interior (w : ndarray) (i j : nat) :
  (i < nrows w)%nat -> (j < ncols w)%nat ->
  (truthy (water_mask w) i j = true <->
   forall di dj, -1 <= di <= 1 -> -1 <= dj <= 1 ->
     0 <= Z.of_nat i + di < Z.of_nat (nrows w) ->
     0 <= Z.of_nat j + dj < Z.of_nat (ncols w) ->
     get w (Z.to_nat (Z.of_nat i + di)) (Z.to_nat (Z.of_nat j + dj)) = 255)
  /\ (truthy (water_mask w) i j = true -> get w i j = 255)
  /\ nrows (water_mask w) = nrows w /\ ncols (water_mask w) = ncols w.
Proof.
  intros Hi Hj. pose proof (water_mask_selects w i j Hi Hj) as Hsel.
  split; [exact Hsel |]. split; [| split; reflexivity].
  intros Ht. destruct Hsel as [Hall _]. specialize (Hall Ht 0 0).
  rewrite !Z.add_0_r, !Nat2Z.id in Hall. apply Hall; lia.
Qed.

Lemma eroded_mask_is_interior_witness :
  (1 < nrows demo_water)%nat /\ (1 < ncols demo_water)%nat
  /\ (truthy (water_mask demo_water) 1 1 = true -> get demo_water 1 1 = 255).
Proof.
  assert (1 < nrows demo_water)%nat as Hi by (cbn; lia).
  assert (1 < ncols demo_water)%nat as Hj by (cbn; lia).
  split; [exact Hi |]. split; [exact Hj |].
  exact (proj1 (proj2 (eroded_mask_is_interior demo_water 1 1 Hi Hj))).
Defined.







(** * Further properties of the dilation *)

Lemma dilate_once_ge (r : nat) (a : ndarray) (i j i' j' : nat) :
  (i < nrows a)%nat -> (j < ncols a)%nat ->
  (i' < nrows a)%nat -> (j' < ncols a)%nat ->
  within r i j i' j' ->
  get a i' j' <= get (dilate_once r a) i j.
Proof.
  intros Hi Hj Hi' Hj' (H1 & H2 & H3 & H4).
  rewrite get_dilate_once by assumption.
  apply (fold_max_ge (window a r i j) (get a i j)).
  apply in_window.
  exists (Z.of_nat i' - Z.of_nat i), (Z.of_nat j' - Z.of_nat j).
  split; [lia |]. split; [lia |]. apply zget_Some.
  replace (Z.of_nat i + (Z.of_nat i' - Z.of_nat i)) with (Z.of_nat i') by lia.
  replace (Z.of_nat j + (Z.of_nat j' - Z.of_nat j)) with (Z.of_nat j') by lia.
  rewrite !Nat2Z.id. repeat split; lia.
Qed.

Lemma dilate_once_attained (r : nat) (a : ndarray) (i j : nat) :
  (i < nrows a)%nat -> (j < ncols a)%nat ->
  exists i' j',
    (i' < nrows a)%nat /\ (j' < ncols a)%nat /\ within r i j i' j'
    /\ get (dilate_once r a) i j = get a i' j'.
Proof.
  intros Hi Hj. rewrite get_dilate_once by assumption.
  destruct (fold_max_in (window a r i j) (get a i j)) as [-> | Hin].
  - exists i, j. unfold within. repeat split; lia.
  - apply in_window in Hin as (di & dj & Hdi & Hdj & Hz).
    apply zget_Some in Hz as (Hx & Hy & ->).
    exists (Z.to_nat (Z.of_nat i + di)), (Z.to_nat (Z.of_nat j + dj)).
    unfold within. repeat split; lia.
Qed.

Lemma iter_dilate_shape (r n : nat) (a : ndarray) :
  nrows (Nat.iter n (dilate_once r) a) = nrows a
  /\ ncols (Nat.iter n (dilate_once r) a) = ncols a
  /\ ndtype (Nat.iter n (dilate_once r) a) = ndtype a.
Proof.
  induction n as [|n IH]; [auto |]. cbn [Nat.iter]. destruct IH as (? & ? & ?).
  unfold dilate_once at 1 2 3. cbn [nrows ncols ndtype tabulate]. auto.
Qed.

(** [cv2.dilate] with a full square kernel of side [ksize] over [n]
    iterations keeps the shape, and each sample of the result is the
    largest sample of the source within [n * (ksize // 2)] pixels, in each
    direction, inside the image. *)
Theorem dilation_is_a_window_maximum (a : ndarray) (ksize n : nat) (i j : nat) :
  (i < nrows a)%nat -> (j < ncols a)%nat ->
  let reach := (n * (ksize / 2))%nat in
  nrows (cv2_dilate a ksize n) = nrows a
  /\ ncols (cv2_dilate a ksize n) = ncols a
  /\ (forall i' j', (i' < nrows a)%nat -> (j' < ncols a)%nat ->
        within reach i j i' j' ->
        get a i' j' <= get (cv2_dilate a ksize n) i j)
  /\ (exists i' j',
        (i' < nrows a)%nat /\ (j' < ncols a)%nat /\ within reach i j i' j'
        /\ get (cv2_dilate a ksize n) i j = get a i' j').
Proof.
  intros Hi Hj reach. unfold cv2_dilate. subst reach.
  set (r := (ksize / 2)%nat).
  destruct (iter_dilate_shape r n a) as (HR & HC & _).
  split; [exact HR |]. split; [exact HC |].
  clear HR HC. revert i j Hi Hj.
  induction n as [|n IH]; intros i j Hi Hj.
  - cbn [Nat.iter nat_rect Nat.mul]. split.
    + intros i' j' Hi' Hj' (H1 & H2 & H3 & H4).
      assert (i' = i) as -> by lia. assert (j' = j) as -> by lia. lia.
    + exists i, j. unfold within. repeat split; first [lia | reflexivity].
  - change (Nat.iter (S n) (dilate_once r) a)
      with (dilate_once r (Nat.iter n (dilate_once r) a)).
    destruct (iter_dilate_shape r n a) as (HR & HC & _).
    replace (S n * r)%nat with (r + n * r)%nat by lia.
    set (nr := (n * r)%nat) in *. split.
    + intros i' j' Hi' Hj' (H1 & H2 & H3 & H4).
      set (i2 := Nat.max (i - r) (Nat.min (i + r) i')).
      set (j2 := Nat.max (j - r) (Nat.min (j + r) j')).
      assert (i2 < nrows a)%nat by (unfold i2; lia).
      assert (j2 < ncols a)%nat by (unfold j2; lia).
      transitivity (get (Nat.iter n (dilate_once r) a) i2 j2).
      * apply (IH i2 j2); try assumption. unfold within, i2, j2. lia.
      * apply dilate_once_ge; rewrite ?HR, ?HC; try assumption.
        unfold within, i2, j2. lia.
    + destruct (dilate_once_attained r (Nat.iter n (dilate_once r) a) i j)
        as (i1 & j1 & Hi1 & Hj1 & Hw1 & E1); rewrite ?HR, ?HC; try assumption.
      rewrite HR in Hi1. rewrite HC in Hj1.
      destruct (IH i1 j1 Hi1 Hj1) as [_ (i' & j' & Hi' & Hj' & Hw & E)].
      exists i', j'. split; [exact Hi' |]. split; [exact Hj' |].
      split; [unfold within in *; lia |]. rewrite E1. exact E.
Qed.

Lemma dilation_is_a_window_maximum_witness :
  (0 < nrows demo_pond)%nat /\ (0 < ncols demo_pond)%nat
  /\ within (1 * (3 / 2)) 0 0 1 1
  /\ get demo_pond 1 1 <= get (cv2_dilate demo_pond 3 1) 0 0.
Proof.
  assert (0 < nrows demo_pond)%nat as Hi by (cbn; lia).
  assert (0 < ncols demo_pond)%nat as Hj by (cbn; lia).
  assert (within (1 * (3 / 2)) 0 0 1 1) as Hw by (cbn; unfold within; lia).
  split; [exact Hi |]. split; [exact Hj |]. split; [exact Hw |].
  destruct (dilation_is_a_window_maximum demo_pond 3 1 0 0 Hi Hj)
    as (_ & _ & Hge & _).
  apply Hge; [cbn; lia | cbn; lia | exact Hw].
Defined.

(** * Footprints of the water meshes *)

(** The raster of the elevated water mesh is positive exactly on the
    pixels within 10 pixels of a water pixel with a positive elevation,
    and each of its samples is 0 or the elevation of such a pixel. *)
Theorem elevated_water_footprint (background_dem plane_water elevated : ndarray)
    (i j : nat) :
  wf background_dem -> in_range background_dem ->
  nrows background_dem = nrows plane_water ->
  ncols background_dem = ncols plane_water ->
  elevated_water_raster background_dem plane_water = Some elevated ->
  (i < nrows background_dem)%nat -> (j < ncols background_dem)%nat ->
  (0 < get elevated i j <->
   exists i' j',
     (i' < nrows background_dem)%nat /\ (j' < ncols background_dem)%nat
     /\ within 10 i j i' j'
     /\ get plane_water i' j' <> 0 /\ 0 < get background_dem i' j')
  /\ (get elevated i j = 0
      \/ exists i' j',
           (i' < nrows background_dem)%nat /\ (j' < ncols background_dem)%nat
           /\ within 10 i j i' j'
           /\ get plane_water i' j' <> 0
           /\ get elevated i j = get background_dem i' j').
Proof.
  intros Hwf Hr HR HC He Hi Hj.
  unfold elevated_water_raster, zero_where_no_water in He.
  destruct (same_shape background_dem plane_water); [| discriminate].
  set (zeroed := tabulate (ndtype background_dem) (nrows background_dem)
                   (ncols background_dem)
                   (fun i j => if get plane_water i j =? 0 then 0
                               else get background_dem i j)) in He.
  set (dilated := cv2_dilate zeroed 3 10) in He.
  assert (get elevated i j = get (np_where_positive zeroed dilated) i j) as Hel
    by congruence.
  clear He. rewrite Hel. clear Hel elevated. subst dilated.
  assert (forall a b, (a < nrows background_dem)%nat ->
            (b < ncols background_dem)%nat ->
            get zeroed a b
            = (if get plane_water a b =? 0 then 0 else get background_dem a b)
            /\ 0 <= get zeroed a b) as Hzeroed.
  { intros a b Ha Hb. unfold zeroed. rewrite get_tabulate by assumption.
    split; [reflexivity |].
    pose proof (get_in_range background_dem a b Hwf Hr Ha Hb).
    destruct (get plane_water a b =? 0); lia. }
  assert (get (np_where_positive zeroed (cv2_dilate zeroed 3 10)) i j
          = (if 0 <? get zeroed i j then get zeroed i j
             else get (cv2_dilate zeroed 3 10) i j)) as ->.
  { unfold np_where_positive. unfold zeroed at 1 2 3.
    cbn [ndtype nrows ncols tabulate]. fold zeroed.
    rewrite get_tabulate by assumption. reflexivity. }
  destruct (dilation_is_a_window_maximum zeroed 3 10 i j Hi Hj)
    as (_ & _ & Hge & (i1 & j1 & Hi1 & Hj1 & Hw1 & E1)).
  change (nrows zeroed) with (nrows background_dem) in *.
  change (ncols zeroed) with (ncols background_dem) in *.
  change (10 * (3 / 2))%nat with 10%nat in *.
  destruct (Hzeroed i j Hi Hj) as [Ez Hz0].
  destruct (Hzeroed i1 j1 Hi1 Hj1) as [Ez1 Hz1].
  assert (forall a b, (a < nrows background_dem)%nat ->
            (b < ncols background_dem)%nat -> 0 < get zeroed a b ->
            get plane_water a b <> 0 /\ get zeroed a b = get background_dem a b)
    as Hwater.
  { intros a b Ha Hb Hpos. destruct (Hzeroed a b Ha Hb) as [E _].
    rewrite E in Hpos |- *.
    destruct (Z.eqb_spec (get plane_water a b) 0); [lia | auto]. }
  split; [split |].
  - intros Hpos. destruct (Z.ltb_spec 0 (get zeroed i j)) as [Hp | Hp].
    + destruct (Hwater i j Hi Hj Hp) as [Hne E]. exists i, j.
      split; [exact Hi |]. split; [exact Hj |].
      split; [unfold within; lia |]. split; [exact Hne | lia].
    + rewrite E1 in Hpos. destruct (Hwater i1 j1 Hi1 Hj1 Hpos) as [Hne E].
      exists i1, j1. split; [exact Hi1 |]. split; [exact Hj1 |].
      split; [exact Hw1 |]. split; [exact Hne | lia].
  - intros (i' & j' & Hi' & Hj' & Hw & Hne & Hdem).
    destruct (Hzeroed i' j' Hi' Hj') as [Ez' _].
    apply Z.eqb_neq in Hne. rewrite Hne in Ez'.
    pose proof (Hge i' j' Hi' Hj' Hw).
    destruct (Z.ltb_spec 0 (get zeroed i j)); lia.
  - destruct (Z.ltb_spec 0 (get zeroed i j)) as [Hp | Hp].
    + destruct (Hwater i j Hi Hj Hp) as [Hne E]. right. exists i, j.
      split; [exact Hi |]. split; [exact Hj |].
      split; [unfold within; lia |]. split; [exact Hne | exact E].
    + rewrite E1. destruct (Z.ltb_spec 0 (get zeroed i1 j1)) as [Hq | Hq].
      * destruct (Hwater i1 j1 Hi1 Hj1 Hq) as [Hne E]. right. exists i1, j1.
        split; [exact Hi1 |]. split; [exact Hj1 |].
        split; [exact Hw1 |]. split; [exact Hne | exact E].
      * left. lia.
Qed.

Lemma elevated_water_footprint_witness :
  wf demo_hill /\ in_range demo_hill
  /\ exists elevated,
       elevated_water_raster demo_hill demo_pond = Some elevated
       /\ (0 < get elevated 0 0 <->
           exists i' j', (i' < 3)%nat /\ (j' < 3)%nat /\ within 10 0 0 i' j'
                         /\ get demo_pond i' j' <> 0 /\ 0 < get demo_hill i' j').
Proof.
  assert (in_range demo_hill) as Hr.
  { unfold in_range. cbn. repeat constructor; vm_compute; congruence. }
  split; [reflexivity |]. split; [exact Hr |].
  eexists. split; [reflexivity |].
  refine (proj1 (elevated_water_footprint demo_hill demo_pond _ 0 0
                   eq_refl Hr eq_refl eq_refl eq_refl _ _)); cbn; lia.
Defined.

(** * Further properties of the compositor *)

Lemma layer_image_get (n : nat) (a : ndarray) (i j : nat) :
  layer_image n a -> (i < n)%nat -> (j < n)%nat -> 0 <= get a i j <= 255.
Proof.
  intros (Ht & Hwf & Hr & HR & HC) Hi Hj.
  pose proof (get_in_range a i j Hwf Hr) as H. rewrite Ht, HR, HC in H.
  specialize (H Hi Hj). change (modulus uint8) with 256 in H. lia.
Qed.

Lemma sum_at_nonneg (n : nat) (layers : list ndarray) (i j : nat) :
  Forall (layer_image n) layers -> (i < n)%nat -> (j < n)%nat ->
  0 <= sum_at layers i j.
Proof.
  induction 1 as [|a layers Ha _ IH]; intros Hi Hj; cbn; [lia |].
  pose proof (layer_image_get n a i j Ha Hi Hj). specialize (IH Hi Hj).
  unfold sum_at in IH. lia.
Qed.

Lemma merge_layers_sum (s : state) (n : nat) (paths : list string)
    (layers : list ndarray) (acc : ndarray) :
  Forall2 (fun p a => fs s !! p = Some (image_file a)) paths layers ->
  Forall (layer_image n) layers ->
  nrows acc = n -> ncols acc = n ->
  (forall i j, (i < n)%nat -> (j < n)%nat -> 0 <= get acc i j <= 255) ->
  exists img,
    merge_layers paths acc s = (Ok img, s)
    /\ nrows img = n /\ ncols img = n
    /\ forall i j, (i < n)%nat -> (j < n)%nat ->
         get img i j = Z.min 255 (get acc i j + sum_at layers i j).
Proof.
  intros Hfiles. revert acc.
  induction Hfiles as [|p a paths layers Hp _ IH]; intros acc Hall HR HC Hacc.
  - exists acc. cbn [merge_layers]. split; [reflexivity |].
    split; [exact HR |]. split; [exact HC |].
    intros i j Hi Hj. cbn. specialize (Hacc i j Hi Hj). lia.
  - apply List.Forall_cons_iff in Hall as [Ha Hall].
    pose proof Ha as (Ht & Hwf & Hr & HRa & HCa).
    set (acc' := tabulate uint8 n n
                   (fun i j => saturate_u8 (get acc i j + get a i j))).
    destruct (IH acc' Hall) as (img & Hrun & HRi & HCi & Hget).
    { reflexivity. }
    { reflexivity. }
    { intros i j Hi Hj. unfold acc'. rewrite get_tabulate by assumption.
      unfold saturate_u8. lia. }
    exists img. split.
    + cbn [merge_layers]. mrun. rewrite Hp. mrun. unfold to_grayscale.
      rewrite Ht. unfold cv2_add, same_shape.
      rewrite HR, HC, HRa, HCa, !Nat.eqb_refl. mrun. exact Hrun.
    + split; [exact HRi |]. split; [exact HCi |].
      intros i j Hi Hj. rewrite (Hget i j Hi Hj). unfold acc'.
      rewrite get_tabulate by assumption.
      pose proof (Hacc i j Hi Hj). pose proof (layer_image_get n a i j Ha Hi Hj).
      pose proof (sum_at_nonneg n layers i j Hall Hi Hj).
      cbn [sum_at fold_right]. fold (sum_at layers i j).
      unfold saturate_u8. lia.
Qed.

(** The merge loop run on any number of 8-bit layers of the background
    size returns, without touching the state, the image whose samples are
    the sums of the layers' samples saturated at 255. *)
Theorem compositing_sums_all_layers (s : state) (n : nat)
    (paths : list string) (layers : list ndarray) :
  Forall2 (fun p a => fs s !! p = Some (image_file a)) paths layers ->
  Forall (layer_image n) layers ->
  exists img,
    merge_layers paths (np_zeros_u8 n) s = (Ok img, s)
    /\ nrows img = n /\ ncols img = n
    /\ forall i j, (i < n)%nat -> (j < n)%nat ->
         get img i j = Z.min 255 (sum_at layers i j).
Proof.
  intros Hfiles Hall.
  destruct (merge_layers_sum s n paths layers (np_zeros_u8 n) Hfiles Hall)
    as (img & Hrun & HR & HC & Hget); [reflexivity | reflexivity | |].
  { intros i j Hi Hj. rewrite get_zeros by assumption. lia. }
  exists img. split; [exact Hrun |]. split; [exact HR |]. split; [exact HC |].
  intros i j Hi Hj. rewrite (Hget i j Hi Hj), get_zeros by assumption.
  reflexivity.
Qed.

Lemma compositing_sums_all_layers_witness :
  Forall2 (fun p a => fs demo_layers_state !! p = Some (image_file a))
    ["a.png"; "b.png"; "a.png"] [demo_layer_a; demo_layer_b; demo_layer_a]
  /\ Forall (layer_image 2) [demo_layer_a; demo_layer_b; demo_layer_a]
  /\ exists img,
       merge_layers ["a.png"; "b.png"; "a.png"] (np_zeros_u8 2) demo_layers_state
       = (Ok img, demo_layers_state)
       /\ get img 0 0 = 255.
Proof.
  assert (layer_image 2 demo_layer_a) as Ha.
  { repeat split; try reflexivity.
    unfold in_range. cbn. repeat constructor; vm_compute; congruence. }
  assert (layer_image 2 demo_layer_b) as Hb.
  { repeat split; try reflexivity.
    unfold in_range. cbn. repeat constructor; vm_compute; congruence. }
  assert (Forall2 (fun p a => fs demo_layers_state !! p = Some (image_file a))
            ["a.png"; "b.png"; "a.png"]
            [demo_layer_a; demo_layer_b; demo_layer_a]) as Hfiles
    by (repeat constructor).
  assert (Forall (layer_image 2) [demo_layer_a; demo_layer_b; demo_layer_a])
    as Hall
    by (apply List.Forall_cons; [exact Ha |];
        apply List.Forall_cons; [exact Hb |];
        apply List.Forall_cons; [exact Ha |]; apply List.Forall_nil).
  split; [exact Hfiles |]. split; [exact Hall |].
  destruct (compositing_sums_all_layers demo_layers_state 2 _ _ Hfiles Hall)
    as (img & Hrun & _ & _ & Hget).
  exists img. split; [exact Hrun |].
  rewrite Hget by lia. reflexivity.
Defined.

(** The merge loop never changes the state, and it fails with OpenCV's
    error when one of the listed files is absent or is not an image. *)
Theorem compositing_needs_every_layer (paths : list string) (acc : ndarray)
    (s : state) :
  snd (merge_layers paths acc s) = s
  /\ ((exists p, In p paths
                 /\ forall a, fs s !! p <> Some (image_file a)) ->
      fst (merge_layers paths acc s) = Raise cv2_error).
Proof.
  revert acc. induction paths as [|p paths IH]; intros acc.
  - split; [reflexivity |]. intros (p & [] & _).
  - cbn [merge_layers]. mrun.
    destruct (fs s !! p) as [[a | | |] |] eqn:Hp; mrun;
      try (split; [reflexivity | intros _; reflexivity]).
    destruct (cv2_add acc (to_grayscale a)) as [acc' |]; mrun;
      [| split; [reflexivity | intros _; reflexivity]].
    destruct (IH acc') as [Hs Hf]. split; [exact Hs |].
    intros (q & [<- | Hq] & Hmiss).
    + exfalso. apply (Hmiss a). exact Hp.
    + apply Hf. eauto.
Qed.

Lemma compositing_needs_every_layer_witness :
  (exists p, In p ["a.png"; "c.png"]
             /\ forall a, fs demo_layers_state !! p <> Some (image_file a))
  /\ fst (merge_layers ["a.png"; "c.png"] (np_zeros_u8 2) demo_layers_state)
     = Raise cv2_error.
Proof.
  assert (exists p, In p ["a.png"; "c.png"]
            /\ forall a, fs demo_layers_state !! p <> Some (image_file a)) as H.
  { exists "c.png". split; [cbn; auto |]. intros a. vm_compute. discriminate. }
  split; [exact H |].
  exact (proj2 (compositing_needs_every_layer _ _ _) H).
Defined.

(** * Further properties of the methods *)

(** [save_map_dem] with a non-empty [save_path] writes the cutout as it
    is, not resized, to that path and returns the path; it removes
    nothing, and the game's DEM path is not written.  An empty string is
    treated as no [save_path] at all. *)
Theorem save_map_dem_to_path (inter_linear : ndarray -> nat -> nat -> nat -> nat -> Z)
    (self : config) (s : state) (path save_path : string) (dem cut : ndarray) :
  fs s !! path = Some (image_file dem) ->
  cut_out_np dem (map_size self / 2) return_cutout = Some cut ->
  (2 <= map_size self)%nat ->
  save_path <> "" ->
  save_map_dem inter_linear self path (Some save_path) s
  = (Ok save_path,
     mk_state (<[save_path := image_file cut]> (fs s))
       (journal s ++ [Imwrite save_path;
                      Log DEBUG msg_not_resized [a_str save_path]])
       (water_resources_path s) (stl_preview_path s))
  /\ save_map_dem inter_linear self path (Some "") s
     = save_map_dem inter_linear self path None s.
Proof.
  intros Hf Hcut Hms Hne. split; [| reflexivity].
  pose proof (cut_out_np_return _ _ _ Hcut) as (Ecut & _).
  assert (0 < map_size self / 2)%nat as Hh by (apply Nat.div_str_pos; lia).
  assert (is_empty cut = false) as Hnonempty.
  { apply is_empty_false. rewrite Ecut. cbn [nrows ncols tabulate]. lia. }
  unfold save_map_dem. rewrite (nonempty_path_Some _ Hne). mrun.
  rewrite Hf. mrun. rewrite Hcut. mrun. rewrite Hnonempty. mrun.
  rewrite <- app_assoc. reflexivity.
Qed.

Lemma save_map_dem_to_path_witness :
  fs demo_raster_state !! dem_path demo_config = Some (image_file demo_dem)
  /\ cut_out_np demo_dem (map_size demo_config / 2) return_cutout
     = Some (tabulate uint16 2 2 (fun _ _ => 1000))
  /\ fst (save_map_dem demo_linear demo_config (dem_path demo_config)
            (Some "map/background/not_resized.png") demo_raster_state)
     = Ok "map/background/not_resized.png".
Proof.
  split; [reflexivity |]. split; [reflexivity |].
  destruct (save_map_dem_to_path demo_linear demo_config demo_raster_state
              (dem_path demo_config) "map/background/not_resized.png"
              demo_dem (tabulate uint16 2 2 (fun _ _ => 1000)))
    as [Hrun _]; [reflexivity | reflexivity | cbn; lia | discriminate |].
  rewrite Hrun. reflexivity.
Defined.

(** When the elevation raster is absent once the compositor and the
    provider have run, [process] raises [FileNotFoundError] at the copy to
    [not_substracted.png] and does nothing more: the run ends in the state
    those two steps left. *)
Theorem process_needs_the_raster
    (cv2_resize : Q -> ndarray -> ndarray)
    (inter_linear : ndarray -> nat -> nat -> nat -> nat -> Z)
    (simplify_quadric_decimation : decimation -> mesh -> mesh)
    (dem_process : gmap string file -> result (gmap string file))
    (texture_process :
       list layer -> gmap string file -> result (gmap string file * list string))
    (self : config) (s s2 : state) :
  (create_background_textures texture_process self ;;;
   match nonempty_path (custom_background_path self) with
   | None => run_dem dem_process
   | Some _ => ret tt
   end) s = (Ok tt, s2) ->
  fs s2 !! dem_path self = None ->
  process cv2_resize inter_linear simplify_quadric_decimation dem_process
    texture_process self s
  = (Raise (FileNotFoundError (dem_path self)), s2).
Proof.
  intros Hpre Hmiss. unfold process. unfold bind at 1.
  unfold bind at 1 in Hpre.
  destruct (create_background_textures texture_process self s)
    as [[[] | e] s1]; [| discriminate].
  unfold bind at 1.
  destruct (match nonempty_path (custom_background_path self) with
            | Some _ => ret tt
            | None => run_dem dem_process
            end s1) as [[[] | e] s2'] eqn:Hdem; [| discriminate].
  injection Hpre as ->. unfold bind at 1. unfold copyfile. mrun.
  rewrite Hmiss. reflexivity.
Qed.

Lemma process_needs_the_raster_witness :
  let no_provider := fun f : gmap string file => Ok f in
  (create_background_textures demo_texture demo_config ;;;
   match nonempty_path (custom_background_path demo_config) with
   | None => run_dem no_provider
   | Some _ => ret tt
   end) demo_empty_state
  = (Ok tt,
     mk_state ∅
       [Log WARNING "Texture schema file not found: %s" [a_str "schema.json"];
        External "dem"] None None)
  /\ fst (process demo_resize demo_linear demo_simplify no_provider
            demo_texture demo_config demo_empty_state)
     = Raise (FileNotFoundError "map/background/FULL.png").
Proof.
  cbn zeta.
  assert ((create_background_textures demo_texture demo_config ;;;
           match nonempty_path (custom_background_path demo_config) with
           | None => run_dem (fun f : gmap string file => Ok f)
           | Some _ => ret tt
           end) demo_empty_state
          = (Ok tt,
             mk_state ∅
               [Log WARNING "Texture schema file not found: %s"
                  [a_str "schema.json"];
                External "dem"] None None)) as Hpre
    by (vm_compute; reflexivity).
  split; [exact Hpre |].
  rewrite (process_needs_the_raster demo_resize demo_linear demo_simplify
             (fun f => Ok f) demo_texture demo_config demo_empty_state _
             Hpre eq_refl).
  reflexivity.
Defined.

Lemma merge_layers_shape (paths : list string) (acc img : ndarray)
    (s s' : state) :
  merge_layers paths acc s = (Ok img, s') ->
  s' = s /\ nrows img = nrows acc /\ ncols img = ncols acc
  /\ (ndtype acc = uint8 -> ndtype img = uint8).
Proof.
  revert acc. induction paths as [|p paths IH]; intros acc.
  - cbn [merge_layers]. intros [= <- <-]. auto.
  - cbn [merge_layers]. mrun.
    destruct (fs s !! p) as [[a | | |] |]; mrun; try discriminate.
    unfold cv2_add. destruct (same_shape acc (to_grayscale a)); mrun;
      [| discriminate].
    intros H. apply IH in H as (-> & HR & HC & Ht).
    cbn [nrows ncols ndtype tabulate] in *. auto.
Qed.

(** Whenever [create_background_textures] changes the water mask
    attribute, it has returned normally, the attribute is the path of
    [water_resources.png] in the water directory, and the file at that path
    is an 8-bit image of the background size. *)
Theorem compositor_records_an_image
    (texture_process :
       list layer -> gmap string file -> result (gmap string file * list string))
    (self : config) (s : state) :
  let run := create_background_textures texture_process self s in
  water_resources_path (snd run) <> water_resources_path s ->
  let path := path_join (water_directory self) "water_resources.png" in
  fst run = Ok tt
  /\ water_resources_path (snd run) = Some path
  /\ exists img,
       fs (snd run) !! path = Some (image_file img)
       /\ ndtype img = uint8
       /\ nrows img = background_size self
       /\ ncols img = background_size self
       /\ (0 < background_size self)%nat.
Proof.
  cbn zeta. unfold create_background_textures, run_texture.
  case_run; cbn [fst snd water_resources_path fs]; intros Hne; subst;
    try (exfalso; apply Hne; reflexivity).
  all: match goal with
       | H : merge_layers ?l ?acc ?s0 = (_, ?s1) |- _ =>
         pose proof (proj1 (compositing_needs_every_layer l acc s0)) as Hs;
         rewrite H in Hs; cbn [snd] in Hs; subst s1
       end;
    cbn [fs water_resources_path] in *;
    try (exfalso; apply Hne; reflexivity).
  match goal with
  | H : merge_layers _ _ _ = (Ok _, _) |- _ =>
    apply merge_layers_shape in H as (_ & HR & HC & Ht)
  end.
  split; [reflexivity |]. split; [reflexivity |].
  eexists. split; [apply lookup_insert_eq |].
  split; [apply Ht; reflexivity |]. split; [exact HR |]. split; [exact HC |].
  match goal with
  | H : is_empty _ = false |- _ =>
    apply is_empty_false in H; rewrite HR in H;
    cbn [nrows np_zeros_u8 tabulate] in H; lia
  end.
Qed.

Lemma compositor_records_an_image_witness :
  water_resources_path
    (snd (create_background_textures demo_texture demo_config demo_state))
  <> water_resources_path demo_state
  /\ fst (create_background_textures demo_texture demo_config demo_state)
     = Ok tt.
Proof.
  assert (water_resources_path
            (snd (create_background_textures demo_texture demo_config
                    demo_state))
          <> water_resources_path demo_state) as H
    by (vm_compute; discriminate).
  split; [exact H |].
  exact (proj1 (compositor_records_an_image demo_texture demo_config
                  demo_state H)).
Defined.

(** When the elevation raster is there and can be triangulated,
    [generate_obj_files] meshes it without the cells at ground level, with
    the configured [remove_center], writes the mesh next to the raster with
    the extension [.obj] and, always, the STL preview, whose path it
    records; the water mask attribute is left as it was. *)
Theorem generate_obj_files_writes_mesh_and_preview
    (cv2_resize : Q -> ndarray -> ndarray)
    (simplify_quadric_decimation : decimation -> mesh -> mesh)
    (self : config) (s : state) (dem grid : ndarray) (g : grid_mesh) :
  fs s !! dem_path self = Some (image_file dem) ->
  resize_factor self <> 0 ->
  mesh_grid cv2_resize self dem (remove_center self) = Some grid ->
  triangulate grid false = Some g ->
  (apply_decimation self = true -> gm_faces g <> []) ->
  let save_path :=
    path_join (background_directory self)
      (splitext_root (basename (dem_path self)) ++ ".obj") in
  let exported := exported_mesh simplify_quadric_decimation self g in
  let run := generate_obj_files cv2_resize simplify_quadric_decimation self s in
  fst run = Ok tt
  /\ fs (snd run)
     = <[preview_path self
         := mesh_file (preview_mesh simplify_quadric_decimation exported)]>
         (<[save_path := mesh_file exported]> (fs s))
  /\ stl_preview_path (snd run) = Some (preview_path self)
  /\ water_resources_path (snd run) = water_resources_path s.
Proof.
  intros Hf Hsigma Hgrid Htri Hdec. cbn zeta.
  unfold generate_obj_files. mrun.
  rewrite (lookup_Some_isfile _ _ _ Hf). mrun. rewrite Hf. mrun.
  match goal with
  | |- context [plane_from_np _ _ _ _ ?sp _ _ _ ?s0] =>
    destruct (plane_from_np_run cv2_resize simplify_quadric_decimation self
                s0 dem grid g sp false (remove_center self)
                Hsigma Hgrid Htri Hdec) as (d & _ & Hrun);
    rewrite (Hrun true)
  end.
  cbn [fst snd fs stl_preview_path water_resources_path]. auto.
Qed.

Lemma generate_obj_files_writes_mesh_and_preview_witness :
  let g := match triangulate demo_slope false with
           | Some g => g
           | None => demo_grid_mesh
           end in
  let s := mk_state {["map/background/FULL.png" := image_file demo_slope]}
             [] None None in
  fs s !! dem_path demo_config = Some (image_file demo_slope)
  /\ triangulate demo_slope false = Some g
  /\ fst (generate_obj_files demo_resize demo_simplify demo_config s) = Ok tt
  /\ stl_preview_path
       (snd (generate_obj_files demo_resize demo_simplify demo_config s))
     = Some "map/previews/background_dem.stl".
Proof.
  cbn zeta.
  set (g := match triangulate demo_slope false with
            | Some g => g
            | None => demo_grid_mesh
            end).
  set (s := mk_state {["map/background/FULL.png" := image_file demo_slope]}
              [] None None).
  assert (fs s !! dem_path demo_config = Some (image_file demo_slope)) as H1
    by reflexivity.
  assert (triangulate demo_slope false = Some g) as H2
    by (vm_compute; reflexivity).
  assert (resize_factor demo_config <> 0) as H3 by discriminate.
  assert (mesh_grid demo_resize demo_config demo_slope
            (remove_center demo_config) = Some demo_slope) as H4 by reflexivity.
  assert (apply_decimation demo_config = true -> gm_faces g <> []) as H5
    by (intros H; discriminate H).
  split; [exact H1 |]. split; [exact H2 |].
  destruct (generate_obj_files_writes_mesh_and_preview demo_resize
              demo_simplify demo_config s demo_slope demo_slope g
              H1 H3 H4 H2 H5) as (Hok & _ & Hstl & _).
  split; [exact Hok | exact Hstl].
Defined.

(** * The name of the terrain mesh *)

Lemma list_of_append (a b : string) :
  list_ascii_of_string (a ++ b)
  = list_ascii_of_string a ++ list_ascii_of_string b.
Proof. induction a as [|c a IH]; simpl; [reflexivity | f_equal; exact IH]. Qed.

Lemma break_at_absent (sep : ascii) (l : list ascii) :
  forallb (fun c => negb (Ascii.eqb c sep)) l = true ->
  break_at sep l = (l, []).
Proof.
  induction l as [|c l IH]; cbn; [reflexivity |].
  rewrite andb_true_iff, negb_true_iff. intros [-> H].
  rewrite (IH H). reflexivity.
Qed.

Lemma break_at_first (sep : ascii) (l1 l2 : list ascii) :
  forallb (fun c => negb (Ascii.eqb c sep)) l1 = true ->
  break_at sep (l1 ++ sep :: l2) = (l1, sep :: l2).
Proof.
  induction l1 as [|c l1 IH]; cbn.
  - rewrite Ascii.eqb_refl. reflexivity.
  - rewrite andb_true_iff, negb_true_iff. intros [-> H].
    rewrite (IH H). reflexivity.
Qed.

Lemma forallb_rev {A} (f : A -> bool) (l : list A) :
  forallb f (rev l) = forallb f l.
Proof.
  induction l as [|x l IH]; cbn; [reflexivity |].
  rewrite forallb_app, IH. cbn. rewrite andb_true_r. apply andb_comm.
Qed.

Lemma ends_with_slash_last (a : string) :
  ends_with_slash a = true ->
  exists l, list_ascii_of_string a = l ++ [slash].
Proof.
  induction a as [|c a IH]; cbn; [discriminate |].
  destruct a as [|c' a'].
  - intros H. apply Ascii.eqb_eq in H as ->. exists []. reflexivity.
  - intros H. destruct (IH H) as [l E]. exists (c :: l).
    rewrite E. reflexivity.
Qed.

Lemma basename_path_join (a b : string) :
  b <> "" -> no_slash (list_ascii_of_string b) = true ->
  basename (path_join a b) = b.
Proof.
  intros Hne Hb.
  assert (starts_with_slash b = false) as Hstart.
  { destruct b as [|c b]; [congruence |]. cbn in Hb |- *.
    apply andb_true_iff in Hb as [Hc _]. apply negb_true_iff. exact Hc. }
  unfold basename, path_join. rewrite Hstart.
  assert (forallb (fun c => negb (Ascii.eqb c slash))
            (rev (list_ascii_of_string b)) = true) as Hrev
    by (rewrite forallb_rev; exact Hb).
  destruct (String.eqb_spec a "") as [-> | Ha]; cbn [orb].
  - change (list_ascii_of_string ("" ++ b)) with (list_ascii_of_string b).
    rewrite (break_at_absent _ _ Hrev). cbn [fst].
    rewrite rev_involutive. apply string_of_list_ascii_of_string.
  - destruct (ends_with_slash a) eqn:He.
    + destruct (ends_with_slash_last a He) as [l El].
      rewrite list_of_append, El, rev_app_distr, rev_app_distr. cbn [rev app].
      rewrite (break_at_first _ _ _ Hrev). cbn [fst].
      rewrite rev_involutive. apply string_of_list_ascii_of_string.
    + rewrite !list_of_append, rev_app_distr, rev_app_distr. cbn [rev app].
      change (list_ascii_of_string "/") with [slash]. cbn [rev app].
      rewrite <- app_assoc. cbn [app].
      rewrite (break_at_first _ _ _ Hrev). cbn [fst].
      rewrite rev_involutive. apply string_of_list_ascii_of_string.
Qed.

Lemma all_dots_forallb (l : list ascii) :
  all_dots l = forallb (fun c => Ascii.eqb c dot) l.
Proof. induction l as [|c l IH]; cbn; [reflexivity | rewrite IH; reflexivity]. Qed.

Lemma splitext_root_png (name : string) :
  no_slash (list_ascii_of_string name) = true ->
  all_dots (list_ascii_of_string name) = false ->
  splitext_root (name ++ ".png") = name.
Proof.
  intros Hslash Hdots. unfold splitext_root.
  rewrite list_of_append, rev_app_distr.
  change (rev (list_ascii_of_string ".png"))
    with (["g"; "n"; "p"]%char ++ [dot]).
  rewrite <- app_assoc. cbn [app].
  change ("g"%char :: "n"%char :: "p"%char :: dot
          :: rev (list_ascii_of_string name))
    with (["g"; "n"; "p"]%char ++ dot :: rev (list_ascii_of_string name)).
  rewrite break_at_first by reflexivity.
  rewrite break_at_absent by (unfold no_slash in Hslash;
                              rewrite forallb_rev; exact Hslash).
  change (existsb (fun c => Ascii.eqb c slash) ["g"; "n"; "p"]%char)
    with false.
  cbn [orb]. rewrite all_dots_forallb, forallb_rev, <- all_dots_forallb, Hdots.
  rewrite rev_involutive. apply string_of_list_ascii_of_string.
Qed.

(** The terrain mesh is named after the raster: when the name [FULL] has
    no slash and is not made of dots only, [generate_obj_files] saves it
    as [<background directory>/<FULL>.obj]. *)
Theorem terrain_mesh_is_named_after_the_raster (self : config) :
  no_slash (list_ascii_of_string (FULL self)) = true ->
  all_dots (list_ascii_of_string (FULL self)) = false ->
  path_join (background_directory self)
    (splitext_root (basename (dem_path self)) ++ ".obj")
  = path_join (background_directory self) (FULL self ++ ".obj").
Proof.
  intros Hslash Hdots. unfold dem_path, output_path.
  rewrite basename_path_join.
  - rewrite splitext_root_png by assumption. reflexivity.
  - intros E. apply append_empty in E. discriminate.
  - unfold no_slash in *. rewrite list_of_append, forallb_app, Hslash.
    reflexivity.
Qed.

Lemma terrain_mesh_is_named_after_the_raster_witness :
  no_slash (list_ascii_of_string (FULL demo_config)) = true
  /\ path_join (background_directory demo_config)
       (splitext_root (basename (dem_path demo_config)) ++ ".obj")
     = "map/background/FULL.obj".
Proof.
  split; [reflexivity |].
  rewrite (terrain_mesh_is_named_after_the_raster demo_config);
    reflexivity.
Defined.

(** * The loop over the components *)

Lemma generate_app (pre post : list component) (self : map_state) :
  generate (pre ++ post) self
  = match generate pre self with
    | (Ok tt, m) => generate post m
    | (Raise e, m) => (Raise e, m)
    end.
Proof.
  revert self. induction pre as [|c pre IH]; intros self; cbn [app generate].
  - reflexivity.
  - destruct (construct c (world self)) as [[[]|e] w]; [| reflexivity].
    destruct (component_process c w) as [[[]|e] w']; [| reflexivity].
    apply IH.
Qed.

Lemma generate_returns_normally
    (game_components : list component) (self : map_state) :
  fst (generate game_components self) = Ok tt ->
  components (snd (generate game_components self))
  = components self ++ game_components
  /\ pbar (snd (generate game_components self))
     = (pbar self + length game_components)%nat
  /\ errors (snd (generate game_components self)) = errors self.
Proof.
  revert self.
  induction game_components as [|c cs IH]; intros self; cbn [generate].
  - intros _. cbn. rewrite app_nil_r, Nat.add_0_r. auto.
  - destruct (construct c (world self)) as [[[]|e] w]; [| discriminate].
    destruct (component_process c w) as [[[]|e] w']; [| discriminate].
    intros H. apply IH in H as (Hc & Hp & He).
    cbn [components errors pbar] in Hc, Hp, He.
    rewrite Hc, Hp, He, <- app_assoc. cbn [app length]. repeat split; lia.
Qed.

(** [Map.generate] appends to [self.components] exactly the components it
    has processed, a prefix of the game's list in the game's order, and
    advances the progress bar once for each; it returns normally exactly
    when the prefix is the whole list, and it logs an error only when it
    raises: at most one, carrying the exception raised and the class of
    the component that follows the prefix. *)
Theorem generate_keeps_the_processed_prefix
    (game_components : list component) (self : map_state) :
  let run := generate game_components self in
  exists k : nat,
    (k <= length game_components)%nat
    /\ components (snd run) = components self ++ firstn k game_components
    /\ pbar (snd run) = (pbar self + k)%nat
    /\ (fst run = Ok tt <-> k = length game_components)
    /\ (errors (snd run) = errors self
        \/ exists c e,
             nth_error game_components k = Some c
             /\ fst run = Raise e
             /\ errors (snd run) = errors self ++ [(class_name c, e)]).
Proof.
  cbn zeta. revert self.
  induction game_components as [|c cs IH]; intros self; cbn [generate].
  - exists 0%nat. cbn. rewrite app_nil_r, Nat.add_0_r. repeat split; auto.
  - destruct (construct c (world self)) as [[[]|e] w].
    + destruct (component_process c w) as [[[]|e] w'].
      * destruct (IH (mk_map_state w' (components self ++ [c]) (errors self)
                        (pbar self + 1))) as (k & Hk & Hc & Hp & Hr & He).
        cbn [components errors pbar] in Hc, Hp, He.
        exists (S k). cbn [length firstn nth_error].
        rewrite Hc, Hp, <- app_assoc. cbn [app].
        split; [lia |]. split; [reflexivity |]. split; [lia |].
        split; [| exact He].
        split; intros H; [apply Hr in H; lia | apply Hr; lia].
      * exists 0%nat. cbn. rewrite app_nil_r, Nat.add_0_r.
        repeat split; try lia; try discriminate.
        right. exists c, e. auto.
    + exists 0%nat. cbn. rewrite app_nil_r, Nat.add_0_r.
      repeat split; try lia; try discriminate. left. reflexivity.
Qed.

(** When the components before [c] are constructed and processed without
    an exception and [process] of [c] raises [e], [Map.generate] raises
    [e] with one error logged for [c]; [self.components] holds the
    components before [c] only, and no component after [c] is constructed
    or processed: the state is the one [c] left, whatever follows [c]. *)
Theorem generate_stops_at_the_first_failure
    (pre post : list component) (c : component) (self m : map_state)
    (e : exn) (w w' : state) :
  generate pre self = (Ok tt, m) ->
  construct c (world m) = (Ok tt, w) ->
  component_process c w = (Raise e, w') ->
  generate (pre ++ c :: post) self
  = (Raise e,
     mk_map_state w' (components self ++ pre)
       (errors self ++ [(class_name c, e)]) (pbar self + length pre)).
Proof.
  intros Hpre Hc Hp.
  destruct (generate_returns_normally pre self)
    as (Hcomp & Hbar & Herr); [rewrite Hpre; reflexivity |].
  rewrite Hpre in Hcomp, Hbar, Herr. cbn [snd] in *.
  rewrite generate_app, Hpre. cbn [generate]. rewrite Hc, Hp.
  rewrite Hcomp, Hbar, Herr. reflexivity.
Qed.

Lemma generate_stops_at_the_first_failure_witness :
  let i3d := mk_component "I3d" (ret tt) (ret tt) in
  let background :=
    mk_component "Background" (preprocess demo_config)
      (process demo_resize demo_linear demo_simplify (fun f => Ok f)
         demo_texture demo_config) in
  let run :=
    generate [i3d; background; i3d] (mk_map_state demo_empty_state [] [] 0) in
  fst run = Raise (FileNotFoundError "map/background/FULL.png")
  /\ components (snd run) = [i3d]
  /\ errors (snd run)
     = [("Background", FileNotFoundError "map/background/FULL.png")]
  /\ pbar (snd run) = 1%nat.
Proof.
  intros i3d background.
  set (w := snd (construct background demo_empty_state)).
  set (w' := snd (component_process background w)).
  set (e := FileNotFoundError "map/background/FULL.png").
  assert (generate [i3d] (mk_map_state demo_empty_state [] [] 0)
          = (Ok tt, mk_map_state demo_empty_state [i3d] [] 1)) as Hpre
    by reflexivity.
  assert (construct background demo_empty_state = (Ok tt, w)) as Hc
    by (vm_compute; reflexivity).
  assert (component_process background w = (Raise e, w')) as Hp
    by (vm_compute; reflexivity).
  pose proof (generate_stops_at_the_first_failure [i3d] [i3d] background
                _ _ e w w' Hpre Hc Hp) as Hrun.
  cbn [app] in Hrun. cbn zeta. rewrite Hrun. repeat split.
Defined.

(** * The files the mesh runs touch, on the concrete map *)

Lemma plane_from_np_writes_only_its_outputs_witness :
  "schema.json" <> "map/background/FULL.obj"
  /\ fs (snd (plane_from_np demo_resize demo_simplify demo_config demo_dem
                "map/background/FULL.obj" true true false demo_state))
       !! "schema.json"
     = fs demo_state !! "schema.json".
Proof.
  assert ("schema.json" <> "map/background/FULL.obj") as Hsp by discriminate.
  assert (true = true -> "schema.json" <> preview_path demo_config) as Hpv
    by (intros _ E; vm_compute in E; discriminate E).
  split; [exact Hsp |].
  exact (proj1 (plane_from_np_writes_only_its_outputs demo_resize demo_simplify
                  demo_config demo_dem "map/background/FULL.obj" true true
                  false demo_state "schema.json" Hsp Hpv)).
Defined.

Lemma water_meshes_touch_two_files_witness :
  "schema.json" <> path_join (water_directory demo_config) "plane_water.obj"
  /\ fs (snd (generate_water_resources_obj demo_resize demo_simplify
                demo_config demo_low_state)) !! "schema.json"
     = fs demo_low_state !! "schema.json".
Proof.
  assert ("schema.json"
          <> path_join (water_directory demo_config) "plane_water.obj") as H1
    by (intros E; vm_compute in E; discriminate E).
  assert ("schema.json"
          <> path_join (water_directory demo_config) "elevated_water.obj") as H2
    by (intros E; vm_compute in E; discriminate E).
  split; [exact H1 |].
  exact (proj1 (water_meshes_touch_two_files demo_resize demo_simplify
                  demo_config demo_low_state "schema.json" H1 H2)).
Defined.
